(** * tf-iam-scanner: extraction of Terraform resources and synthesis of IAM policies

    A shallow embedding of [parser.go] and [policy.go] and the properties of
    the extractor and of the policy synthesizer that follow from the code.

    Conventions of the embedding:
    - a Go [string] is a [string] of bytes; comparison is byte-wise
      lexicographic ([String.compare]), as Go's [<] on strings;
    - a Go [map] is an association list with distinct keys, kept in insertion
      order; [range] over a map visits its entries in an order the runtime
      chooses, so every [range] takes the chosen order as an argument (a
      function that permutes the entries);
    - [(T, error)] results are values of [Result T];
    - library functions whose code is not part of the repository (the HCL
      parser, [strings.TrimSpace], [strings.Fields], the JSON and YAML
      encoders) are section variables. *)

From Stdlib Require Import List String Ascii Bool Arith Lia Permutation.
From Stdlib Require Import Sorting.Sorted.
From Stdlib Require OrderedTypeEx DecimalString.
Import ListNotations.
Open Scope string_scope.
Open Scope list_scope.

Set Implicit Arguments.

(** ** Go's [strings] package, the functions the program calls *)

Module strings.

Definition HasPrefix (s prefix : string) : bool := String.prefix prefix s.

Definition HasSuffix (s suffix : string) : bool :=
  let n := String.length s in
  let m := String.length suffix in
  (m <=? n)%nat && (substring (n - m) m s =? suffix)%string.

(** [Contains s substr]: [substr] occurs somewhere in [s]. *)
Fixpoint Contains (s substr : string) : bool :=
  String.prefix substr s ||
  match s with
  | EmptyString => false
  | String _ t => Contains t substr
  end.

Definition TrimPrefix (s prefix : string) : string :=
  if HasPrefix s prefix
  then substring (String.length prefix) (String.length s - String.length prefix) s
  else s.

(** [Split s sep] for a separator of one byte (the program only splits on
    ":" and on the newline): the pieces between the occurrences of [sep],
    one more than there are occurrences. *)
Fixpoint Split (s : string) (sep : ascii) : list string :=
  match s with
  | EmptyString => [EmptyString]
  | String c t =>
      if Ascii.eqb c sep then EmptyString :: Split t sep
      else match Split t sep with
           | h :: r => String c h :: r
           | [] => [String c EmptyString]
           end
  end.

(** [SplitN s sep 2] keeps the text before the first separator as its first
    piece; [before s sep] is that piece. *)
Fixpoint before (s : string) (sep : ascii) : string :=
  match s with
  | EmptyString => EmptyString
  | String c t => if Ascii.eqb c sep then EmptyString else String c (before t sep)
  end.

Fixpoint inCutset (c : ascii) (cutset : string) : bool :=
  match cutset with
  | EmptyString => false
  | String d t => Ascii.eqb c d || inCutset c t
  end.

Fixpoint TrimLeft (s cutset : string) : string :=
  match s with
  | EmptyString => EmptyString
  | String c t => if inCutset c cutset then TrimLeft t cutset else s
  end.

Fixpoint TrimRight (s cutset : string) : string :=
  match s with
  | EmptyString => EmptyString
  | String c t =>
      match TrimRight t cutset with
      | EmptyString => if inCutset c cutset then EmptyString else String c EmptyString
      | t' => String c t'
      end
  end.

Definition Trim (s cutset : string) : string := TrimRight (TrimLeft s cutset) cutset.

(** Number of occurrences of the byte [sep] in [s]. *)
Fixpoint Count (s : string) (sep : ascii) : nat :=
  match s with
  | EmptyString => 0
  | String c t => (if Ascii.eqb c sep then 1 else 0) + Count t sep
  end.

(** [strings.TrimSpace] and [strings.Fields] on text whose white space is
    ASCII (tab, line feed, vertical tab, form feed, carriage return, space).
    The extractor itself is stated over any implementation of the two. *)
Definition isSpace (c : ascii) : bool :=
  let n := nat_of_ascii c in
  ((n =? 9) || (n =? 10) || (n =? 11) || (n =? 12) || (n =? 13) || (n =? 32))%nat.

Fixpoint dropSpace (s : string) : string :=
  match s with
  | EmptyString => EmptyString
  | String c t => if isSpace c then dropSpace t else s
  end.

Fixpoint dropSpaceRight (s : string) : string :=
  match s with
  | EmptyString => EmptyString
  | String c t =>
      match dropSpaceRight t with
      | EmptyString => if isSpace c then EmptyString else String c EmptyString
      | t' => String c t'
      end
  end.

Definition TrimSpaceASCII (s : string) : string := dropSpaceRight (dropSpace s).

(** [fieldsFrom cur s]: the fields of [s], where [cur] is the field being
    read ([None] between fields). *)
Fixpoint fieldsFrom (cur : option string) (s : string) : list string :=
  let flush := match cur with Some w => [w] | None => [] end in
  match s with
  | EmptyString => flush
  | String c t =>
      if isSpace c then flush ++ fieldsFrom None t
      else fieldsFrom (Some (match cur with
                             | Some w => w ++ String c EmptyString
                             | None => String c EmptyString
                             end)%string) t
  end.

Definition FieldsASCII (s : string) : list string := fieldsFrom None s.

End strings.

(** The double quote and the line feed, as strings and bytes. *)
Definition quote_char : ascii := ascii_of_nat 34.
Definition quote : string := String quote_char EmptyString.
Definition newline_char : ascii := ascii_of_nat 10.
Definition colon_char : ascii := ascii_of_nat 58.
Definition underscore_char : ascii := ascii_of_nat 95.

(** ** Results and errors *)

Inductive error : Type :=
| OSError (msg : string)                       (* an error of the [os] package *)
| ErrReadingPermissions (cause : error)        (* "error reading permissions.json: %w" *)
| ErrParsingPermissions (cause : error)        (* "error parsing permissions.json: %w" *)
| ErrParsingFile (path : string) (cause : error) (* "error parsing %s: %w" *)
| ErrMarshalJSON (cause : error)               (* "error marshaling policy to JSON: %w" *)
| ErrMarshalYAML (cause : error)               (* "error marshaling policy to YAML: %w" *)
| ErrUnsupportedFormat (format : string).      (* "unsupported format: %s" *)

Inductive Result (A : Type) : Type :=
| Ok (a : A)
| Err (e : error).
Arguments Ok {A} a.
Arguments Err {A} e.

(** ** Data model of [parser.go] *)

(** A [cty.Value] as far as the program looks at it: a known string, or
    anything else (other types, unknown and null values, failed evaluation). *)
Inductive ctyValue : Type :=
| CtyString (s : string)
| CtyOther.

Record Resource : Type := mkResource {
  Resource_Type : string;
  Name : string;
  Provider : string;
  Attributes : list (string * ctyValue);
  ResourceType : string
}.

Record BackendConfig : Type := mkBackendConfig {
  Backend_Type : string;
  Config : list (string * string)
}.

Record ParseResult : Type := mkParseResult {
  Resources : list Resource;
  Backend : option BackendConfig;
  DataSources : list Resource
}.

Record ResourcePermissions : Type := mkResourcePermissions {
  Actions : list string;
  ResourceTypes : list string
}.

(** The permissions database, a map from resource type to its permissions. *)
Definition PermissionMap : Type := list (string * ResourcePermissions).

Fixpoint lookup {V : Type} (m : list (string * V)) (k : string) : option V :=
  match m with
  | [] => None
  | (k', v) :: r => if (k' =? k)%string then Some v else lookup r k
  end.

(** [getRequiredPermissions], reading the global [permissionsDB] ([None] is
    the nil map). *)
Definition getRequiredPermissions (permissionsDB : option PermissionMap)
    (resourceType : string) : list string :=
  match permissionsDB with
  | None => []
  | Some db =>
      match lookup db resourceType with
      | Some perms => Actions perms
      | None => []
      end
  end.

(** ** The block tree of the HCL parser *)

(** An [hclsyntax.Block]: its type, its labels, and its body (the body's
    attributes, each with the value its expression evaluates to without a
    context, and the body's nested blocks). The parser gives every block a
    body. *)
#[local] Unset Elimination Schemes.
Inductive Block : Type :=
| mkBlock (type : string) (labels : list string)
          (attributes : list (string * ctyValue)) (blocks : list Block).
#[local] Set Elimination Schemes.

Definition Block_Type (b : Block) : string := let (t, _, _, _) := b in t.
Definition Labels (b : Block) : list string := let (_, l, _, _) := b in l.
Definition Body_Attributes (b : Block) : list (string * ctyValue) := let (_, _, a, _) := b in a.
Definition Body_Blocks (b : Block) : list Block := let (_, _, _, bs) := b in bs.

(** What [filepath.Walk] hands to its callback for one visited file or
    directory: the path, the base name ([info.Name()]) and the error of
    reaching it, if any. *)
Record WalkEntry : Type := mkWalkEntry {
  path : string;
  info_Name : string;
  walk_err : option error
}.

Definition emptyResult : ParseResult :=
  {| Resources := []; Backend := None; DataSources := [] |}.

Definition addResource (result : ParseResult) (r : Resource) : ParseResult :=
  {| Resources := Resources result ++ [r];
     Backend := Backend result;
     DataSources := DataSources result |}.

Definition addDataSource (result : ParseResult) (r : Resource) : ParseResult :=
  {| Resources := Resources result;
     Backend := Backend result;
     DataSources := DataSources result ++ [r] |}.

Definition setBackend (result : ParseResult) (b : BackendConfig) : ParseResult :=
  {| Resources := Resources result;
     Backend := Some b;
     DataSources := DataSources result |}.

Definition extractResourceFromBlock (block : Block) : option Resource :=
  match Labels block with
  | fullType :: name :: _ =>
      let provider :=
        if strings.HasPrefix fullType "aws_" then "aws"
        else if strings.Contains fullType "_" then strings.before fullType underscore_char
        else "aws" in
      Some {| Resource_Type := fullType;
              Name := name;
              Provider := provider;
              Attributes := Body_Attributes block;
              ResourceType := fullType |}
  | _ => None
  end.

Definition extractDataSourceFromBlock (block : Block) : option Resource :=
  match Labels block with
  | fullType :: name :: _ =>
      let provider := if strings.HasPrefix fullType "aws_" then "aws" else "aws" in
      Some {| Resource_Type := fullType;
              Name := name;
              Provider := provider;
              Attributes := [];
              ResourceType := fullType |}
  | _ => None
  end.

(** The string-valued attributes of a backend block. *)
Fixpoint stringAttributes (attrs : list (string * ctyValue)) : list (string * string) :=
  match attrs with
  | [] => []
  | (name, CtyString s) :: r => (name, s) :: stringAttributes r
  | (_, CtyOther) :: r => stringAttributes r
  end.

(** The first nested block of type "backend" that has a label. *)
Fixpoint firstBackend (nested : list Block) : option BackendConfig :=
  match nested with
  | [] => None
  | nestedBlock :: r =>
      match Labels nestedBlock with
      | label0 :: _ =>
          if (Block_Type nestedBlock =? "backend")%string
          then Some {| Backend_Type := label0;
                       Config := stringAttributes (Body_Attributes nestedBlock) |}
          else firstBackend r
      | [] => firstBackend r
      end
  end.

Definition extractBackendFromBlock (block : Block) : option BackendConfig :=
  firstBackend (Body_Blocks block).

(** One turn of the loop of [parseTerraformFile] over the top-level blocks. *)
Definition addBlock (result : ParseResult) (block : Block) : ParseResult :=
  if (Block_Type block =? "resource")%string then
    match extractResourceFromBlock block with
    | Some resource => addResource result resource
    | None => result
    end
  else if (Block_Type block =? "data")%string then
    match extractDataSourceFromBlock block with
    | Some dataSource => addDataSource result dataSource
    | None => result
    end
  else if (Block_Type block =? "terraform")%string then
    match extractBackendFromBlock block with
    | Some backend => setBackend result backend
    | None => result
    end
  else result.

Definition extractBlocks (blocks : list Block) : ParseResult :=
  fold_left addBlock blocks emptyResult.

(** The descriptor [extractBackendFromState] builds. *)
Definition stateBackend : BackendConfig :=
  {| Backend_Type := "s3"; Config := [] |}.

Definition isStateFileName (name : string) : bool :=
  (name =? "terraform.tfstate")%string || strings.HasSuffix name ".tfstate".

(** The state of the loop of [extractWithSimpleParsing]. *)
Record ScanState : Type := mkScanState {
  scan_result : ParseResult;
  currentBlock : string;
  currentName : string
}.

Section Extractor.

(** The world outside the program: the file system as [os.ReadFile] sees it,
    the HCL parser ([None] when the diagnostics have errors; the file name
    only labels diagnostics), the JSON decoder of the permissions file, and
    the two white-space functions of [strings]. *)
Variable ReadFile : string -> Result string.
Variable ParseConfig : string -> option (list Block).
Variable json_Unmarshal : string -> Result PermissionMap.
Variable TrimSpace : string -> string.
Variable Fields : string -> list string.

Definition loadPermissionsDB (permissionsDB : option PermissionMap)
    : option PermissionMap * option error :=
  match ReadFile "permissions.json" with
  | Err err => (permissionsDB, Some (ErrReadingPermissions err))
  | Ok data =>
      match json_Unmarshal data with
      | Err err => (permissionsDB, Some (ErrParsingPermissions err))
      | Ok db => (Some db, None)
      end
  end.

Definition extractBackendFromState (filePath : string) : Result (option BackendConfig) :=
  match ReadFile filePath with
  | Err err => Err err
  | Ok contentStr =>
      if strings.Contains contentStr "s3" || strings.Contains contentStr "backend"
      then Ok (Some stateBackend)
      else Ok None
  end.

(** The resource and data branches of the line scanner share their shape:
    [parts[1]] is the type, [parts[2]], when there, replaces the current
    name. *)
Definition scanDeclaration (st : ScanState) (blockKind trimmed : string)
    (add : ParseResult -> Resource -> ParseResult) : ScanState :=
  match Fields trimmed with
  | _ :: part1 :: rest =>
      let resourceType := strings.Trim part1 quote in
      let name := match rest with
                  | part2 :: _ => strings.Trim part2 quote
                  | [] => currentName st
                  end in
      let provider := if strings.HasPrefix resourceType "aws_" then "aws" else "aws" in
      {| scan_result := add (scan_result st)
                            {| Resource_Type := resourceType;
                               Name := name;
                               Provider := provider;
                               Attributes := [];
                               ResourceType := resourceType |};
         currentBlock := blockKind;
         currentName := name |}
  | _ => {| scan_result := scan_result st;
            currentBlock := blockKind;
            currentName := currentName st |}
  end.

Definition scanLine (st : ScanState) (line : string) : ScanState :=
  let trimmed := TrimSpace line in
  if strings.HasPrefix trimmed "#" || strings.HasPrefix trimmed "//"
     || (trimmed =? EmptyString)%string
  then st
  else
    (* resource and data blocks *)
    let st1 :=
      if strings.HasPrefix trimmed ("resource " ++ quote)%string
      then scanDeclaration st "resource" trimmed addResource
      else if strings.HasPrefix trimmed ("data " ++ quote)%string
      then scanDeclaration st "data" trimmed addDataSource
      else st in
    (* backend configuration *)
    let st2 :=
      if strings.Contains trimmed ("backend " ++ quote)%string
         && (currentBlock st1 =? "terraform")%string
      then match Fields trimmed with
           | _ :: part1 :: _ =>
               {| scan_result :=
                    setBackend (scan_result st1)
                      {| Backend_Type := strings.Trim part1 quote; Config := [] |};
                  currentBlock := currentBlock st1;
                  currentName := currentName st1 |}
           | _ => st1
           end
      else st1 in
    (* terraform blocks arm backend detection *)
    let st3 :=
      if strings.HasPrefix trimmed "terraform"
      then {| scan_result := scan_result st2;
              currentBlock := "terraform";
              currentName := currentName st2 |}
      else st2 in
    (* a closing brace ends the block *)
    if (trimmed =? "}")%string
    then {| scan_result := scan_result st3;
            currentBlock := EmptyString;
            currentName := EmptyString |}
    else st3.

Definition extractWithSimpleParsing (content : string) : ParseResult :=
  let lines := strings.Split content newline_char in
  scan_result
    (fold_left scanLine lines
       {| scan_result := emptyResult;
          currentBlock := EmptyString;
          currentName := EmptyString |}).

Definition parseTerraformFile (filePath : string) : Result ParseResult :=
  match ReadFile filePath with
  | Err err => Err err
  | Ok content =>
      match ParseConfig content with
      | None => Ok (extractWithSimpleParsing content)
      | Some blocks => Ok (extractBlocks blocks)
      end
  end.

(** The callback [parseTerraformFiles] gives to [filepath.Walk]; the
    [result] it closes over is passed in and out. *)
Definition visit (result : ParseResult) (e : WalkEntry) : ParseResult * option error :=
  match walk_err e with
  | Some err => (result, Some err)
  | None =>
      let afterConfig : ParseResult * option error :=
        if strings.HasSuffix (info_Name e) ".tf" then
          match parseTerraformFile (path e) with
          | Err err => (result, Some (ErrParsingFile (path e) err))
          | Ok fileResult =>
              ({| Resources := Resources result ++ Resources fileResult;
                  Backend := match Backend fileResult, Backend result with
                             | Some b, None => Some b
                             | _, current => current
                             end;
                  DataSources := DataSources result ++ DataSources fileResult |},
               None)
          end
        else (result, None) in
      match afterConfig with
      | (result1, Some err) => (result1, Some err)
      | (result1, None) =>
          if isStateFileName (info_Name e) then
            match extractBackendFromState (path e) with
            | Ok (Some backendInfo) => (setBackend result1 backendInfo, None)
            | _ => (result1, None)
            end
          else (result1, None)
      end
  end.

(** [filepath.Walk] over the files and directories [visited], in order: it
    stops at the first error the callback returns. *)
Fixpoint Walk (visited : list WalkEntry) (result : ParseResult)
    : ParseResult * option error :=
  match visited with
  | [] => (result, None)
  | e :: rest =>
      match visit result e with
      | (result1, Some err) => (result1, Some err)
      | (result1, None) => Walk rest result1
      end
  end.

(** [parseTerraformFiles], where [visited] is what [filepath.Walk(dirPath)]
    visits. It returns the new value of the global [permissionsDB] and the
    pair Go returns ([None] for the nil [*ParseResult]). *)
Definition parseTerraformFiles (permissionsDB : option PermissionMap)
    (visited : list WalkEntry)
    : option PermissionMap * (option ParseResult * option error) :=
  let loaded :=
    match permissionsDB with
    | None => loadPermissionsDB permissionsDB
    | Some _ => (permissionsDB, None)
    end in
  match loaded with
  | (db, Some err) => (db, (None, Some err))
  | (db, None) =>
      let (result, err) := Walk visited emptyResult in
      (db, (Some result, err))
  end.

End Extractor.

(** ** Data model of [policy.go] *)

(** An [IAMStatement]. Both fields of type [interface{}] hold one dynamic
    type in this program: [Action] a [[]string], [Resource] a [string]. *)
Record IAMStatement : Type := mkIAMStatement {
  Effect : string;
  Action : list string;
  Statement_Resource : string
}.

Record IAMPolicy : Type := mkIAMPolicy {
  Version : string;
  Statement : list IAMStatement
}.

Definition OutputFormat : Type := string.
Definition FormatJSON : OutputFormat := "json".
Definition FormatYAML : OutputFormat := "yaml".
Definition FormatTerraform : OutputFormat := "terraform".

(** A map from service to a list of strings ([map[string][]string]). *)
Definition ServiceMap : Type := list (string * list string).

(** [m[k] = append(m[k], v)]. *)
Fixpoint appendTo (m : ServiceMap) (k v : string) : ServiceMap :=
  match m with
  | [] => [(k, [v])]
  | (k', vs) :: r =>
      if (k' =? k)%string then (k', vs ++ [v]) :: r
      else (k', vs) :: appendTo r k v
  end.

(** [set[a] = true] on a [map[string]bool] used as a set; the list holds the
    keys. *)
Definition setAdd (set : list string) (a : string) : list string :=
  if existsb (String.eqb a) set then set else set ++ [a].

(** The orders the runtime chooses for the [range] loops over maps in one
    call of [generateIAMPolicy]: over the set of actions, and over the map
    from service to actions. *)
Record RangeOrder : Type := mkRangeOrder {
  range_actions : list string -> list string;
  range_services : ServiceMap -> ServiceMap
}.

(** A [range] visits every entry of the map once. *)
Definition visits_each_once (ro : RangeOrder) : Prop :=
  (forall l, Permutation (range_actions ro l) l) /\
  (forall m, Permutation (range_services ro m) m).

(** The two sorts of the [sort] package, as insertion sorts: [before x y]
    says that [x] goes in front of [y]. *)
Section InsertionSort.

Variable A : Type.
Variable before : A -> A -> bool.

Fixpoint insertBy (x : A) (l : list A) : list A :=
  match l with
  | [] => [x]
  | y :: r => if before x y then x :: l else y :: insertBy x r
  end.

Definition sortBy (l : list A) : list A := fold_right insertBy [] l.

End InsertionSort.

(** [sort.Strings]: ascending, byte-wise lexicographic. *)
Definition sort_Strings (l : list string) : list string := sortBy String.leb l.

(** The [less] function of the [sort.Slice] call: by first action. *)
Definition lessStatement (i j : IAMStatement) : bool :=
  match Action i, Action j with
  | iFirst :: _, jFirst :: _ => String.ltb iFirst jFirst
  | _, _ => false
  end.

(** [sort.Slice] with [lessStatement]. The statements sorted here have
    non-empty action lists with distinct first actions, so [less] orders
    them totally and the result does not depend on the algorithm of the
    library (see [sortBy_Permutation_eq]). *)
Definition sort_Slice (l : list IAMStatement) : list IAMStatement :=
  sortBy lessStatement l.

(** The [service, verb] split of an action with exactly one colon. *)
Definition splitAction (action : string) : list string :=
  strings.Split action colon_char.

(** The first loop of [groupActionsByService]: [None] when it returns early
    on an action that does not split in two. *)
Fixpoint collectPrefixes (actions : list string) (servicePrefixes : ServiceMap)
    : option ServiceMap :=
  match actions with
  | [] => Some servicePrefixes
  | action :: rest =>
      match splitAction action with
      | [service; name] => collectPrefixes rest (appendTo servicePrefixes service name)
      | _ => None
      end
  end.

(** What the second loop of [groupActionsByService] appends for one entry. *)
Definition emitService (entry : string * list string) : list string :=
  let (service, actionNames) := entry in
  if (5 <? List.length actionNames)%nat then [(service ++ ":*")%string]
  else map (fun actionName => (service ++ ":" ++ actionName)%string) actionNames.

Definition groupActionsByService (ro : RangeOrder) (actions : list string) : list string :=
  match collectPrefixes actions [] with
  | None => actions
  | Some servicePrefixes => flat_map emitService (range_services ro servicePrefixes)
  end.

(** One turn of the loop of [groupActionsByServiceWithActions]. *)
Definition groupStep (grouped : ServiceMap) (action : string) : ServiceMap :=
  match splitAction action with
  | [service; _] => appendTo grouped service action
  | _ => grouped
  end.

Definition groupActionsByServiceWithActions (actions : list string) : ServiceMap :=
  fold_left groupStep actions [].

Definition arnMap : list (string * string) :=
  [ ("ec2", "arn:aws:ec2:*:*:*");
    ("s3", "arn:aws:s3:::*");
    ("iam", "arn:aws:iam::*:*");
    ("rds", "arn:aws:rds:*:*:*");
    ("lambda", "arn:aws:lambda:*:*:*");
    ("apigateway", "arn:aws:apigateway:*::*");
    ("sns", "arn:aws:sns:*:*:*");
    ("sqs", "arn:aws:sqs:*:*:*");
    ("dynamodb", "arn:aws:dynamodb:*:*:*");
    ("logs", "arn:aws:logs:*:*:*");
    ("cloudwatch", "arn:aws:cloudwatch:*:*:*");
    ("autoscaling", "arn:aws:autoscaling:*:*:*");
    ("application-autoscaling", "arn:aws:application-autoscaling:*:*:*");
    ("route53", "arn:aws:route53:::*");
    ("cloudfront", "arn:aws:cloudfront:::*");
    ("elasticloadbalancing", "arn:aws:elasticloadbalancing:*:*:*");
    ("elasticfilesystem", "arn:aws:elasticfilesystem:*:*:*");
    ("secretsmanager", "arn:aws:secretsmanager:*:*:*");
    ("kms", "arn:aws:kms:*:*:*");
    ("ecr", "arn:aws:ecr:*:*:repository/*");
    ("ecs", "arn:aws:ecs:*:*:*");
    ("eks", "arn:aws:eks:*:*:cluster/*");
    ("events", "arn:aws:events:*:*:rule/*");
    ("codepipeline", "arn:aws:codepipeline:*:*:*");
    ("codedeploy", "arn:aws:codedeploy:*:*:*");
    ("codebuild", "arn:aws:codebuild:*:*:project/*");
    ("codecommit", "arn:aws:codecommit:*:*:*");
    ("glue", "arn:aws:glue:*:*:*");
    ("redshift", "arn:aws:redshift:*:*:cluster:*");
    ("elasticache", "arn:aws:elasticache:*:*:*");
    ("es", "arn:aws:es:*:*:domain/*");
    ("kinesis", "arn:aws:kinesis:*:*:stream/*");
    ("firehose", "arn:aws:firehose:*:*:deliverystream/*");
    ("athena", "arn:aws:athena:*:*:workgroup/*");
    ("datasync", "arn:aws:datasync:*:*:*");
    ("backup", "arn:aws:backup:*:*:*");
    ("batch", "arn:aws:batch:*:*:*");
    ("guardduty", "arn:aws:guardduty:*:*:detector/*");
    ("securityhub", "arn:aws:securityhub:*:*:hub/default");
    ("inspector", "arn:aws:inspector:*:*:*");
    ("config", "arn:aws:config:*:*:*");
    ("waf", "arn:aws:waf:::*");
    ("waf-regional", "arn:aws:waf-regional:*:*:*");
    ("wafv2", "arn:aws:wafv2:*:*:*");
    ("shield", "arn:aws:shield:::*");
    ("ssm", "arn:aws:ssm:*:*:*");
    ("transfer", "arn:aws:transfer:*:*:server/*");
    ("mq", "arn:aws:mq:*:*:broker/*");
    ("iot", "arn:aws:iot:*:*:*");
    ("mobiletargeting", "arn:aws:mobiletargeting:*:*:apps/*");
    ("mediaconvert", "arn:aws:mediaconvert:*:*:queues/*");
    ("mediastore", "arn:aws:mediastore:*:*:container/*");
    ("storagegateway", "arn:aws:storagegateway:*:*:gateway/*");
    ("servicediscovery", "arn:aws:servicediscovery:*:*:*");
    ("appmesh", "arn:aws:appmesh:*:*:mesh/*");
    ("states", "arn:aws:states:*:*:stateMachine:*");
    ("network-firewall", "arn:aws:network-firewall:*:*:*");
    ("amplify", "arn:aws:amplify:*:*:*");
    ("appsync", "arn:aws:appsync:*:*:apis/*");
    ("cognito-idp", "arn:aws:cognito-idp:*:*:userpool/*");
    ("cognito-identity", "arn:aws:cognito-identity:*:*:identitypool/*");
    ("fsx", "arn:aws:fsx:*:*:file-system/*");
    ("qldb", "arn:aws:qldb:*:*:*");
    ("timestream", "arn:aws:timestream:*:*:*");
    ("memorydb", "arn:aws:memorydb:*:*:cluster/*") ].

Definition getResourceARNForService (service : string) : string :=
  match lookup arnMap service with
  | Some arn => arn
  | None => "*"
  end.

(** ** [generateTerraformOutput] *)

Definition nl : string := String newline_char EmptyString.

Definition quoted (s : string) : string := (quote ++ s ++ quote)%string.

Definition statementText (statement : IAMStatement) : string :=
  ("  statement {" ++ nl
   ++ "    effect = " ++ quoted (Effect statement) ++ nl
   ++ match Action statement with
      | [] => EmptyString
      | v => "    actions = [" ++ nl
             ++ String.concat EmptyString
                  (map (fun action => "      " ++ quoted action ++ "," ++ nl) v)
             ++ "    ]" ++ nl
      end
   ++ "    resources = [" ++ quoted (Statement_Resource statement) ++ "]" ++ nl
   ++ "  }")%string.

Fixpoint statementsText (statements : list IAMStatement) : string :=
  match statements with
  | [] => EmptyString
  | statement :: rest =>
      (statementText statement
       ++ match rest with [] => EmptyString | _ => nl end
       ++ statementsText rest)%string
  end.

Definition generateTerraformOutput (statements : list IAMStatement) : string :=
  ("data " ++ quoted "aws_iam_policy_document" ++ " " ++ quoted "generated" ++ " {" ++ nl
   ++ statementsText statements
   ++ nl ++ "}" ++ nl
   ++ nl ++ "resource " ++ quoted "aws_iam_policy" ++ " " ++ quoted "generated" ++ " {" ++ nl
   ++ "  name   = " ++ quoted "tf-iam-scanner-generated" ++ nl
   ++ "  policy = data.aws_iam_policy_document.generated.json" ++ nl
   ++ "}" ++ nl)%string.

(** ** [generateIAMPolicy] *)

Definition backendActions : list string :=
  [ "s3:GetObject"; "s3:PutObject"; "s3:ListBucket"; "s3:DeleteObject";
    "dynamodb:GetItem"; "dynamodb:PutItem"; "dynamodb:DeleteItem"; "dynamodb:DescribeTable" ].

(** The read-only filter on the actions of a data source. *)
Definition isReadOnly (action : string) : bool :=
  strings.Contains action "Describe" || strings.Contains action "Get"
  || strings.Contains action "List".

Section Synthesizer.

(** The global permissions database at the time of the call, and the two
    encoders of the libraries. *)
Variable permissionsDB : option PermissionMap.
Variable json_MarshalIndent : IAMPolicy -> Result string.
Variable yaml_Marshal : IAMPolicy -> Result string.

(** The actions one resource adds to the set. *)
Definition resourceActions (resource : Resource) : list string :=
  if (Provider resource =? "aws")%string
     && negb (Resource_Type resource =? EmptyString)%string
  then getRequiredPermissions permissionsDB (Resource_Type resource)
  else [].

(** The actions one data source adds to the set. *)
Definition dataSourceActions (dataSource : Resource) : list string :=
  if (Provider dataSource =? "aws")%string
     && negb (Resource_Type dataSource =? EmptyString)%string
  then
    let resourceType := strings.TrimPrefix (Resource_Type dataSource) "data." in
    filter isReadOnly (getRequiredPermissions permissionsDB resourceType)
  else [].

(** The keys of the [actions] set after the three collecting loops. *)
Definition collectActions (result : ParseResult) (includeStateBackend : bool) : list string :=
  let fromResources :=
    fold_left (fun actions resource => fold_left setAdd (resourceActions resource) actions)
      (Resources result) [] in
  let fromDataSources :=
    fold_left (fun actions dataSource => fold_left setAdd (dataSourceActions dataSource) actions)
      (DataSources result) fromResources in
  if includeStateBackend || (match Backend result with Some _ => true | None => false end)
  then fold_left setAdd backendActions fromDataSources
  else fromDataSources.

(** The sorted list of the collected actions. *)
Definition sortedActions (ro : RangeOrder) (result : ParseResult)
    (includeStateBackend : bool) : list string :=
  sort_Strings (range_actions ro (collectActions result includeStateBackend)).

(** The statement the least-privilege mode builds for one entry of the map
    from service to actions. *)
Definition serviceStatement (entry : string * list string) : IAMStatement :=
  let (service, serviceActions) := entry in
  {| Effect := "Allow";
     Action := serviceActions;
     Statement_Resource := getResourceARNForService service |}.

(** The statements of the least-privilege mode. *)
Definition leastPrivilegeStatements (ro : RangeOrder) (actionList : list string)
    : list IAMStatement :=
  let groupedByService := groupActionsByServiceWithActions actionList in
  sort_Slice (map serviceStatement (range_services ro groupedByService)).

(** The statements of the policy. *)
Definition policyStatements (ro : RangeOrder) (result : ParseResult)
    (includeStateBackend leastPrivilege : bool) : list IAMStatement :=
  let actionList := sortedActions ro result includeStateBackend in
  let actionList := if negb leastPrivilege then groupActionsByService ro actionList
                    else actionList in
  if leastPrivilege then leastPrivilegeStatements ro actionList
  else [ {| Effect := "Allow"; Action := actionList; Statement_Resource := "*" |} ].

Definition generateIAMPolicy (ro : RangeOrder) (result : ParseResult)
    (includeStateBackend : bool) (format : OutputFormat) (leastPrivilege : bool)
    : Result string :=
  let statements := policyStatements ro result includeStateBackend leastPrivilege in
  let policy := {| Version := "2012-10-17"; Statement := statements |} in
  if (format =? FormatJSON)%string then
    match json_MarshalIndent policy with
    | Err err => Err (ErrMarshalJSON err)
    | Ok jsonBytes => Ok jsonBytes
    end
  else if (format =? FormatYAML)%string then
    match yaml_Marshal policy with
    | Err err => Err (ErrMarshalYAML err)
    | Ok yamlBytes => Ok yamlBytes
    end
  else if (format =? FormatTerraform)%string then
    Ok (generateTerraformOutput statements)
  else Err (ErrUnsupportedFormat format).

End Synthesizer.

(** ** [main.go] *)

(** The flags of the command, as cobra leaves them in the package
    variables. *)
Record Flags : Type := mkFlags {
  pathFlag : string;
  outputFlag : string;
  includeStateBackendFlag : bool;
  leastPrivilegeFlag : bool;
  formatFlag : string
}.

(** [validFormats[formatFlag]] in [runScanner]. *)
Definition validFormats (format : string) : bool :=
  (format =? "json")%string || (format =? "yaml")%string
  || (format =? "terraform")%string.

(** [err.Error()], the text [%v] prints for an error. *)
Fixpoint Error (err : error) : string :=
  match err with
  | OSError msg => msg
  | ErrReadingPermissions cause => "error reading permissions.json: " ++ Error cause
  | ErrParsingPermissions cause => "error parsing permissions.json: " ++ Error cause
  | ErrParsingFile filePath cause => "error parsing " ++ filePath ++ ": " ++ Error cause
  | ErrMarshalJSON cause => "error marshaling policy to JSON: " ++ Error cause
  | ErrMarshalYAML cause => "error marshaling policy to YAML: " ++ Error cause
  | ErrUnsupportedFormat format => "unsupported format: " ++ format
  end%string.

(** [%d] of a length. *)
Definition itoa (n : nat) : string := DecimalString.NilZero.string_of_uint (Nat.to_uint n).

(** One turn of the loop of [extractServicesFromPolicy] over the lines. *)
Definition servicesStep (TrimSpace : string -> string)
    (services : list string) (line : string) : list string :=
  if strings.Contains line ":" && negb (strings.Contains line "arn:") then
    match strings.Split line colon_char with
    | part0 :: _ :: _ =>
        setAdd services (strings.Trim (TrimSpace part0) (quote ++ "[],"))
    | _ => services
    end
  else services.

(** [extractServicesFromPolicy]; [rangeKeys] is the order the [range] over
    the set of services takes. *)
Definition extractServicesFromPolicy (TrimSpace : string -> string)
    (rangeKeys : list string -> list string) (policy : string) : list string :=
  let lines := strings.Split policy newline_char in
  let services := fold_left (servicesStep TrimSpace) lines [] in
  sort_Strings (rangeKeys services).

(** What a run of the command does that can be seen from outside. *)
Inductive Event : Type :=
| Stderr (text : string)
| Stdout (text : string)
| FileWritten (name content : string).

(** The events of a run in order, and the status [os.Exit] was called
    with, if it was. *)
Record Outcome : Type := mkOutcome {
  events : list Event;
  exitStatus : option nat
}.

Section Main.

(** The world of a run: the file system (reading, writing, walking a
    directory), the libraries, and the orders of the [range] loops. *)
Variable ReadFile : string -> Result string.
Variable WriteFile : string -> string -> option error.
Variable Walked : string -> list WalkEntry.
Variable ParseConfig : string -> option (list Block).
Variable json_Unmarshal : string -> Result PermissionMap.
Variable TrimSpace : string -> string.
Variable Fields : string -> list string.
Variable json_MarshalIndent : IAMPolicy -> Result string.
Variable yaml_Marshal : IAMPolicy -> Result string.
Variable ro : RangeOrder.
Variable rangeKeys : list string -> list string.

(** The lines of the summary. *)
Definition summary (flags : Flags) (result : ParseResult) (policy : string) : list Event :=
  [ Stderr (nl ++ "Summary:" ++ nl);
    Stderr ("  Resources found: " ++ itoa (List.length (Resources result)) ++ nl);
    Stderr ("  Data sources found: " ++ itoa (List.length (DataSources result)) ++ nl) ]
  ++ match Backend result with
     | Some backend =>
         Stderr ("  Backend detected: " ++ Backend_Type backend ++ nl)
         :: (if negb (includeStateBackendFlag flags)
             then [ Stderr ("  Hint: Use --include-state-backend to add backend permissions"
                            ++ nl) ]
             else [])
     | None => []
     end
  ++ (if leastPrivilegeFlag flags
      then [ Stderr ("  Services requiring permissions: "
                     ++ String.concat ", "
                          (extractServicesFromPolicy TrimSpace rangeKeys policy)
                     ++ nl) ]
      else []).

(** [runScanner], started with the global [permissionsDB]. *)
Definition runScanner (flags : Flags) (permissionsDB : option PermissionMap) : Outcome :=
  if (pathFlag flags =? EmptyString)%string then
    {| events := [ Stderr ("Error: path is required" ++ nl) ]; exitStatus := Some 1 |}
  else if negb (validFormats (formatFlag flags)) then
    {| events := [ Stderr ("Error: invalid format " ++ formatFlag flags
                           ++ ". Valid formats: json, yaml, terraform" ++ nl) ];
       exitStatus := Some 1 |}
  else
    let format : OutputFormat := formatFlag flags in
    match parseTerraformFiles ReadFile ParseConfig json_Unmarshal TrimSpace Fields
            permissionsDB (Walked (pathFlag flags)) with
    | (_, (_, Some err)) =>
        {| events := [ Stderr ("Error parsing Terraform files: " ++ Error err ++ nl) ];
           exitStatus := Some 1 |}
    | (_, (None, None)) =>
        (* a nil result without an error: the dereference panics *)
        {| events := []; exitStatus := Some 2 |}
    | (loadedDB, (Some result, None)) =>
        let warning :=
          if (List.length (Resources result) =? 0)%nat
             && (List.length (DataSources result) =? 0)%nat
          then [ Stderr ("Warning: No AWS resources or data sources found in "
                         ++ pathFlag flags ++ nl) ]
          else [] in
        match generateIAMPolicy loadedDB json_MarshalIndent yaml_Marshal ro result
                (includeStateBackendFlag flags) format (leastPrivilegeFlag flags) with
        | Err err =>
            {| events := warning
                         ++ [ Stderr ("Error generating IAM policy: " ++ Error err ++ nl) ];
               exitStatus := Some 1 |}
        | Ok policy =>
            if negb (outputFlag flags =? EmptyString)%string then
              match WriteFile (outputFlag flags) policy with
              | Some err =>
                  {| events := warning
                               ++ [ Stderr ("Error writing output file: " ++ Error err
                                            ++ nl) ];
                     exitStatus := Some 1 |}
              | None =>
                  {| events := warning
                               ++ [ FileWritten (outputFlag flags) policy;
                                    Stdout ("IAM policy written to: " ++ outputFlag flags
                                            ++ nl) ]
                               ++ summary flags result policy;
                     exitStatus := None |}
              end
            else
              {| events := warning ++ [ Stdout (policy ++ nl) ]
                           ++ summary flags result policy;
                 exitStatus := None |}
        end
    end.

End Main.


(** * Vocabulary of the properties *)

(** ** Action identifiers and maps from service to actions *)

(** An action identifier is well formed when it has exactly one colon. *)
Definition wellFormed (action : string) : Prop :=
  strings.Count action colon_char = 1.

Definition colonFree (s : string) : Prop := strings.Count s colon_char = 0.

(** [hasService service action]: [action] is [service:Verb] for some verb
    without colon. *)
Definition hasService (service action : string) : bool :=
  match splitAction action with
  | [svc; _] => (svc =? service)%string
  | _ => false
  end.

Definition verbOf (action : string) : string :=
  match splitAction action with
  | [_; verb] => verb
  | _ => EmptyString
  end.

(** [sub] occurs in [s]. *)
Definition occurs (sub s : string) : Prop :=
  exists pre post, s = (pre ++ sub ++ post)%string.

(** [m[k]], the empty list when [k] is not a key. *)
Definition getList (m : ServiceMap) (k : string) : list string :=
  match lookup m k with
  | Some vs => vs
  | None => []
  end.

Definition keys (m : ServiceMap) : list string := map fst m.

(** A map of the first loop of [groupActionsByService]: distinct keys, and
    no colon in a key or in a verb. *)
Definition cleanMap (m : ServiceMap) : Prop :=
  NoDup (keys m) /\
  Forall (fun e => colonFree (fst e) /\ Forall colonFree (snd e)) m.

(** A map of [groupActionsByServiceWithActions]: distinct keys, and under
    each key a non-empty list of actions of that service. *)
Definition groupedMap (m : ServiceMap) : Prop :=
  NoDup (keys m)
  /\ Forall (fun e => snd e <> []
                      /\ Forall (fun a => hasService (fst e) a = true) (snd e)) m.

(** ** Orders *)

(** Strictly less, byte-wise: Go's [<] on strings. *)
Definition slt (a b : string) : Prop := String.ltb a b = true.

(** Adjacent entries strictly ascending. *)
Fixpoint strictlyAscending (l : list string) : bool :=
  match l with
  | a :: (b :: _) as r => String.ltb a b && strictlyAscending r
  | _ => true
  end.

Definition firstAction (st : IAMStatement) : string := hd EmptyString (Action st).

(** Two orders a [range] may take: the entries as inserted, and the entries
    from the last inserted to the first. *)
Definition insertionOrder : RangeOrder :=
  {| range_actions := fun l => l; range_services := fun m => m |}.

Definition reverseOrder : RangeOrder :=
  {| range_actions := @rev string; range_services := @rev (string * list string) |}.

(** ** The extractor and the synthesizer *)

Definition allAws (result : ParseResult) : Prop :=
  Forall (fun r => Provider r = "aws") (Resources result)
  /\ Forall (fun r => Provider r = "aws") (DataSources result).

(** A state file the scan of [extractBackendFromState] recognises. *)
Definition recognisedStateFile (ReadFile : string -> Result string) (e : WalkEntry) : Prop :=
  isStateFileName (info_Name e) = true
  /\ exists content,
       ReadFile (path e) = Ok content
       /\ (strings.Contains content "s3" = true \/ strings.Contains content "backend" = true).

(** The test of [generateIAMPolicy] for adding the backend actions. *)
Definition backendRequested (result : ParseResult) (includeStateBackend : bool) : bool :=
  includeStateBackend || match Backend result with Some _ => true | None => false end.

(** The single statement of the default mode. *)
Definition singleStatement (actions : list string) : IAMStatement :=
  {| Effect := "Allow"; Action := actions; Statement_Resource := "*" |}.

(** * Data of the examples *)

(** ** Lists of actions *)

Definition sixOfS3AndOneMalformed : list string :=
  [ "s3:CreateBucket"; "s3:DeleteBucket"; "s3:GetBucketLocation"; "s3:GetObject";
    "s3:ListBucket"; "s3:PutObject"; "sts" ].

Definition sixOfS3FiveOfLambda : list string :=
  [ "lambda:CreateFunction"; "lambda:DeleteFunction"; "lambda:GetFunction";
    "lambda:InvokeFunction"; "lambda:UpdateFunctionCode";
    "s3:CreateBucket"; "s3:DeleteBucket"; "s3:GetBucketLocation"; "s3:GetObject";
    "s3:ListBucket"; "s3:PutObject" ].

Definition ec2ThenS3 : list string :=
  [ "ec2:DescribeInstances"; "ec2:RunInstances"; "ec2:TerminateInstances";
    "s3:CreateBucket"; "s3:DeleteBucket"; "s3:GetBucketLocation"; "s3:ListBucket" ].

Definition s3ThenEc2 : list string :=
  [ "s3:CreateBucket"; "s3:DeleteBucket"; "s3:GetBucketLocation"; "s3:ListBucket";
    "ec2:DescribeInstances"; "ec2:RunInstances"; "ec2:TerminateInstances" ].

(** ** A small directory *)

(** The files a.tf and b.tf have one [terraform] block with a backend each,
    two.tf has both blocks, broken.tf does not parse, terraform.tfstate is a
    state file, and every other path cannot be read. *)

Definition s3BackendSettings : list (string * ctyValue) :=
  [ ("bucket", CtyString "my-terraform-state"); ("encrypt", CtyOther) ].

(** [terraform { backend "<kind>" { ... } }]. *)
Definition backendBlock (kind : string) (settings : list (string * ctyValue)) : Block :=
  mkBlock "terraform" [] [] [ mkBlock "backend" [kind] settings [] ].

Definition contentA : string :=
  ("terraform {" ++ nl ++ "  backend " ++ quoted "s3" ++ " {" ++ nl
   ++ "    bucket  = " ++ quoted "my-terraform-state" ++ nl
   ++ "    encrypt = true" ++ nl ++ "  }" ++ nl ++ "}" ++ nl)%string.

Definition contentB : string :=
  ("terraform {" ++ nl ++ "  backend " ++ quoted "gcs" ++ " {}" ++ nl ++ "}" ++ nl)%string.

Definition contentTwo : string := (contentA ++ contentB)%string.

(** The brace of the resource is never closed. *)
Definition contentBroken : string :=
  ("resource " ++ quoted "google_storage_bucket" ++ " " ++ quoted "b" ++ " {" ++ nl
   ++ "  name = " ++ quoted "x" ++ nl)%string.

Definition contentState : string := "{ version: 4, backend: { type: local } }".

Definition blocksA : list Block := [ backendBlock "s3" s3BackendSettings ].

Definition blocksB : list Block := [ backendBlock "gcs" [] ].

Definition blocksTwo : list Block := blocksA ++ blocksB.

Definition demoReadFile (filePath : string) : Result string :=
  if (filePath =? "a.tf")%string then Ok contentA
  else if (filePath =? "b.tf")%string then Ok contentB
  else if (filePath =? "two.tf")%string then Ok contentTwo
  else if (filePath =? "broken.tf")%string then Ok contentBroken
  else if (filePath =? "terraform.tfstate")%string then Ok contentState
  else Err (OSError "permission denied").

Definition demoParseConfig (content : string) : option (list Block) :=
  if (content =? contentA)%string then Some blocksA
  else if (content =? contentB)%string then Some blocksB
  else if (content =? contentTwo)%string then Some blocksTwo
  else None.

Definition demoUnmarshal (data : string) : Result PermissionMap := Ok [].

(** A file at the root of the directory, reached without error. *)
Definition file (name : string) : WalkEntry :=
  {| path := name; info_Name := name; walk_err := None |}.

Definition demoWalk : list WalkEntry -> ParseResult -> ParseResult * option error :=
  Walk demoReadFile demoParseConfig strings.TrimSpaceASCII strings.FieldsASCII.

(** A run with the permissions database already loaded. *)
Definition demoRun (visited : list WalkEntry)
    : option PermissionMap * (option ParseResult * option error) :=
  parseTerraformFiles demoReadFile demoParseConfig demoUnmarshal
    strings.TrimSpaceASCII strings.FieldsASCII (Some []) visited.

Definition blockBackendA : BackendConfig :=
  {| Backend_Type := "s3"; Config := [("bucket", "my-terraform-state")] |}.

Definition blockBackendB : BackendConfig :=
  {| Backend_Type := "gcs"; Config := [] |}.

Definition resultA : ParseResult :=
  {| Resources := []; Backend := Some blockBackendA; DataSources := [] |}.

(** ** Permissions databases and parse results *)

Definition s3DB : PermissionMap :=
  [ ("aws_s3_bucket",
     {| Actions := ["s3:GetObject"; "s3:CreateBucket"]; ResourceTypes := [] |}) ].

Definition s3DataSource : Resource :=
  {| Resource_Type := "data.aws_s3_bucket"; Name := "logs"; Provider := "aws";
     Attributes := []; ResourceType := "data.aws_s3_bucket" |}.

(** A database with an entry for the empty type, and a data source with the
    empty type, as the line scanner returns it for a line that starts with
    [data] and two quotes with nothing between them. *)
Definition emptyKeyDB : PermissionMap :=
  [ (EmptyString, {| Actions := ["s3:GetObject"]; ResourceTypes := [] |}) ].

Definition untypedDataSource : Resource :=
  {| Resource_Type := EmptyString; Name := "x"; Provider := "aws";
     Attributes := []; ResourceType := EmptyString |}.

(** A data source recorded with another provider. *)
Definition foreignDataSource : Resource :=
  {| Resource_Type := "data.aws_s3_bucket"; Name := "logs"; Provider := "google";
     Attributes := []; ResourceType := "data.aws_s3_bucket" |}.

(** The permissions and the resources of the example of the README. *)
Definition readmeDB : PermissionMap :=
  [ ("aws_instance",
     {| Actions := ["ec2:DescribeInstances"; "ec2:RunInstances"; "ec2:TerminateInstances"];
        ResourceTypes := [] |});
    ("aws_s3_bucket",
     {| Actions := ["s3:CreateBucket"; "s3:DeleteBucket"; "s3:GetBucketLocation";
                    "s3:ListBucket"];
        ResourceTypes := [] |}) ].

Definition readmeResult : ParseResult :=
  {| Resources :=
       [ {| Resource_Type := "aws_s3_bucket"; Name := "my_bucket"; Provider := "aws";
            Attributes := [("bucket", CtyString "my-terraform-test")];
            ResourceType := "aws_s3_bucket" |};
         {| Resource_Type := "aws_instance"; Name := "web"; Provider := "aws";
            Attributes := [("ami", CtyString "ami-12345678");
                           ("instance_type", CtyString "t2.micro")];
            ResourceType := "aws_instance" |} ];
     Backend := None;
     DataSources := [] |}.

(** A database whose entry has no well-formed action. *)
Definition malformedDB : PermissionMap :=
  [ ("aws_custom",
     {| Actions := ["s3GetObject"; "iam:role:Pass"]; ResourceTypes := [] |}) ].

Definition customResult : ParseResult :=
  {| Resources := [ {| Resource_Type := "aws_custom"; Name := "c"; Provider := "aws";
                       Attributes := []; ResourceType := "aws_custom" |} ];
     Backend := None;
     DataSources := [] |}.

(** * Vocabulary of the further properties *)


(** What one top-level block gives to the result of its file. *)
Definition blockResources (b : Block) : list Resource :=
  if (Block_Type b =? "resource")%string
  then match extractResourceFromBlock b with Some r => [r] | None => [] end
  else [].

Definition blockDataSources (b : Block) : list Resource :=
  if (Block_Type b =? "data")%string
  then match extractDataSourceFromBlock b with Some r => [r] | None => [] end
  else [].

Definition blockBackend (b : Block) : option BackendConfig :=
  if (Block_Type b =? "terraform")%string then extractBackendFromBlock b else None.


(** A later value replaces the current one. *)
Definition laterWins {A : Type} (current : option A) (later : option A) : option A :=
  match later with
  | Some b => Some b
  | None => current
  end.

(** An earlier value stays. *)
Definition firstWins {A : Type} (current : option A) (later : option A) : option A :=
  match current with
  | Some b => Some b
  | None => later
  end.

(** What the extractor always gives: a resource whose second type field
    repeats the first and whose provider has no underscore; a data source
    with these and with provider "aws" and no attributes. *)
Definition extractedResource (r : Resource) : Prop :=
  ResourceType r = Resource_Type r
  /\ strings.Count (Provider r) underscore_char = 0.

Definition extractedDataSource (d : Resource) : Prop :=
  ResourceType d = Resource_Type d /\ Provider d = "aws" /\ Attributes d = [].

Definition extractedResult (result : ParseResult) : Prop :=
  Forall extractedResource (Resources result)
  /\ Forall extractedDataSource (DataSources result).

Section ExtractorVocabulary.

Variable ReadFile : string -> Result string.
Variable ParseConfig : string -> option (list Block).
Variable TrimSpace : string -> string.
Variable Fields : string -> list string.

(** The result of a visited entry as a configuration file, when it is one
    and can be read. *)
Definition configResult (e : WalkEntry) : option ParseResult :=
  if strings.HasSuffix (info_Name e) ".tf" then
    match parseTerraformFile ReadFile ParseConfig TrimSpace Fields (path e) with
    | Ok fileResult => Some fileResult
    | Err _ => None
    end
  else None.

Definition configResources (e : WalkEntry) : list Resource :=
  match configResult e with Some fileResult => Resources fileResult | None => [] end.

Definition configDataSources (e : WalkEntry) : list Resource :=
  match configResult e with Some fileResult => DataSources fileResult | None => [] end.

Definition configBackend (e : WalkEntry) : option BackendConfig :=
  match configResult e with Some fileResult => Backend fileResult | None => None end.

(** The backend the state-file scan finds at a visited entry. *)
Definition stateScan (e : WalkEntry) : option BackendConfig :=
  if isStateFileName (info_Name e) then
    match extractBackendFromState ReadFile (path e) with
    | Ok (Some backendInfo) => Some backendInfo
    | _ => None
    end
  else None.

(** The error that stops the walk at a visited entry: the error of reaching
    it, or the error of reading it as a configuration file, wrapped. *)
Definition entryError (e : WalkEntry) : option error :=
  match walk_err e with
  | Some err => Some err
  | None =>
      if strings.HasSuffix (info_Name e) ".tf" then
        match ReadFile (path e) with
        | Err io => Some (ErrParsingFile (path e) io)
        | Ok _ => None
        end
      else None
  end.

End ExtractorVocabulary.

(** A line the line scanner skips, by its trimmed text: a comment or a
    blank line. *)
Definition skippedLine (trimmed : string) : bool :=
  strings.HasPrefix trimmed "#" || strings.HasPrefix trimmed "//"
  || (trimmed =? EmptyString)%string.

(** The state in which the line scanner starts. *)
Definition initialScan : ScanState :=
  {| scan_result := emptyResult; currentBlock := EmptyString; currentName := EmptyString |}.

(** A list of policy entries grants an action when it lists the action, or
    lists the wildcard of the service of the action. *)
Definition grants (entries : list string) (action : string) : Prop :=
  In action entries
  \/ exists service,
       hasService service action = true /\ In (service ++ ":*")%string entries.

(** The order of the statements of the least-privilege mode. *)
Definition statementBefore (x y : IAMStatement) : Prop :=
  slt (firstAction x) (firstAction y).

(** The statement of the least-privilege mode for a service, over a list
    of actions. *)
Definition statementFor (actionList : list string) (service : string) : IAMStatement :=
  {| Effect := "Allow";
     Action := filter (hasService service) actionList;
     Statement_Resource := getResourceARNForService service |}.


(** The hint of the summary. *)
Definition backendHint : Event :=
  Stderr ("  Hint: Use --include-state-backend to add backend permissions" ++ nl).

(** A run of the command on a directory that holds the one file [a.tf],
    with the permissions database loaded and a file system that accepts
    every write. *)
Definition demoCommand (flags : Flags) : Outcome :=
  runScanner demoReadFile (fun _ _ => None) (fun _ => [file "a.tf"]) demoParseConfig
    demoUnmarshal strings.TrimSpaceASCII strings.FieldsASCII
    (fun _ => Ok "{}"%string) (fun _ => Ok "{}"%string)
    insertionOrder (fun services => services) flags (Some readmeDB).

Definition terraformToStdout : Flags :=
  {| pathFlag := "."; outputFlag := EmptyString; includeStateBackendFlag := false;
     leastPrivilegeFlag := true; formatFlag := "terraform" |}.


(** The name [extractServicesFromPolicy] reads off a line: the text before
    the first colon, without the white space around it and then without
    the quotes, brackets and commas around it. *)
Definition serviceOfLine (TrimSpace : string -> string) (line : string) : string :=
  strings.Trim (TrimSpace (strings.before line colon_char)) (quote ++ "[],").

(** The lines [extractServicesFromPolicy] reads a name off. *)
Definition namesService (line : string) : bool :=
  strings.Contains line ":" && negb (strings.Contains line "arn:").

(** [allChars p s]: every byte of [s] satisfies [p]. *)
Fixpoint allChars (p : ascii -> bool) (s : string) : bool :=
  match s with
  | EmptyString => true
  | String c t => p c && allChars p t
  end.

Definition isASCII (c : ascii) : bool := (nat_of_ascii c <? 128)%nat.

(** The bytes of the service prefixes of IAM: lower-case letters, digits
    and the hyphen. *)
Definition isServiceChar (c : ascii) : bool :=
  let n := nat_of_ascii c in
  ((97 <=? n) && (n <=? 122) || (48 <=? n) && (n <=? 57) || (n =? 45))%nat.

(** An action the summary can read back from the Terraform text: the text
    before its first colon is made of bytes of service prefixes, it does
    not contain "arn:", and it has no line feed. *)
Definition summarisable (action : string) : bool :=
  allChars isServiceChar (strings.before action colon_char)
  && negb (strings.Contains action "arn:")
  && (strings.Count action newline_char =? 0)%nat.

(** The line of an action, and the line of the resource, in the text of a
    statement. *)
Definition actionLine (action : string) : string :=
  ("      " ++ quoted action ++ ",")%string.

Definition resourceLine (resource : string) : string :=
  ("    resources = [" ++ quoted resource ++ "]")%string.

(** The lines of the text of a statement with at least one action. *)
Definition statementLines (statement : IAMStatement) : list string :=
  [ "  statement {"%string; ("    effect = " ++ quoted (Effect statement))%string;
    "    actions = ["%string ]
  ++ map actionLine (Action statement)
  ++ [ "    ]"%string; resourceLine (Statement_Resource statement); "  }"%string ].

(** The text made of the given lines, each followed by a line feed, and
    then of [rest]. *)
Definition unlines (lines : list string) (rest : string) : string :=
  fold_right (fun line text => line ++ nl ++ text)%string rest lines.

(** The lines between the braces of the policy document. *)
Definition documentLines (statements : list IAMStatement) : list string :=
  match statements with
  | [] => [EmptyString]
  | _ => flat_map statementLines statements
  end.

(** The lines of the Terraform text, all but the empty piece after the
    last line feed. *)
Definition outputLines (statements : list IAMStatement) : list string :=
  [ ("data " ++ quoted "aws_iam_policy_document" ++ " " ++ quoted "generated" ++ " {")%string ]
  ++ documentLines statements
  ++ [ "}"%string; EmptyString;
       ("resource " ++ quoted "aws_iam_policy" ++ " " ++ quoted "generated" ++ " {")%string;
       ("  name   = " ++ quoted "tf-iam-scanner-generated")%string;
       "  policy = data.aws_iam_policy_document.generated.json"%string;
       "}"%string ].

(** A statement whose effect, actions and resource have no line feed, and
    which has an action. *)
Definition printable (statement : IAMStatement) : Prop :=
  Action statement <> []
  /\ strings.Count (Effect statement) newline_char = 0
  /\ Forall (fun action => strings.Count action newline_char = 0) (Action statement)
  /\ strings.Count (Statement_Resource statement) newline_char = 0.

(** * Properties *)

(** ** Facts about the functions of [strings] *)

Lemma Split_length (s : string) (c : ascii) :
  List.length (strings.Split s c) = S (strings.Count s c).
Proof.
  induction s as [|a t IH]; simpl; [reflexivity|].
  destruct (Ascii.eqb a c); simpl.
  - now rewrite IH.
  - destruct (strings.Split t c); simpl in *; [discriminate | exact IH].
Qed.

Lemma Split_not_nil (s : string) (c : ascii) : strings.Split s c <> [].
Proof.
  intros E. pose proof (Split_length s c) as L. rewrite E in L. discriminate.
Qed.

Lemma Split_one (s : string) (c : ascii) (y : string) :
  strings.Split s c = [y] -> s = y /\ strings.Count s c = 0.
Proof.
  revert y; induction s as [|a t IH]; simpl; intros y H.
  - now inversion H.
  - destruct (Ascii.eqb a c).
    + inversion H as [[Hy Hnil]]. now apply Split_not_nil in Hnil.
    + destruct (strings.Split t c) as [|h r] eqn:E; [now apply Split_not_nil in E|].
      inversion H; subst.
      destruct (IH h eq_refl) as [-> ->]. now split.
Qed.

Lemma Split_none (s : string) (c : ascii) :
  strings.Count s c = 0 -> strings.Split s c = [s].
Proof.
  induction s as [|a t IH]; simpl; intros H; [reflexivity|].
  destruct (Ascii.eqb a c); [discriminate|].
  now rewrite IH.
Qed.

Lemma Split_two (s : string) (c : ascii) (x y : string) :
  strings.Split s c = [x; y] ->
  s = (x ++ String c y)%string /\ strings.Count x c = 0 /\ strings.Count y c = 0.
Proof.
  revert x y; induction s as [|a t IH]; simpl; intros x y H; [discriminate|].
  destruct (Ascii.eqb a c) eqn:Eac.
  - inversion H as [[Hx Ht]]. apply Ascii.eqb_eq in Eac. subst a.
    destruct (Split_one _ _ Ht) as [-> Hc]. simpl. auto.
  - destruct (strings.Split t c) as [|h r] eqn:E; [now apply Split_not_nil in E|].
    inversion H; subst.
    destruct (IH h y eq_refl) as (-> & Hh & Hy).
    simpl. rewrite Eac. auto.
Qed.

Lemma Split_join (x y : string) (c : ascii) :
  strings.Count x c = 0 -> strings.Count y c = 0 ->
  strings.Split (x ++ String c y) c = [x; y].
Proof.
  intros Hx Hy. induction x as [|a x' IH]; simpl in *.
  - rewrite Ascii.eqb_refl. now rewrite Split_none.
  - destruct (Ascii.eqb a c); [discriminate|].
    now rewrite IH.
Qed.

Lemma colon_literal : ":"%string = String colon_char EmptyString.
Proof. reflexivity. Qed.

Lemma append_colon (service rest : string) :
  (service ++ ":" ++ rest)%string = (service ++ String colon_char rest)%string.
Proof. reflexivity. Qed.

Lemma prefix_append (p s : string) :
  String.prefix p s = true <-> exists post, s = (p ++ post)%string.
Proof.
  revert s; induction p as [|a p IH]; intros s.
  - split; [intros _; now exists s | intros _; now destruct s].
  - destruct s as [|b s]; simpl.
    + split; [discriminate | intros (post & H); discriminate].
    + destruct (ascii_dec a b) as [->|Hne].
      * rewrite IH. split; intros (post & H); exists post; [now rewrite H | now inversion H].
      * split; [discriminate | intros (post & H); inversion H; congruence].
Qed.

Lemma Contains_nil (sub : string) :
  strings.Contains EmptyString sub = String.prefix sub EmptyString || false.
Proof. reflexivity. Qed.

Lemma Contains_cons (c : ascii) (t sub : string) :
  strings.Contains (String c t) sub
  = String.prefix sub (String c t) || strings.Contains t sub.
Proof. reflexivity. Qed.

Lemma Contains_occurs (s sub : string) :
  strings.Contains s sub = true <-> occurs sub s.
Proof.
  split.
  - induction s as [|c t IH]; intros H.
    + rewrite Contains_nil, orb_false_r in H. apply prefix_append in H.
      destruct H as (post & H). now exists EmptyString, post.
    + rewrite Contains_cons in H. apply orb_true_iff in H. destruct H as [H|H].
      * apply prefix_append in H. destruct H as (post & H). now exists EmptyString, post.
      * destruct (IH H) as (pre & post & E). exists (String c pre), post.
        simpl. now rewrite E.
  - intros (pre & post & E). subst s. induction pre as [|c pre IH].
    + assert (H : String.prefix sub (sub ++ post) = true)
        by (apply prefix_append; eauto).
      change (EmptyString ++ sub ++ post)%string with (sub ++ post)%string.
      destruct (sub ++ post)%string;
        [rewrite Contains_nil | rewrite Contains_cons]; now rewrite H.
    + change (String c pre ++ sub ++ post)%string
        with (String c (pre ++ sub ++ post))%string.
      rewrite Contains_cons, IH. apply orb_true_r.
Qed.

Lemma substring_append (p rest : string) :
  substring (String.length p) (String.length (p ++ rest) - String.length p) (p ++ rest)
  = rest.
Proof.
  induction p as [|a p IH]; simpl.
  - rewrite Nat.sub_0_r. clear. induction rest as [|c r IH]; simpl; [reflexivity|].
    now rewrite IH.
  - exact IH.
Qed.

Lemma TrimPrefix_append (p rest : string) :
  strings.TrimPrefix (p ++ rest) p = rest.
Proof.
  unfold strings.TrimPrefix, strings.HasPrefix.
  assert (H : String.prefix p (p ++ rest) = true) by (apply prefix_append; eauto).
  rewrite H. apply substring_append.
Qed.

Lemma TrimPrefix_no_prefix (s p : string) :
  strings.HasPrefix s p = false -> strings.TrimPrefix s p = s.
Proof. unfold strings.TrimPrefix. now intros ->. Qed.

(** ** Action identifiers *)

Lemma wellFormed_split (action : string) :
  wellFormed action <-> exists service verb, splitAction action = [service; verb].
Proof.
  unfold wellFormed, splitAction. split.
  - intros H. pose proof (Split_length action colon_char) as L. rewrite H in L.
    destruct (strings.Split action colon_char) as [|x [|y [|z r]]]; try discriminate.
    now exists x, y.
  - intros (x & y & E). pose proof (Split_length action colon_char) as L.
    rewrite E in L. simpl in L. congruence.
Qed.

Lemma hasService_join (service k verb : string) :
  colonFree k -> colonFree verb ->
  hasService service (k ++ ":" ++ verb) = (k =? service)%string.
Proof.
  intros Hk Hv. unfold hasService, splitAction.
  rewrite append_colon, Split_join by assumption. reflexivity.
Qed.

Lemma hasService_inv (service action : string) :
  hasService service action = true ->
  action = (service ++ ":" ++ verbOf action)%string
  /\ colonFree service /\ colonFree (verbOf action).
Proof.
  unfold hasService, verbOf, splitAction. intros H.
  destruct (strings.Split action colon_char) as [|x [|y [|z r]]] eqn:E; try discriminate.
  apply String.eqb_eq in H. subst x.
  destruct (Split_two _ _ E) as (-> & Hs & Hy). rewrite append_colon. auto.
Qed.

Lemma hasService_functional (k k' a : string) :
  hasService k a = true -> hasService k' a = true -> k = k'.
Proof.
  unfold hasService.
  destruct (splitAction a) as [|x [|y [|z r]]]; try discriminate.
  intros H H'. apply String.eqb_eq in H, H'. congruence.
Qed.

Lemma isReadOnly_occurs (action : string) :
  isReadOnly action = true
  <-> occurs "Describe" action \/ occurs "Get" action \/ occurs "List" action.
Proof.
  unfold isReadOnly. rewrite !orb_true_iff, !Contains_occurs. tauto.
Qed.

(** ** Facts about maps from service to lists *)

Lemma appendTo_keys (m : ServiceMap) (k v k' : string) :
  In k' (keys (appendTo m k v)) <-> k' = k \/ In k' (keys m).
Proof.
  induction m as [|[k0 vs] r IH]; simpl.
  - intuition.
  - destruct (String.eqb_spec k0 k) as [->|Hne]; simpl.
    + intuition.
    + rewrite IH. intuition.
Qed.

Lemma appendTo_NoDup (m : ServiceMap) (k v : string) :
  NoDup (keys m) -> NoDup (keys (appendTo m k v)).
Proof.
  induction m as [|[k0 vs] r IH]; simpl; intros H.
  - constructor; [intros [] | constructor].
  - inversion H as [|? ? Hnin Hr]; subst.
    destruct (String.eqb_spec k0 k) as [->|Hne]; simpl.
    + now constructor.
    + constructor; [|now apply IH].
      intros Hin. apply appendTo_keys in Hin. destruct Hin as [->|Hin]; auto.
Qed.

Lemma appendTo_getList (m : ServiceMap) (k v s : string) :
  getList (appendTo m k v) s
  = if (k =? s)%string then getList m s ++ [v] else getList m s.
Proof.
  unfold getList. induction m as [|[k0 vs] r IH]; simpl.
  - destruct (k =? s)%string; reflexivity.
  - destruct (String.eqb_spec k0 k) as [->|Hne]; simpl.
    + destruct (k =? s)%string; reflexivity.
    + destruct (String.eqb_spec k0 s) as [->|Hne'].
      * destruct (String.eqb_spec k s) as [->|]; [congruence | reflexivity].
      * exact IH.
Qed.

Lemma appendTo_clean (m : ServiceMap) (k v : string) :
  colonFree k -> colonFree v -> cleanMap m -> cleanMap (appendTo m k v).
Proof.
  intros Hk Hv [Hnd Hall]. split; [now apply appendTo_NoDup|].
  clear Hnd. induction m as [|[k0 vs] r IH]; simpl.
  - repeat constructor; assumption.
  - inversion Hall as [|? ? [H0 Hvs] Hr]; subst.
    destruct (k0 =? k)%string.
    + constructor; [|assumption]. split; [assumption|].
      apply Forall_app. split; [assumption | now constructor].
    + constructor; [now split | now apply IH].
Qed.

Lemma appendTo_groupedMap (m : ServiceMap) (k v : string) :
  hasService k v = true -> groupedMap m -> groupedMap (appendTo m k v).
Proof.
  intros Hv [Hnd Hall]. split; [now apply appendTo_NoDup|].
  clear Hnd. induction m as [|[k0 vs] r IH]; simpl.
  - repeat constructor; [discriminate | assumption].
  - inversion Hall as [|? ? [Hne Hvs] Hr]; subst. simpl in Hne, Hvs.
    destruct (String.eqb_spec k0 k) as [->|Hk].
    + constructor; [|assumption]. split; simpl.
      * destruct vs; discriminate.
      * apply Forall_app. split; [assumption | now constructor].
    + constructor; [now split | now apply IH].
Qed.

Lemma appendTo_values (m : ServiceMap) (k v x : string) :
  In x (flat_map snd (appendTo m k v)) <-> x = v \/ In x (flat_map snd m).
Proof.
  induction m as [|[k0 vs] r IH]; simpl.
  - intuition.
  - destruct (k0 =? k)%string; simpl; rewrite !in_app_iff.
    + simpl. intuition.
    + rewrite IH. intuition.
Qed.

Lemma lookup_not_key {V : Type} (m : list (string * V)) (k : string) :
  ~ In k (map fst m) -> lookup m k = None.
Proof.
  induction m as [|[k0 v] r IH]; simpl; intros H; [reflexivity|].
  destruct (String.eqb_spec k0 k) as [->|Hne]; [tauto|].
  apply IH. tauto.
Qed.

Lemma lookup_Permutation {V : Type} (m m' : list (string * V)) (k : string) :
  Permutation m m' -> NoDup (map fst m) -> lookup m k = lookup m' k.
Proof.
  induction 1 as [| [k0 v] l l' HP IH | [k1 v1] [k2 v2] l | l l' l'' HP1 IH1 HP2 IH2];
    intros Hnd; simpl.
  - reflexivity.
  - inversion Hnd; subst. now rewrite IH.
  - destruct (String.eqb_spec k1 k) as [->|]; destruct (String.eqb_spec k2 k) as [->|];
      try reflexivity.
    inversion Hnd as [|? ? Hnin _]; subst. simpl in Hnin. tauto.
  - rewrite IH1 by assumption. apply IH2.
    eapply Permutation_NoDup; [apply Permutation_map; exact HP1 | exact Hnd].
Qed.

Lemma cleanMap_Permutation (m m' : ServiceMap) :
  Permutation m m' -> cleanMap m -> cleanMap m'.
Proof.
  intros HP [Hnd Hall]. split.
  - eapply Permutation_NoDup; [apply Permutation_map; exact HP | exact Hnd].
  - eapply Permutation_Forall; eassumption.
Qed.

Lemma getList_Permutation (m m' : ServiceMap) (k : string) :
  Permutation m m' -> NoDup (keys m) -> getList m k = getList m' k.
Proof.
  intros HP Hnd. unfold getList. now rewrite (lookup_Permutation k HP Hnd).
Qed.

Lemma NoDup_map_injective (A B : Type) (f : A -> B) (l : list A) (x y : A) :
  NoDup (map f l) -> In x l -> In y l -> f x = f y -> x = y.
Proof.
  induction l as [|a r IH]; simpl; intros Hnd Hx Hy E; [contradiction|].
  inversion Hnd as [|? ? Hnin Hr]; subst.
  destruct Hx as [->|Hx], Hy as [->|Hy]; auto.
  - exfalso. apply Hnin. rewrite E. now apply in_map.
  - exfalso. apply Hnin. rewrite <- E. now apply in_map.
Qed.

(** ** Ranges *)

Lemma insertionOrder_visits_each_once : visits_each_once insertionOrder.
Proof. split; intros; reflexivity. Qed.

Lemma reverseOrder_visits_each_once : visits_each_once reverseOrder.
Proof. split; intros l; simpl; symmetry; apply Permutation_rev. Qed.

(** ** Sorting *)

Lemma insertBy_Permutation (A : Type) (before : A -> A -> bool) (x : A) (l : list A) :
  Permutation (insertBy before x l) (x :: l).
Proof.
  induction l as [|y r IH]; simpl; [reflexivity|].
  destruct (before x y); [reflexivity|].
  rewrite IH. apply perm_swap.
Qed.

Lemma sortBy_Permutation (A : Type) (before : A -> A -> bool) (l : list A) :
  Permutation (sortBy before l) l.
Proof.
  induction l as [|a r IH]; simpl; [reflexivity|].
  rewrite insertBy_Permutation. now constructor.
Qed.

Lemma sort_Strings_Permutation (l : list string) : Permutation (sort_Strings l) l.
Proof. apply sortBy_Permutation. Qed.

Lemma sort_Slice_Permutation (l : list IAMStatement) : Permutation (sort_Slice l) l.
Proof. apply sortBy_Permutation. Qed.

Lemma ltb_compare (a b : string) : String.ltb a b = true <-> String.compare a b = Lt.
Proof. unfold String.ltb. destruct (String.compare a b); split; congruence. Qed.

Lemma slt_trans (a b c : string) : slt a b -> slt b c -> slt a c.
Proof.
  unfold slt. rewrite !ltb_compare.
  change String.compare with OrderedTypeEx.String_as_OT.cmp.
  rewrite !OrderedTypeEx.String_as_OT.cmp_lt.
  apply OrderedTypeEx.String_as_OT.lt_trans.
Qed.

Lemma slt_irrefl (a : string) : ~ slt a a.
Proof.
  unfold slt. rewrite ltb_compare. intros H.
  pose proof (String.compare_antisym a a) as K. rewrite H in K. discriminate.
Qed.

Lemma leb_false_slt (a b : string) : String.leb a b = false -> slt b a.
Proof.
  unfold slt, String.leb. intros H. apply ltb_compare.
  rewrite String.compare_antisym.
  destruct (String.compare a b); simpl; try discriminate; reflexivity.
Qed.

Lemma leb_neq_slt (a b : string) : String.leb a b = true -> a <> b -> slt a b.
Proof.
  unfold slt, String.leb. rewrite ltb_compare. intros H Hne.
  destruct (String.compare a b) eqn:E; try congruence.
  now apply String.compare_eq_iff in E.
Qed.

Lemma ltb_false_slt (a b : string) : String.ltb a b = false -> a <> b -> slt b a.
Proof.
  intros H Hne. apply leb_false_slt. unfold String.leb, String.ltb in *.
  destruct (String.compare a b) eqn:E; try discriminate; try reflexivity.
  apply String.compare_eq_iff in E. contradiction.
Qed.

(** Insertion sort over elements that [before] orders strictly and totally:
    the result is sorted, and it is the same for every arrangement of the
    input. [P] delimits the elements being sorted. *)
Section SortedInsertion.

Variable A : Type.
Variable R : A -> A -> Prop.
Variable before : A -> A -> bool.
Variable P : A -> Prop.

Hypothesis R_trans : forall x y z, R x y -> R y z -> R x z.
Hypothesis R_irrefl : forall x, ~ R x x.
Hypothesis before_true : forall x y, P x -> P y -> x <> y -> before x y = true -> R x y.
Hypothesis before_false : forall x y, P x -> P y -> x <> y -> before x y = false -> R y x.

Lemma insertBy_sorted (x : A) (l : list A) :
  P x -> Forall P l -> ~ In x l -> StronglySorted R l ->
  StronglySorted R (insertBy before x l).
Proof.
  intros Px. induction l as [|y r IH]; intros HP Hnin Hs; simpl.
  - repeat constructor.
  - inversion Hs as [|? ? Hr Hy]; subst. inversion HP as [|? ? Py HPr]; subst.
    assert (Hne : x <> y) by (intros ->; apply Hnin; now left).
    destruct (before x y) eqn:E.
    + assert (Hxy : R x y) by now apply before_true.
      constructor; [assumption|]. constructor; [assumption|].
      eapply Forall_impl; [|exact Hy]. intros z Hz. eapply R_trans; eassumption.
    + constructor.
      * apply IH; [assumption | intros H; apply Hnin; now right | assumption].
      * apply (Permutation_Forall (Permutation_sym (insertBy_Permutation before x r))).
        constructor; [now apply before_false | assumption].
Qed.

Lemma sortBy_sorted (l : list A) :
  NoDup l -> Forall P l -> StronglySorted R (sortBy before l).
Proof.
  induction 1 as [|a r Hnin Hnd IH]; intros HP; simpl; [constructor|].
  inversion HP as [|? ? Pa HPr]; subst.
  apply insertBy_sorted; [assumption | | | now apply IH].
  - apply (Permutation_Forall (Permutation_sym (sortBy_Permutation before r))).
    assumption.
  - intros H. apply Hnin. eapply Permutation_in; [apply sortBy_Permutation | exact H].
Qed.

Lemma sorted_unique (l1 l2 : list A) :
  StronglySorted R l1 -> StronglySorted R l2 ->
  (forall x, In x l1 <-> In x l2) -> l1 = l2.
Proof.
  intros H1; revert l2; induction H1 as [|a r1 Hr1 IH Ha]; intros l2 H2 Hin.
  - destruct l2 as [|b r2]; [reflexivity|].
    exfalso. apply (proj2 (Hin b)). now left.
  - destruct H2 as [|b r2 Hr2 Hb].
    + exfalso. apply (proj1 (Hin a)). now left.
    + rewrite Forall_forall in Ha, Hb.
      assert (Hab : a = b).
      { destruct (proj1 (Hin a) (or_introl eq_refl)) as [E|Ea]; [now symmetry|].
        destruct (proj2 (Hin b) (or_introl eq_refl)) as [E|Eb]; [assumption|].
        exfalso. apply (R_irrefl (x:=a)).
        eapply R_trans; [apply Ha | apply Hb]; assumption. }
      subst b. f_equal. apply IH; [assumption|].
      intros x. split; intros Hx.
      * destruct (proj1 (Hin x) (or_intror Hx)) as [E|E]; [|assumption].
        subst x. exfalso. apply (R_irrefl (x:=a)). now apply Ha.
      * destruct (proj2 (Hin x) (or_intror Hx)) as [E|E]; [|assumption].
        subst x. exfalso. apply (R_irrefl (x:=a)). now apply Hb.
Qed.

Lemma sortBy_Permutation_eq (l l' : list A) :
  NoDup l -> Forall P l -> Permutation l l' ->
  sortBy before l = sortBy before l'.
Proof.
  intros Hnd HP Hperm. apply sorted_unique.
  - now apply sortBy_sorted.
  - apply sortBy_sorted.
    + eapply Permutation_NoDup; eassumption.
    + eapply Permutation_Forall; eassumption.
  - intros x. split; intros Hx.
    + apply (Permutation_in _ (Permutation_sym (sortBy_Permutation before l'))).
      apply (Permutation_in _ Hperm).
      now apply (Permutation_in _ (sortBy_Permutation before l)).
    + apply (Permutation_in _ (Permutation_sym (sortBy_Permutation before l))).
      apply (Permutation_in _ (Permutation_sym Hperm)).
      now apply (Permutation_in _ (sortBy_Permutation before l')).
Qed.

End SortedInsertion.

Lemma sort_Strings_sorted (l : list string) :
  NoDup l -> StronglySorted slt (sort_Strings l).
Proof.
  intros Hnd.
  apply (@sortBy_sorted string slt String.leb (fun _ => True)).
  - exact slt_trans.
  - intros x y _ _ Hne H. now apply leb_neq_slt.
  - intros x y _ _ _ H. now apply leb_false_slt.
  - exact Hnd.
  - apply Forall_forall. trivial.
Qed.

Lemma sort_Strings_unique (l1 l2 : list string) :
  StronglySorted slt l1 -> StronglySorted slt l2 ->
  (forall x, In x l1 <-> In x l2) -> l1 = l2.
Proof. apply sorted_unique; [exact slt_trans | exact slt_irrefl]. Qed.

Lemma sorted_strictlyAscending (l : list string) :
  StronglySorted slt l -> strictlyAscending l = true.
Proof.
  induction 1 as [|a r Hr IH Ha]; [reflexivity|].
  destruct r as [|b r']; [reflexivity|].
  cbn [strictlyAscending]. inversion Ha; subst.
  apply andb_true_iff. split; assumption.
Qed.

(** Sorting statements with non-empty action lists and distinct first
    actions gives the same list for every arrangement of them. *)
Lemma sort_Slice_Permutation_eq (l l' : list IAMStatement) :
  NoDup (map firstAction l) ->
  Forall (fun st => Action st <> []) l ->
  Permutation l l' ->
  sort_Slice l = sort_Slice l'.
Proof.
  intros Hfirst Hne Hperm.
  apply (@sortBy_Permutation_eq IAMStatement
           (fun x y => slt (firstAction x) (firstAction y)) lessStatement
           (fun st => Action st <> [] /\ In st l)).
  - intros x y z. apply slt_trans.
  - intros x. apply slt_irrefl.
  - intros x y [Hx _] [Hy _] _. unfold lessStatement, firstAction.
    destruct (Action x); [contradiction|]. destruct (Action y); [contradiction|].
    simpl. auto.
  - intros x y [Hx Hxl] [Hy Hyl] Hxy. unfold lessStatement.
    assert (Hf : firstAction x <> firstAction y)
      by (intros E; apply Hxy; eapply NoDup_map_injective; eassumption).
    unfold firstAction in *.
    destruct (Action x); [contradiction|]. destruct (Action y); [contradiction|].
    simpl in *. intros H. now apply ltb_false_slt.
  - eapply NoDup_map_inv; eassumption.
  - rewrite Forall_forall in *. auto.
  - exact Hperm.
Qed.

(** ** The extractor *)

Section ExtractorFacts.

Variable ReadFile : string -> Result string.
Variable ParseConfig : string -> option (list Block).
Variable json_Unmarshal : string -> Result PermissionMap.
Variable TrimSpace : string -> string.
Variable Fields : string -> list string.

Local Abbreviation scanLine' := (scanLine TrimSpace Fields).
Local Abbreviation extractWithSimpleParsing' := (extractWithSimpleParsing TrimSpace Fields).
Local Abbreviation parseTerraformFile' := (parseTerraformFile ReadFile ParseConfig TrimSpace Fields).
Local Abbreviation visit' := (visit ReadFile ParseConfig TrimSpace Fields).
Local Abbreviation Walk' := (Walk ReadFile ParseConfig TrimSpace Fields).
Local Abbreviation parseTerraformFiles' :=
  (parseTerraformFiles ReadFile ParseConfig json_Unmarshal TrimSpace Fields).

Lemma scanDeclaration_allAws (st : ScanState) (blockKind trimmed : string)
    (add : ParseResult -> Resource -> ParseResult) :
  (forall result r, allAws result -> Provider r = "aws" -> allAws (add result r)) ->
  allAws (scan_result st) ->
  allAws (scan_result (scanDeclaration Fields st blockKind trimmed add)).
Proof.
  intros Hadd Hst. unfold scanDeclaration.
  destruct (Fields trimmed) as [|p0 [|p1 rest]]; simpl; try assumption.
  apply Hadd; [assumption|]. simpl.
  now destruct (strings.HasPrefix (strings.Trim p1 quote) "aws_").
Qed.

Lemma addResource_allAws (result : ParseResult) (r : Resource) :
  allAws result -> Provider r = "aws" -> allAws (addResource result r).
Proof.
  intros [HR HD] Hr. split; simpl; [|assumption].
  apply Forall_app. split; [assumption | now constructor].
Qed.

Lemma addDataSource_allAws (result : ParseResult) (r : Resource) :
  allAws result -> Provider r = "aws" -> allAws (addDataSource result r).
Proof.
  intros [HR HD] Hr. split; simpl; [assumption|].
  apply Forall_app. split; [assumption | now constructor].
Qed.

Lemma scanLine_allAws (st : ScanState) (line : string) :
  allAws (scan_result st) -> allAws (scan_result (scanLine' st line)).
Proof.
  intros Hst. unfold scanLine.
  set (trimmed := TrimSpace line).
  destruct (strings.HasPrefix trimmed "#" || strings.HasPrefix trimmed "//"
            || (trimmed =? EmptyString)%string); [assumption|].
  set (st1 := if strings.HasPrefix trimmed ("resource " ++ quote)%string
              then scanDeclaration Fields st "resource" trimmed addResource
              else if strings.HasPrefix trimmed ("data " ++ quote)%string
                   then scanDeclaration Fields st "data" trimmed addDataSource
                   else st).
  assert (H1 : allAws (scan_result st1)).
  { subst st1.
    destruct (strings.HasPrefix trimmed ("resource " ++ quote)%string).
    - apply scanDeclaration_allAws; [apply addResource_allAws | assumption].
    - destruct (strings.HasPrefix trimmed ("data " ++ quote)%string); [|assumption].
      apply scanDeclaration_allAws; [apply addDataSource_allAws | assumption]. }
  clearbody st1.
  destruct (strings.Contains trimmed ("backend " ++ quote)%string
            && (currentBlock st1 =? "terraform")%string);
    [destruct (Fields trimmed) as [|p0 [|p1 rest]]|];
    destruct (strings.HasPrefix trimmed "terraform");
    destruct (trimmed =? "}")%string; simpl; assumption.
Qed.

Lemma fold_scanLine_allAws (lines : list string) (st : ScanState) :
  allAws (scan_result st) -> allAws (scan_result (fold_left scanLine' lines st)).
Proof.
  revert st; induction lines as [|line rest IH]; intros st H; simpl; [assumption|].
  apply IH. now apply scanLine_allAws.
Qed.

Lemma extractWithSimpleParsing_allAws (content : string) :
  allAws (extractWithSimpleParsing' content).
Proof.
  unfold extractWithSimpleParsing. apply fold_scanLine_allAws.
  split; constructor.
Qed.

(** C9. Whatever the content, every resource and every data source the
    line scanner returns has provider "aws", whatever the prefix of its
    type; so the synthesizer's test on the provider passes for it, and it
    contributes what the permissions database has for its type (for a data
    source, the read-only part) unless the type is empty. *)
Theorem fallback_scanner_assigns_aws (content : string) :
  let scanned := extractWithSimpleParsing' content in
  Forall (fun r => Provider r = "aws"
                   /\ forall db, resourceActions db r
                                 = if (Resource_Type r =? EmptyString)%string then []
                                   else getRequiredPermissions db (Resource_Type r))
         (Resources scanned)
  /\ Forall (fun d => Provider d = "aws"
                      /\ forall db, dataSourceActions db d
                                    = if (Resource_Type d =? EmptyString)%string then []
                                      else filter isReadOnly
                                             (getRequiredPermissions db
                                                (strings.TrimPrefix (Resource_Type d) "data.")))
            (DataSources scanned).
Proof.
  intros scanned. destruct (extractWithSimpleParsing_allAws content) as [HR HD].
  split; (eapply Forall_impl; [|eassumption]); intros r Hr; (split; [exact Hr|]);
    intros db; [unfold resourceActions | unfold dataSourceActions];
    rewrite Hr; simpl; now destruct (Resource_Type r =? EmptyString)%string.
Qed.

(** *** Walking the directory *)

Lemma Walk_app (pre post : list WalkEntry) (r0 : ParseResult) :
  Walk' (pre ++ post) r0
  = match Walk' pre r0 with
    | (r1, None) => Walk' post r1
    | (r1, Some err) => (r1, Some err)
    end.
Proof.
  revert r0; induction pre as [|e pre IH]; intros r0; simpl; [reflexivity|].
  destruct (visit' r0 e) as [r1 [err|]]; [reflexivity | apply IH].
Qed.

Lemma visit_keeps_state_backend (r : ParseResult) (e : WalkEntry) :
  Backend r = Some stateBackend -> Backend (fst (visit' r e)) = Some stateBackend.
Proof.
  intros Hr. unfold visit.
  destruct (walk_err e); [assumption|].
  destruct (strings.HasSuffix (info_Name e) ".tf");
    [destruct (parseTerraformFile' (path e)) as [fileResult|err]; [|assumption]|];
    (destruct (isStateFileName (info_Name e));
     [destruct (extractBackendFromState ReadFile (path e)) as [[backendInfo|]|err'] eqn:E|]);
    simpl; rewrite ?Hr; try reflexivity;
    try (destruct (Backend fileResult); reflexivity);
    unfold extractBackendFromState in E;
    destruct (ReadFile (path e)); try discriminate;
    destruct (strings.Contains a "s3" || strings.Contains a "backend"); congruence.
Qed.

Lemma visit_recognised_state_file (r r1 : ParseResult) (e : WalkEntry) :
  recognisedStateFile ReadFile e ->
  visit' r e = (r1, None) -> Backend r1 = Some stateBackend.
Proof.
  intros (Hname & content & Hread & Hsub) Hv. unfold visit in Hv.
  assert (Hstate : extractBackendFromState ReadFile (path e) = Ok (Some stateBackend)).
  { unfold extractBackendFromState. rewrite Hread.
    destruct Hsub as [-> | ->]; [reflexivity | now rewrite orb_true_r]. }
  rewrite Hname, Hstate in Hv.
  destruct (walk_err e); [discriminate|].
  destruct (strings.HasSuffix (info_Name e) ".tf");
    [destruct (parseTerraformFile' (path e)); [|discriminate]|];
    inversion Hv; reflexivity.
Qed.

Lemma Walk_state_backend (visited : list WalkEntry) (r0 r : ParseResult) :
  Walk' visited r0 = (r, None) ->
  Backend r0 = Some stateBackend
  \/ (exists st, In st visited /\ recognisedStateFile ReadFile st) ->
  Backend r = Some stateBackend.
Proof.
  revert r0; induction visited as [|e rest IH]; intros r0 HW H; simpl in HW.
  - inversion HW; subst. destruct H as [H|(st & [] & _)]. exact H.
  - destruct (visit' r0 e) as [r1 [err|]] eqn:Ev; [discriminate|].
    apply (IH r1 HW).
    destruct H as [H|(st & [->|Hin] & Hst)].
    + left. pose proof (@visit_keeps_state_backend r0 e H) as K. now rewrite Ev in K.
    + left. eapply visit_recognised_state_file; eassumption.
    + right. eauto.
Qed.

(** C3. When a run over a directory succeeds, and the directory holds a
    configuration file that yields a backend descriptor and a state file
    whose content contains "s3" or "backend", the backend of the result is
    the descriptor of the state-file scan, wherever the two files stand in
    the order of the walk. *)
Theorem state_file_backend_wins (permissionsDB permissionsDB' : option PermissionMap)
    (visited : list WalkEntry) (cfg st : WalkEntry)
    (fileResult : ParseResult) (b : BackendConfig) (result : ParseResult) :
  In cfg visited ->
  strings.HasSuffix (info_Name cfg) ".tf" = true ->
  parseTerraformFile' (path cfg) = Ok fileResult ->
  Backend fileResult = Some b ->
  In st visited ->
  recognisedStateFile ReadFile st ->
  parseTerraformFiles' permissionsDB visited = (permissionsDB', (Some result, None)) ->
  Backend result = Some stateBackend.
Proof.
  intros _ _ _ _ Hst Hrec Hrun. unfold parseTerraformFiles in Hrun.
  destruct (match permissionsDB with
            | Some _ => (permissionsDB, None)
            | None => loadPermissionsDB ReadFile json_Unmarshal permissionsDB
            end) as [db [err|]]; [discriminate|].
  destruct (Walk' visited emptyResult) as [r werr] eqn:EW.
  inversion Hrun; subst.
  eapply Walk_state_backend; [exact EW | right; eauto].
Qed.

Lemma visit_keeps_backend (r : ParseResult) (e : WalkEntry) (b : BackendConfig) :
  isStateFileName (info_Name e) = false ->
  Backend r = Some b -> Backend (fst (visit' r e)) = Some b.
Proof.
  intros Hname Hr. unfold visit. rewrite Hname.
  destruct (walk_err e); [assumption|].
  destruct (strings.HasSuffix (info_Name e) ".tf"); [|assumption].
  destruct (parseTerraformFile' (path e)) as [fileResult|err]; [|assumption].
  simpl. rewrite Hr. now destruct (Backend fileResult).
Qed.

(** C4, as the code has it. Across the files of a run, the first
    block-derived descriptor wins: once the backend is set, walking any
    further files that are not state files leaves it as it is, whatever
    backend blocks those files hold (and also when the walk stops on an
    error). *)
Theorem first_file_backend_wins (visited : list WalkEntry) (r : ParseResult)
    (b : BackendConfig) :
  Backend r = Some b ->
  (forall e, In e visited -> isStateFileName (info_Name e) = false) ->
  Backend (fst (Walk' visited r)) = Some b.
Proof.
  revert r; induction visited as [|e rest IH]; intros r Hr Hall; simpl; [assumption|].
  pose proof (@visit_keeps_backend r e b (Hall e (or_introl eq_refl)) Hr) as K.
  destruct (visit' r e) as [r1 [err|]]; [exact K|].
  apply IH; [exact K|]. intros e' He'. apply Hall. now right.
Qed.

(** C8, as the code has it. A configuration file (name ending in ".tf")
    that cannot be read stops the run: the run returns what the files
    before it gave, with the error of the read wrapped with the path of the
    file, and nothing after it is visited. A configuration file that is read
    but does not parse gives no error: its result is that of the line
    scanner, which always returns a result. *)
Theorem config_read_error_aborts :
  (forall (permissionsDB : option PermissionMap) (pre post : list WalkEntry)
          (e : WalkEntry) (io : error),
      snd (snd (parseTerraformFiles' permissionsDB pre)) = None ->
      walk_err e = None ->
      strings.HasSuffix (info_Name e) ".tf" = true ->
      ReadFile (path e) = Err io ->
      parseTerraformFiles' permissionsDB (pre ++ e :: post)
      = (fst (parseTerraformFiles' permissionsDB pre),
         (fst (snd (parseTerraformFiles' permissionsDB pre)),
          Some (ErrParsingFile (path e) io))))
  /\ (forall (filePath content : string),
         ReadFile filePath = Ok content ->
         ParseConfig content = None ->
         parseTerraformFile' filePath = Ok (extractWithSimpleParsing' content)).
Proof.
  split.
  - intros permissionsDB pre post e io Hpre Hwalk Hname Hread.
    unfold parseTerraformFiles in *.
    destruct (match permissionsDB with
              | Some _ => (permissionsDB, None)
              | None => loadPermissionsDB ReadFile json_Unmarshal permissionsDB
              end) as [db [err|]]; [discriminate|].
    rewrite Walk_app.
    destruct (Walk' pre emptyResult) as [r1 werr]. simpl in Hpre. subst werr.
    simpl. unfold visit, parseTerraformFile. now rewrite Hwalk, Hname, Hread.
  - intros filePath content Hread Hparse.
    unfold parseTerraformFile. now rewrite Hread, Hparse.
Qed.

End ExtractorFacts.

(** *** The run on the small directory *)

Lemma terraform_tfstate_recognised :
  recognisedStateFile demoReadFile (file "terraform.tfstate").
Proof.
  split; [reflexivity|]. exists contentState. split; [reflexivity|]. now right.
Qed.

Lemma state_file_backend_wins_witness :
  (exists result,
      demoRun [file "a.tf"; file "terraform.tfstate"] = (Some [], (Some result, None))
      /\ Backend result = Some stateBackend)
  /\ (exists result,
         demoRun [file "terraform.tfstate"; file "a.tf"] = (Some [], (Some result, None))
         /\ Backend result = Some stateBackend).
Proof.
  split; eexists; (split; [vm_compute; reflexivity|]).
  - apply (@state_file_backend_wins demoReadFile demoParseConfig demoUnmarshal
             strings.TrimSpaceASCII strings.FieldsASCII (Some []) (Some [])
             [file "a.tf"; file "terraform.tfstate"] (file "a.tf")
             (file "terraform.tfstate") resultA blockBackendA);
      [ simpl; tauto | reflexivity | reflexivity | reflexivity | simpl; tauto
      | exact terraform_tfstate_recognised | vm_compute; reflexivity ].
  - apply (@state_file_backend_wins demoReadFile demoParseConfig demoUnmarshal
             strings.TrimSpaceASCII strings.FieldsASCII (Some []) (Some [])
             [file "terraform.tfstate"; file "a.tf"] (file "a.tf")
             (file "terraform.tfstate") resultA blockBackendA);
      [ simpl; tauto | reflexivity | reflexivity | reflexivity | simpl; tauto
      | exact terraform_tfstate_recognised | vm_compute; reflexivity ].
Defined.

Lemma first_file_backend_wins_witness :
  Backend resultA = Some blockBackendA
  /\ Backend (fst (demoWalk [file "b.tf"; file "two.tf"] resultA)) = Some blockBackendA.
Proof.
  split; [reflexivity|].
  apply (@first_file_backend_wins demoReadFile demoParseConfig
           strings.TrimSpaceASCII strings.FieldsASCII
           [file "b.tf"; file "two.tf"] resultA blockBackendA).
  - reflexivity.
  - intros e [<-|[<-|[]]]; reflexivity.
Defined.

(** The structured parse gives a bucket of Google the provider "google";
    the line scanner, on a file that does not parse, gives it "aws", and the
    synthesizer then looks its type up. *)
Lemma fallback_scanner_google_bucket :
  option_map Provider
    (extractResourceFromBlock (mkBlock "resource" ["google_storage_bucket"; "b"] [] []))
  = Some "google"
  /\ map Provider
       (Resources (extractWithSimpleParsing strings.TrimSpaceASCII strings.FieldsASCII
                     contentBroken))
     = ["aws"]
  /\ (forall db,
         map (resourceActions db)
           (Resources (extractWithSimpleParsing strings.TrimSpaceASCII strings.FieldsASCII
                         contentBroken))
         = [getRequiredPermissions db "google_storage_bucket"]).
Proof. repeat split. Qed.

(** C4, as stated, fails inside one file: the file two.tf has two
    [terraform] blocks with a backend; after the first block the backend is
    set, and the second block replaces it, so the run ends with the
    descriptor of the later block. *)
Lemma later_block_of_same_file_replaces :
  demoParseConfig contentTwo = Some blocksTwo
  /\ Backend (extractBlocks blocksA) = Some blockBackendA
  /\ Backend (extractBlocks blocksTwo) = Some blockBackendB
  /\ blockBackendA <> blockBackendB
  /\ demoRun [file "two.tf"]
     = (Some [], (Some {| Resources := []; Backend := Some blockBackendB;
                          DataSources := [] |}, None)).
Proof.
  repeat split; try reflexivity. discriminate.
Qed.

Lemma config_read_error_aborts_witness :
  demoRun ([file "a.tf"] ++ file "locked.tf" :: [file "terraform.tfstate"])
  = (Some [], (Some resultA, Some (ErrParsingFile "locked.tf" (OSError "permission denied"))))
  /\ parseTerraformFile demoReadFile demoParseConfig
       strings.TrimSpaceASCII strings.FieldsASCII "broken.tf"
     = Ok {| Resources := [ {| Resource_Type := "google_storage_bucket"; Name := "b";
                               Provider := "aws"; Attributes := [];
                               ResourceType := "google_storage_bucket" |} ];
             Backend := None;
             DataSources := [] |}.
Proof.
  destruct (@config_read_error_aborts demoReadFile demoParseConfig demoUnmarshal
              strings.TrimSpaceASCII strings.FieldsASCII) as [Habort Hfallback].
  split.
  - apply (Habort (Some []) [file "a.tf"] [file "terraform.tfstate"] (file "locked.tf")
             (OSError "permission denied")); reflexivity.
  - apply (Hfallback "broken.tf" contentBroken); reflexivity.
Defined.

(** C8, as stated, fails for a state file: a state file that cannot be read
    is skipped, and the run goes on and returns no error. *)
Lemma unreadable_state_file_is_skipped :
  isStateFileName "locked.tfstate" = true
  /\ demoReadFile "locked.tfstate" = Err (OSError "permission denied")
  /\ demoRun [file "locked.tfstate"; file "a.tf"] = (Some [], (Some resultA, None)).
Proof. repeat split. Qed.

(** ** The synthesizer: collecting the actions *)

Lemma setAdd_In (set : list string) (x a : string) :
  In a (setAdd set x) <-> In a set \/ a = x.
Proof.
  unfold setAdd. destruct (existsb (String.eqb x) set) eqn:E.
  - apply existsb_exists in E. destruct E as (y & Hy & Hxy).
    apply String.eqb_eq in Hxy. subst y. split; [tauto | intros [H| ->]; assumption].
  - rewrite in_app_iff. simpl. intuition.
Qed.

Lemma setAdd_NoDup (set : list string) (x : string) :
  NoDup set -> NoDup (setAdd set x).
Proof.
  intros H. unfold setAdd. destruct (existsb (String.eqb x) set) eqn:E; [assumption|].
  apply NoDup_app; [assumption | repeat constructor; intros [] |].
  intros a Ha [Hxa|[]]. subst a.
  assert (K : existsb (String.eqb x) set = true)
    by (apply existsb_exists; exists x; split; [assumption | apply String.eqb_refl]).
  congruence.
Qed.

Lemma fold_setAdd_In (l set : list string) (a : string) :
  In a (fold_left setAdd l set) <-> In a set \/ In a l.
Proof.
  revert set; induction l as [|x l IH]; intros set; simpl; [tauto|].
  rewrite IH, setAdd_In. intuition.
Qed.

Lemma fold_setAdd_NoDup (l set : list string) :
  NoDup set -> NoDup (fold_left setAdd l set).
Proof.
  revert set; induction l as [|x l IH]; intros set H; simpl; [assumption|].
  apply IH. now apply setAdd_NoDup.
Qed.

Section Collecting.

Variable A : Type.
Variable contribution : A -> list string.

Lemma fold_contributions_In (items : list A) (set : list string) (a : string) :
  In a (fold_left (fun actions item => fold_left setAdd (contribution item) actions)
          items set)
  <-> In a set \/ exists item, In item items /\ In a (contribution item).
Proof.
  revert set; induction items as [|x items IH]; intros set; simpl.
  - split; [tauto | intros [H|(item & [] & _)]; exact H].
  - rewrite IH, fold_setAdd_In. split.
    + intros [[H|H]|(item & Hin & Ha)]; eauto.
    + intros [H|(item & [->|Hin] & Ha)]; eauto.
Qed.

Lemma fold_contributions_NoDup (items : list A) (set : list string) :
  NoDup set ->
  NoDup (fold_left (fun actions item => fold_left setAdd (contribution item) actions)
           items set).
Proof.
  revert set; induction items as [|x items IH]; intros set H; simpl; [assumption|].
  apply IH. now apply fold_setAdd_NoDup.
Qed.

End Collecting.

(** The set of collected actions: what the resources, the data sources and
    the backend contribute. *)
Lemma collectActions_In (db : option PermissionMap) (result : ParseResult)
    (includeStateBackend : bool) (a : string) :
  In a (collectActions db result includeStateBackend)
  <-> (exists r, In r (Resources result) /\ In a (resourceActions db r))
      \/ (exists d, In d (DataSources result) /\ In a (dataSourceActions db d))
      \/ (backendRequested result includeStateBackend = true /\ In a backendActions).
Proof.
  unfold collectActions, backendRequested.
  destruct (includeStateBackend
            || match Backend result with Some _ => true | None => false end).
  - rewrite fold_setAdd_In, !fold_contributions_In. simpl In at 1. intuition.
  - rewrite !fold_contributions_In. simpl In at 1. intuition discriminate.
Qed.

Lemma collectActions_NoDup (db : option PermissionMap) (result : ParseResult)
    (includeStateBackend : bool) :
  NoDup (collectActions db result includeStateBackend).
Proof.
  unfold collectActions.
  destruct (includeStateBackend
            || match Backend result with Some _ => true | None => false end);
    [apply fold_setAdd_NoDup|]; apply fold_contributions_NoDup;
    apply fold_contributions_NoDup; constructor.
Qed.

(** C6, as the code has it. A data source whose provider is "aws" and whose
    type is not empty contributes exactly the actions that the permissions
    database has for its type without a leading "data." and that contain
    "Describe", "Get" or "List"; each of them is in the collected set. *)
Theorem data_source_read_only_actions (db : option PermissionMap) (d : Resource) :
  Provider d = "aws" ->
  Resource_Type d <> EmptyString ->
  let candidates :=
    getRequiredPermissions db (strings.TrimPrefix (Resource_Type d) "data.") in
  dataSourceActions db d = filter isReadOnly candidates
  /\ (forall a, In a (dataSourceActions db d)
                <-> In a candidates
                    /\ (occurs "Describe" a \/ occurs "Get" a \/ occurs "List" a))
  /\ (forall result includeStateBackend a,
         In d (DataSources result) -> In a (dataSourceActions db d) ->
         In a (collectActions db result includeStateBackend)).
Proof.
  intros Hp Ht candidates.
  assert (E : dataSourceActions db d = filter isReadOnly candidates).
  { unfold dataSourceActions. rewrite Hp.
    apply String.eqb_neq in Ht. now rewrite Ht. }
  split; [exact E | split].
  - intros a. rewrite E, filter_In, isReadOnly_occurs. tauto.
  - intros result includeStateBackend a Hd Ha.
    apply collectActions_In. right. left. eauto.
Qed.

Lemma data_source_read_only_actions_witness :
  dataSourceActions (Some s3DB) s3DataSource = ["s3:GetObject"]
  /\ collectActions (Some s3DB)
       {| Resources := []; Backend := None; DataSources := [s3DataSource] |} false
     = ["s3:GetObject"].
Proof.
  split; [|reflexivity].
  apply (@data_source_read_only_actions (Some s3DB) s3DataSource);
    [reflexivity | discriminate].
Defined.

(** C6, as stated, fails for a data source with the empty type and for a
    data source of another provider: the lookup has a read-only action, and
    the data source contributes nothing. *)
Lemma data_source_guard_skips :
  filter isReadOnly
    (getRequiredPermissions (Some emptyKeyDB)
       (strings.TrimPrefix (Resource_Type untypedDataSource) "data."))
  = ["s3:GetObject"]
  /\ dataSourceActions (Some emptyKeyDB) untypedDataSource = []
  /\ collectActions (Some emptyKeyDB)
       {| Resources := []; Backend := None; DataSources := [untypedDataSource] |} false
     = []
  /\ filter isReadOnly
       (getRequiredPermissions (Some s3DB)
          (strings.TrimPrefix (Resource_Type foreignDataSource) "data."))
     = ["s3:GetObject"]
  /\ dataSourceActions (Some s3DB) foreignDataSource = [].
Proof. repeat split. Qed.

Lemma fallback_scanner_returns_untyped_data_source :
  DataSources
    (extractWithSimpleParsing strings.TrimSpaceASCII strings.FieldsASCII
       ("data " ++ quote ++ quote ++ " " ++ quoted "x" ++ " {" ++ nl ++ "  id = 1")%string)
  = [untypedDataSource].
Proof. reflexivity. Qed.

Lemma sortedActions_In (db : option PermissionMap) (ro : RangeOrder)
    (result : ParseResult) (includeStateBackend : bool) (a : string) :
  visits_each_once ro ->
  In a (sortedActions db ro result includeStateBackend)
  <-> In a (collectActions db result includeStateBackend).
Proof.
  intros [Hro _]. unfold sortedActions. split; intros H.
  - apply (Permutation_in _ (sort_Strings_Permutation _)) in H.
    now apply (Permutation_in _ (Hro _)) in H.
  - apply (Permutation_in _ (Permutation_sym (sort_Strings_Permutation _))).
    now apply (Permutation_in _ (Permutation_sym (Hro _))).
Qed.

(** The list handed to the grouping is strictly ascending, whatever the
    order of the [range] over the set of actions. *)
Lemma sortedActions_sorted (db : option PermissionMap) (ro : RangeOrder)
    (result : ParseResult) (includeStateBackend : bool) :
  visits_each_once ro ->
  StronglySorted slt (sortedActions db ro result includeStateBackend).
Proof.
  intros [Hro _]. unfold sortedActions. apply sort_Strings_sorted.
  eapply Permutation_NoDup; [symmetry; apply Hro | apply collectActions_NoDup].
Qed.

(** It depends neither on the order of the [range] nor on the order of the
    resources and data sources in the result. *)
Lemma sortedActions_order_independent (db : option PermissionMap) (ro ro' : RangeOrder)
    (result result' : ParseResult) (includeStateBackend : bool) :
  visits_each_once ro -> visits_each_once ro' ->
  Permutation (Resources result) (Resources result') ->
  Permutation (DataSources result) (DataSources result') ->
  Backend result = Backend result' ->
  sortedActions db ro result includeStateBackend
  = sortedActions db ro' result' includeStateBackend.
Proof.
  intros Hro Hro' HR HD HB.
  apply sort_Strings_unique; try now apply sortedActions_sorted.
  intros a. rewrite !sortedActions_In by assumption.
  rewrite !collectActions_In. unfold backendRequested. rewrite HB.
  assert (PR : forall r, In r (Resources result) <-> In r (Resources result'))
    by (intros r; split; apply Permutation_in; [|symmetry]; assumption).
  assert (PD : forall r, In r (DataSources result) <-> In r (DataSources result'))
    by (intros r; split; apply Permutation_in; [|symmetry]; assumption).
  split; (intros [(r & Hr & Ha)|[(d & Hd & Ha)|H]];
          [left; exists r | right; left; exists d | right; right; exact H];
          split; try assumption; now (apply PR || apply PD)).
Qed.

(** ** The grouping of the default mode *)

Lemma collectPrefixes_malformed (actions : list string) (m : ServiceMap) :
  (exists a, In a actions /\ ~ wellFormed a) -> collectPrefixes actions m = None.
Proof.
  revert m; induction actions as [|action rest IH]; intros m (a & Hin & Hbad).
  - destruct Hin.
  - simpl.
    destruct (splitAction action) as [|x [|y [|z r]]] eqn:E; try reflexivity.
    destruct Hin as [->|Hin].
    + exfalso. apply Hbad. apply wellFormed_split. eauto.
    + apply IH. eauto.
Qed.

Lemma collectPrefixes_wellFormed (actions : list string) (m : ServiceMap) :
  Forall wellFormed actions -> cleanMap m ->
  exists m', collectPrefixes actions m = Some m' /\ cleanMap m' /\
             forall s, getList m' s
                       = getList m s ++ map verbOf (filter (hasService s) actions).
Proof.
  revert m; induction actions as [|action rest IH]; intros m Hwf Hm.
  - exists m. simpl. split; [reflexivity | split; [assumption|]].
    intros s. now rewrite app_nil_r.
  - inversion Hwf as [|? ? Ha Hrest]; subst.
    apply wellFormed_split in Ha. destruct Ha as (x & y & E).
    destruct (Split_two _ _ E) as (_ & Hx & Hy).
    destruct (IH (appendTo m x y) Hrest (appendTo_clean Hx Hy Hm))
      as (m' & Hcol & Hclean & Hget).
    exists m'. simpl. rewrite E. split; [assumption | split; [assumption|]].
    intros s. rewrite Hget, appendTo_getList.
    assert (Hs : hasService s action = (x =? s)%string)
      by (unfold hasService; now rewrite E).
    assert (Hv : verbOf action = y) by (unfold verbOf; now rewrite E).
    simpl filter. rewrite Hs.
    destruct (x =? s)%string; simpl.
    + now rewrite Hv, <- app_assoc.
    + reflexivity.
Qed.

Lemma emitService_filter_entry (service k : string) (vs : list string) :
  colonFree k -> Forall colonFree vs ->
  filter (hasService service) (emitService (k, vs))
  = if (k =? service)%string then emitService (k, vs) else [].
Proof.
  intros Hk Hvs. unfold emitService.
  destruct (5 <? List.length vs)%nat.
  - pose proof (hasService_join service Hk (eq_refl : colonFree "*")) as H.
    change (k ++ ":" ++ "*")%string with (k ++ ":*")%string in H.
    cbn [filter]. rewrite H.
    destruct (k =? service)%string; reflexivity.
  - induction Hvs as [|v r Hv Hr IH]; cbn [map filter].
    + destruct (k =? service)%string; reflexivity.
    + rewrite hasService_join by assumption. rewrite IH.
      destruct (k =? service)%string; reflexivity.
Qed.

Lemma emitService_filter (service : string) (m : ServiceMap) :
  cleanMap m ->
  filter (hasService service) (flat_map emitService m)
  = emitService (service, getList m service).
Proof.
  intros [Hnd Hall]. induction m as [|[k vs] r IH].
  - reflexivity.
  - inversion Hnd as [|? ? Hnin Hr]; subst.
    inversion Hall as [|? ? [Hk Hvs] Hallr]; subst. simpl in Hk, Hvs.
    cbn [flat_map]. rewrite filter_app, emitService_filter_entry by assumption.
    rewrite (IH Hr Hallr).
    assert (Hg : getList ((k, vs) :: r) service
                 = if (k =? service)%string then vs else getList r service)
      by (unfold getList; cbn [lookup]; destruct (k =? service)%string; reflexivity).
    rewrite Hg.
    destruct (String.eqb_spec k service) as [->|Hne].
    + unfold getList. rewrite (lookup_not_key _ _ Hnin). cbn. now rewrite app_nil_r.
    + reflexivity.
Qed.

Lemma rebuild_actions (service : string) (l : list string) :
  (forall a, In a l -> hasService service a = true) ->
  map (fun actionName => (service ++ ":" ++ actionName)%string) (map verbOf l) = l.
Proof.
  induction l as [|a r IH]; intros H; cbn [map]; [reflexivity|].
  destruct (hasService_inv service a (H a (or_introl eq_refl))) as (Ha & _ & _).
  rewrite <- Ha. f_equal. apply IH. intros b Hb. apply H. now right.
Qed.

Lemma groupActionsByService_entries (ro : RangeOrder) (actions : list string)
    (service : string) :
  visits_each_once ro -> Forall wellFormed actions ->
  filter (hasService service) (groupActionsByService ro actions)
  = emitService (service, map verbOf (filter (hasService service) actions)).
Proof.
  intros [_ Hro] Hwf. unfold groupActionsByService.
  assert (Hempty : cleanMap []) by (split; constructor).
  destruct (collectPrefixes_wellFormed Hwf Hempty) as (m & Hcol & Hclean & Hget).
  rewrite Hcol.
  assert (HP : Permutation m (range_services ro m)) by (symmetry; apply Hro).
  rewrite emitService_filter by (eapply cleanMap_Permutation; eassumption).
  rewrite <- (getList_Permutation service HP (proj1 Hclean)).
  now rewrite Hget.
Qed.

Lemma groupActionsByService_malformed (ro : RangeOrder) (actions : list string) :
  (exists a, In a actions /\ ~ wellFormed a) ->
  groupActionsByService ro actions = actions.
Proof.
  intros H. unfold groupActionsByService.
  now rewrite (collectPrefixes_malformed actions [] H).
Qed.

(** C7. If some identifier of the list given to [groupActionsByService] does
    not have exactly one colon, the function returns the list it was given,
    unchanged: nothing is collapsed and nothing is reordered, whatever the
    position of the malformed identifier and whatever order a [range] would
    have taken. *)
Theorem grouping_abandoned_on_malformed (ro : RangeOrder) (actions : list string) :
  (exists a, In a actions /\ strings.Count a colon_char <> 1) ->
  groupActionsByService ro actions = actions.
Proof.
  intros (a & Hin & Hbad). unfold groupActionsByService.
  rewrite (collectPrefixes_malformed actions []); [reflexivity|].
  exists a. split; [exact Hin | exact Hbad].
Qed.

Lemma grouping_abandoned_on_malformed_witness :
  (exists a, In a sixOfS3AndOneMalformed /\ strings.Count a colon_char <> 1)
  /\ groupActionsByService reverseOrder sixOfS3AndOneMalformed = sixOfS3AndOneMalformed.
Proof.
  assert (H : exists a, In a sixOfS3AndOneMalformed /\ strings.Count a colon_char <> 1).
  { exists "sts". split; [simpl; tauto | vm_compute; discriminate]. }
  split; [exact H | exact (grouping_abandoned_on_malformed reverseOrder sixOfS3AndOneMalformed H)].
Defined.

(** C5, as the code has it. When every identifier of the list has exactly one
    colon, then for every service and whatever order the [range] over the
    services takes: the entries of the grouped list that belong to the service
    are the single entry [service:*] if the list has more than 5 actions of
    the service, and are the actions of the service themselves, in the order
    of the list, if it has 5 or fewer. (The list the synthesizer passes has no
    duplicates, so its length counts distinct actions.) *)
Theorem wildcard_threshold (ro : RangeOrder) (actions : list string) (service : string) :
  visits_each_once ro ->
  Forall wellFormed actions ->
  let mine := filter (hasService service) actions in
  let grouped := filter (hasService service) (groupActionsByService ro actions) in
  (5 < List.length mine -> grouped = [(service ++ ":*")%string])
  /\ (List.length mine <= 5 -> grouped = mine).
Proof.
  intros Hro Hwf mine grouped. subst grouped.
  rewrite (groupActionsByService_entries service Hro Hwf). fold mine.
  unfold emitService. rewrite length_map. split; intros Hlen.
  - apply Nat.ltb_lt in Hlen. now rewrite Hlen.
  - apply Nat.ltb_ge in Hlen. rewrite Hlen.
    apply rebuild_actions. intros a Ha. now apply filter_In in Ha.
Qed.

Lemma wildcard_threshold_witness :
  filter (hasService "s3") (groupActionsByService reverseOrder sixOfS3FiveOfLambda)
  = ["s3:*"]
  /\ filter (hasService "lambda") (groupActionsByService reverseOrder sixOfS3FiveOfLambda)
     = [ "lambda:CreateFunction"; "lambda:DeleteFunction"; "lambda:GetFunction";
         "lambda:InvokeFunction"; "lambda:UpdateFunctionCode" ].
Proof.
  assert (Hwf : Forall wellFormed sixOfS3FiveOfLambda)
    by (repeat constructor).
  split.
  - apply (wildcard_threshold "s3" reverseOrder_visits_each_once Hwf).
    vm_compute. lia.
  - apply (wildcard_threshold "lambda" reverseOrder_visits_each_once Hwf).
    vm_compute. lia.
Defined.

(** C5, as stated, fails on a list with a malformed identifier: the list has
    six distinct actions of the service s3, the grouping returns the list as
    it is, and the six actions are all kept. *)
Lemma malformed_batch_is_not_collapsed :
  visits_each_once insertionOrder
  /\ NoDup sixOfS3AndOneMalformed
  /\ 5 < List.length (filter (hasService "s3") sixOfS3AndOneMalformed)
  /\ groupActionsByService insertionOrder sixOfS3AndOneMalformed = sixOfS3AndOneMalformed
  /\ filter (hasService "s3") (groupActionsByService insertionOrder sixOfS3AndOneMalformed)
     <> ["s3:*"].
Proof.
  split; [exact insertionOrder_visits_each_once|].
  split; [repeat constructor; simpl; intuition discriminate|].
  split; [vm_compute; lia|].
  split; [reflexivity | vm_compute; discriminate].
Qed.

(** ** The order of the actions in the single statement *)

(** C1 on the example of the README. The list of actions is sorted before
    the grouping, but the grouping rebuilds it service by service in the
    order of a [range] over a map: when the [range] visits s3 before ec2 the
    single statement lists the actions of s3 first, and the list is not
    ascending. *)
Theorem single_statement_follows_range_order :
  visits_each_once reverseOrder
  /\ sortedActions (Some readmeDB) reverseOrder readmeResult false = ec2ThenS3
  /\ policyStatements (Some readmeDB) reverseOrder readmeResult false false
     = [singleStatement s3ThenEc2]
  /\ strictlyAscending s3ThenEc2 = false
  /\ policyStatements (Some readmeDB) insertionOrder readmeResult false false
     = [singleStatement ec2ThenS3].
Proof.
  split; [exact reverseOrder_visits_each_once|]. repeat split.
Qed.

(** C2 on the same example. Two runs on the same result and the same flags
    give different texts when the [range] over the services takes a
    different order in each: here in the Terraform format, whatever the
    JSON and YAML encoders are. The policies the two runs hand to the encoder
    differ as well. *)
Theorem output_depends_on_range_order
    (json_MarshalIndent yaml_Marshal : IAMPolicy -> Result string) :
  visits_each_once insertionOrder
  /\ visits_each_once reverseOrder
  /\ generateIAMPolicy (Some readmeDB) json_MarshalIndent yaml_Marshal
       insertionOrder readmeResult false FormatTerraform false
     <> generateIAMPolicy (Some readmeDB) json_MarshalIndent yaml_Marshal
          reverseOrder readmeResult false FormatTerraform false
  /\ policyStatements (Some readmeDB) insertionOrder readmeResult false false
     <> policyStatements (Some readmeDB) reverseOrder readmeResult false false.
Proof.
  split; [exact insertionOrder_visits_each_once|].
  split; [exact reverseOrder_visits_each_once|].
  split; vm_compute; discriminate.
Qed.

(** In the degenerate case of C7 the single statement keeps the sorted
    list, so there the list of the statement is ascending. *)
Lemma single_statement_sorted_when_abandoned (db : option PermissionMap) (ro : RangeOrder)
    (result : ParseResult) (includeStateBackend : bool) :
  visits_each_once ro ->
  (exists a, In a (collectActions db result includeStateBackend)
             /\ strings.Count a colon_char <> 1) ->
  exists actions,
    policyStatements db ro result includeStateBackend false = [singleStatement actions]
    /\ strictlyAscending actions = true.
Proof.
  intros Hro (a & Ha & Hbad).
  exists (sortedActions db ro result includeStateBackend). split.
  - unfold policyStatements. cbn [negb]. cbv zeta.
    rewrite groupActionsByService_malformed; [reflexivity|].
    exists a. split; [now apply sortedActions_In | exact Hbad].
  - apply sorted_strictlyAscending. now apply sortedActions_sorted.
Qed.

(** ** The least-privilege mode *)

Lemma groupStep_values (m : ServiceMap) (action x : string) :
  In x (flat_map snd (groupStep m action))
  <-> In x (flat_map snd m) \/ (x = action /\ wellFormed x).
Proof.
  unfold groupStep.
  destruct (splitAction action) as [|p [|q [|z r]]] eqn:E;
    try (split; [tauto | intros [H|[-> H]]; [exact H|];
         apply wellFormed_split in H; destruct H as (s & v & H); congruence]).
  rewrite appendTo_values. split.
  - intros [->|H]; [right; split; [reflexivity | apply wellFormed_split; eauto] | tauto].
  - tauto.
Qed.

Lemma fold_groupStep_values (actions : list string) (m : ServiceMap) (x : string) :
  In x (flat_map snd (fold_left groupStep actions m))
  <-> In x (flat_map snd m) \/ (In x actions /\ wellFormed x).
Proof.
  revert m; induction actions as [|a r IH]; intros m; simpl.
  - tauto.
  - rewrite IH, groupStep_values. intuition (subst; auto).
Qed.

Lemma groupActionsByServiceWithActions_values (actions : list string) (x : string) :
  In x (flat_map snd (groupActionsByServiceWithActions actions))
  <-> In x actions /\ wellFormed x.
Proof.
  unfold groupActionsByServiceWithActions.
  rewrite fold_groupStep_values. simpl. tauto.
Qed.

Lemma groupActionsByServiceWithActions_none (actions : list string) :
  (forall a, In a actions -> ~ wellFormed a) ->
  groupActionsByServiceWithActions actions = [].
Proof.
  intros H.
  destruct (groupActionsByServiceWithActions actions) as [|[k vs] r] eqn:E;
    [reflexivity|].
  exfalso.
  assert (Hkeep : forall l m, (forall a, In a l -> ~ wellFormed a) ->
                              fold_left groupStep l m = m).
  { induction l as [|a l IH]; intros m Hl; simpl; [reflexivity|].
    assert (Hstep : groupStep m a = m).
    { unfold groupStep.
      destruct (splitAction a) as [|p [|q [|z t]]] eqn:Ea; try reflexivity.
      exfalso. apply (Hl a (or_introl eq_refl)). apply wellFormed_split. eauto. }
    rewrite Hstep. apply IH. intros b Hb. apply Hl. now right. }
  unfold groupActionsByServiceWithActions in E.
  rewrite (Hkeep actions [] H) in E. discriminate.
Qed.

Lemma groupStep_groupedMap (m : ServiceMap) (action : string) :
  groupedMap m -> groupedMap (groupStep m action).
Proof.
  intros Hm. unfold groupStep.
  destruct (splitAction action) as [|x [|y [|z r]]] eqn:E; try assumption.
  apply appendTo_groupedMap; [|assumption].
  unfold hasService. rewrite E. apply String.eqb_refl.
Qed.

Lemma groupActionsByServiceWithActions_groupedMap (actions : list string) :
  groupedMap (groupActionsByServiceWithActions actions).
Proof.
  unfold groupActionsByServiceWithActions.
  assert (H : groupedMap []) by (split; constructor).
  revert H. generalize (@nil (string * list string)).
  induction actions as [|a r IH]; intros m Hm; simpl; [assumption|].
  apply IH. now apply groupStep_groupedMap.
Qed.

Lemma groupedMap_first_actions (m : ServiceMap) :
  groupedMap m -> NoDup (map firstAction (map serviceStatement m)).
Proof.
  intros [Hnd Hall]. induction m as [|[k vs] r IH]; simpl; [constructor|].
  inversion Hnd as [|? ? Hnin Hndr]; subst.
  inversion Hall as [|? ? [Hne Hvs] Hallr]; subst. simpl in Hne, Hvs.
  constructor; [|now apply IH].
  destruct vs as [|a vs']; [contradiction|]. unfold firstAction at 1. simpl.
  inversion Hvs as [|? ? Ha _]; subst.
  intros Hin. apply in_map_iff in Hin. destruct Hin as (st & Hst & Hin).
  apply in_map_iff in Hin. destruct Hin as ([k' vs2] & <- & Hin).
  rewrite Forall_forall in Hallr. destruct (Hallr _ Hin) as [Hne2 Hvs2].
  simpl in Hne2, Hvs2. unfold firstAction in Hst. simpl in Hst.
  destruct vs2 as [|a2 vs2']; [contradiction|]. simpl in Hst. subst a2.
  inversion Hvs2 as [|? ? Ha2 _]; subst.
  apply Hnin. rewrite (@hasService_functional k k' a Ha Ha2).
  apply in_map_iff. exists (k', a :: vs2'). auto.
Qed.

Lemma leastPrivilegeStatements_actions (ro : RangeOrder) (actionList : list string)
    (a : string) :
  visits_each_once ro ->
  (exists st, In st (leastPrivilegeStatements ro actionList) /\ In a (Action st))
  <-> In a actionList /\ wellFormed a.
Proof.
  intros [_ Hro]. rewrite <- groupActionsByServiceWithActions_values.
  unfold leastPrivilegeStatements. rewrite in_flat_map. split.
  - intros (st & Hst & Ha).
    apply (Permutation_in _ (sort_Slice_Permutation _)) in Hst.
    apply in_map_iff in Hst. destruct Hst as ([service vs] & <- & Hin).
    apply (Permutation_in _ (Hro _)) in Hin. exists (service, vs). auto.
  - intros ([service vs] & Hin & Ha).
    exists (serviceStatement (service, vs)).
    split; [|exact Ha].
    apply (Permutation_in _ (Permutation_sym (sort_Slice_Permutation _))).
    apply in_map_iff. exists (service, vs). split; [reflexivity|].
    apply (Permutation_in _ (Permutation_sym (Hro _))). exact Hin.
Qed.

(** C10. In least-privilege mode, whatever the orders of the [range] loops:
    an action of the collected set that does not have exactly one colon is in
    no statement of the policy; every action of the set that has exactly one
    colon is in some statement (the malformed ones do not switch the grouping
    off); and when no action of the set has exactly one colon the policy has
    no statement. *)
Theorem least_privilege_drops_malformed (db : option PermissionMap) (ro : RangeOrder)
    (result : ParseResult) (includeStateBackend : bool) :
  visits_each_once ro ->
  let actionSet := collectActions db result includeStateBackend in
  let statements := policyStatements db ro result includeStateBackend true in
  (forall a, In a actionSet -> strings.Count a colon_char <> 1 ->
             forall st, In st statements -> ~ In a (Action st))
  /\ (forall a, In a actionSet -> strings.Count a colon_char = 1 ->
                exists st, In st statements /\ In a (Action st))
  /\ ((forall a, In a actionSet -> strings.Count a colon_char <> 1) -> statements = []).
Proof.
  intros Hro actionSet statements.
  assert (Hst : statements
                = leastPrivilegeStatements ro (sortedActions db ro result includeStateBackend))
    by reflexivity.
  rewrite Hst. clear Hst statements. split; [|split].
  - intros a _ Hbad st Hin Ha.
    apply Hbad. eapply (leastPrivilegeStatements_actions _ a Hro). eauto.
  - intros a Hin Hwf. apply (leastPrivilegeStatements_actions _ a Hro).
    split; [|exact Hwf]. now apply sortedActions_In.
  - intros Hall. unfold leastPrivilegeStatements.
    rewrite groupActionsByServiceWithActions_none.
    + destruct Hro as [_ Hro]. now rewrite (Permutation_nil (Permutation_sym (Hro []))).
    + intros a Ha. apply Hall. now apply (sortedActions_In db result includeStateBackend a Hro).
Qed.

Lemma least_privilege_drops_malformed_witness :
  collectActions (Some malformedDB) customResult false = ["s3GetObject"; "iam:role:Pass"]
  /\ policyStatements (Some malformedDB) reverseOrder customResult false true = [].
Proof.
  split; [reflexivity|].
  pose proof (@least_privilege_drops_malformed (Some malformedDB) reverseOrder
                customResult false reverseOrder_visits_each_once) as H.
  cbv zeta in H. destruct H as (_ & _ & H). apply H.
  intros a Ha. vm_compute in Ha.
  destruct Ha as [<-|[<-|[]]]; vm_compute; discriminate.
Defined.

Lemma leastPrivilegeStatements_order_independent (ro ro' : RangeOrder)
    (actionList : list string) :
  visits_each_once ro -> visits_each_once ro' ->
  leastPrivilegeStatements ro actionList = leastPrivilegeStatements ro' actionList.
Proof.
  intros [_ Hro] [_ Hro']. unfold leastPrivilegeStatements.
  set (grouped := groupActionsByServiceWithActions actionList).
  pose proof (groupActionsByServiceWithActions_groupedMap actionList) as Hg.
  fold grouped in Hg.
  assert (HP : Permutation (map serviceStatement (range_services ro grouped))
                           (map serviceStatement (range_services ro' grouped))).
  { apply Permutation_map. rewrite Hro, Hro'. reflexivity. }
  apply sort_Slice_Permutation_eq; [| |exact HP].
  - eapply Permutation_NoDup; [|apply (groupedMap_first_actions Hg)].
    apply Permutation_map, Permutation_map. symmetry. apply Hro.
  - apply (Permutation_Forall (Permutation_sym (Permutation_map serviceStatement (Hro grouped)))).
    apply Forall_forall. intros st Hst. apply in_map_iff in Hst.
    destruct Hst as ([k vs] & <- & Hin). destruct Hg as [_ Hall].
    rewrite Forall_forall in Hall. exact (proj1 (Hall _ Hin)).
Qed.

(** In least-privilege mode two runs on the same result and flags give the
    same output, whatever orders the [range] loops take in each. *)
Lemma least_privilege_output_is_reproducible (db : option PermissionMap)
    (json_MarshalIndent yaml_Marshal : IAMPolicy -> Result string)
    (ro ro' : RangeOrder) (result : ParseResult)
    (includeStateBackend : bool) (format : OutputFormat) :
  visits_each_once ro -> visits_each_once ro' ->
  generateIAMPolicy db json_MarshalIndent yaml_Marshal ro result
    includeStateBackend format true
  = generateIAMPolicy db json_MarshalIndent yaml_Marshal ro' result
      includeStateBackend format true.
Proof.
  intros Hro Hro'. unfold generateIAMPolicy.
  assert (E : policyStatements db ro result includeStateBackend true
              = policyStatements db ro' result includeStateBackend true).
  { unfold policyStatements. cbn [negb]. cbv zeta.
    rewrite (@sortedActions_order_independent db ro ro' result result
               includeStateBackend Hro Hro'
               (Permutation_refl _) (Permutation_refl _) eq_refl).
    now apply leastPrivilegeStatements_order_independent. }
  now rewrite E.
Qed.

(** * Further properties *)

(** ** The permissions database *)

(** X1. Looking up the permissions of a resource type never fails: without
    a database, and for a type that is not a key, it gives no action; in a
    database with distinct keys it gives the actions of the entry of the
    type. *)
Theorem getRequiredPermissions_lookup (db : PermissionMap) (resourceType : string) :
  getRequiredPermissions None resourceType = []
  /\ (~ In resourceType (map fst db) -> getRequiredPermissions (Some db) resourceType = [])
  /\ (NoDup (map fst db) ->
      forall perms, In (resourceType, perms) db ->
                    getRequiredPermissions (Some db) resourceType = Actions perms).
Proof.
  split; [reflexivity|]. split.
  - intros Hnot. unfold getRequiredPermissions. now rewrite (lookup_not_key _ _ Hnot).
  - intros Hnd perms Hin. unfold getRequiredPermissions.
    assert (E : lookup db resourceType = Some perms).
    { induction db as [|[k v] r IH]; [destruct Hin|]. simpl.
      inversion Hnd as [|? ? Hnin Hr]; subst.
      destruct Hin as [E|Hin].
      - inversion E; subst. now rewrite String.eqb_refl.
      - destruct (String.eqb_spec k resourceType) as [->|Hne]; [|now apply IH].
        exfalso. apply Hnin. change resourceType with (fst (resourceType, perms)).
        now apply in_map. }
    now rewrite E.
Qed.

Lemma getRequiredPermissions_lookup_witness :
  getRequiredPermissions (Some readmeDB) "aws_lambda_function" = []
  /\ getRequiredPermissions (Some readmeDB) "aws_s3_bucket"
     = ["s3:CreateBucket"; "s3:DeleteBucket"; "s3:GetBucketLocation"; "s3:ListBucket"].
Proof.
  split.
  - apply (proj1 (proj2 (getRequiredPermissions_lookup readmeDB "aws_lambda_function"))).
    simpl. intuition discriminate.
  - apply (proj2 (proj2 (getRequiredPermissions_lookup readmeDB "aws_s3_bucket"))
             ltac:(repeat constructor; simpl; intuition discriminate)
             {| Actions := ["s3:CreateBucket"; "s3:DeleteBucket"; "s3:GetBucketLocation";
                            "s3:ListBucket"];
                ResourceTypes := [] |}).
    simpl. tauto.
Defined.

(** ** The blocks of a parsed file *)

Lemma Contains_byte (s : string) (c : ascii) :
  strings.Contains s (String c EmptyString) = true <-> strings.Count s c <> 0.
Proof.
  induction s as [|a t IH].
  - simpl. split; [discriminate | congruence].
  - rewrite Contains_cons. cbn [String.prefix strings.Count].
    destruct (ascii_dec c a) as [->|Hne].
    + rewrite Ascii.eqb_refl. split; [intros _; discriminate | intros _].
      now destruct t.
    + assert (E : Ascii.eqb a c = false) by (apply Ascii.eqb_neq; congruence).
      rewrite E. simpl. exact IH.
Qed.

Lemma before_no_separator (s : string) (c : ascii) :
  strings.Count (strings.before s c) c = 0.
Proof.
  induction s as [|a t IH]; simpl; [reflexivity|].
  destruct (Ascii.eqb a c) eqn:E; simpl; [reflexivity|]. now rewrite E.
Qed.

Lemma before_split (s : string) (c : ascii) :
  strings.Count s c <> 0 ->
  exists rest, s = (strings.before s c ++ String c rest)%string.
Proof.
  induction s as [|a t IH]; simpl; intros H; [congruence|].
  destruct (Ascii.eqb a c) eqn:E.
  - apply Ascii.eqb_eq in E. subst a. now exists t.
  - destruct (IH H) as (rest & Hrest). exists rest. simpl. now rewrite <- Hrest.
Qed.

(** X2. A resource block gives a resource exactly when it has two labels
    or more: the first is the type, the second the name, and the attributes
    are those of the body. The provider has no underscore: it is "aws" when
    the type starts with "aws_" or has no underscore, and otherwise it is
    the text of the type before its first underscore. *)
Theorem extractResourceFromBlock_provider (block : Block) :
  match extractResourceFromBlock block with
  | None => List.length (Labels block) < 2
  | Some r =>
      exists fullType name more,
        Labels block = fullType :: name :: more
        /\ Resource_Type r = fullType /\ ResourceType r = fullType /\ Name r = name
        /\ Attributes r = Body_Attributes block
        /\ strings.Count (Provider r) underscore_char = 0
        /\ (strings.HasPrefix fullType "aws_" = true -> Provider r = "aws")
        /\ (strings.Count fullType underscore_char = 0 -> Provider r = "aws")
        /\ (strings.HasPrefix fullType "aws_" = false ->
            strings.Count fullType underscore_char <> 0 ->
            exists rest, fullType = (Provider r ++ "_" ++ rest)%string)
  end.
Proof.
  unfold extractResourceFromBlock.
  destruct (Labels block) as [|fullType [|name more]]; simpl; try lia.
  exists fullType, name, more. repeat (split; [reflexivity|]).
  destruct (strings.HasPrefix fullType "aws_") eqn:Haws.
  - repeat split; try reflexivity; discriminate.
  - destruct (strings.Contains fullType "_") eqn:Hc.
    + apply (Contains_byte fullType underscore_char) in Hc.
      split; [apply before_no_separator|]. split; [discriminate|].
      split; [intros H; contradiction|]. intros _ _. now apply before_split.
    + assert (H0 : strings.Count fullType underscore_char = 0).
      { destruct (Nat.eq_dec (strings.Count fullType underscore_char) 0) as [E|E];
          [exact E|].
        apply (Contains_byte fullType underscore_char) in E.
        change (String underscore_char EmptyString) with "_"%string in E. congruence. }
      repeat split; try reflexivity. intros _ H. contradiction.
Qed.

Lemma extractResourceFromBlock_provider_witness :
  exists rest, "google_storage_bucket"%string = ("google" ++ "_" ++ rest)%string.
Proof.
  pose proof (extractResourceFromBlock_provider
                (mkBlock "resource" ["google_storage_bucket"; "b"] [] [])) as H.
  simpl in H.
  destruct H as (fullType & name & more & E & _ & _ & _ & _ & _ & _ & _ & H).
  inversion E; subst. apply H; [reflexivity | vm_compute; discriminate].
Defined.


Lemma fold_addBlock_contents (blocks : list Block) (result : ParseResult) :
  Resources (fold_left addBlock blocks result)
  = Resources result ++ flat_map blockResources blocks
  /\ DataSources (fold_left addBlock blocks result)
     = DataSources result ++ flat_map blockDataSources blocks
  /\ Backend (fold_left addBlock blocks result)
     = fold_left laterWins (map blockBackend blocks) (Backend result).
Proof.
  revert result; induction blocks as [|b r IH]; intros result; simpl.
  - now rewrite !app_nil_r.
  - destruct (IH (addBlock result b)) as (HR & HD & HB). rewrite HR, HD, HB.
    unfold addBlock, blockResources, blockDataSources, blockBackend, laterWins.
    destruct (Block_Type b =? "resource")%string eqn:E1.
    + apply String.eqb_eq in E1. rewrite E1. simpl.
      destruct (extractResourceFromBlock b); simpl; rewrite <- ?app_assoc; auto.
    + destruct (Block_Type b =? "data")%string eqn:E2.
      * apply String.eqb_eq in E2. rewrite E2. simpl.
        destruct (extractDataSourceFromBlock b); simpl; rewrite <- ?app_assoc; auto.
      * destruct (Block_Type b =? "terraform")%string eqn:E3; simpl; auto.
        destruct (extractBackendFromBlock b); simpl; auto.
Qed.




(** ** The walk over the directory *)

Section WalkFacts.

Variable ReadFile : string -> Result string.
Variable ParseConfig : string -> option (list Block).
Variable json_Unmarshal : string -> Result PermissionMap.
Variable TrimSpace : string -> string.
Variable Fields : string -> list string.

Local Abbreviation parseFile := (parseTerraformFile ReadFile ParseConfig TrimSpace Fields).
Local Abbreviation visitEntry := (visit ReadFile ParseConfig TrimSpace Fields).
Local Abbreviation walk := (Walk ReadFile ParseConfig TrimSpace Fields).
Local Abbreviation run :=
  (parseTerraformFiles ReadFile ParseConfig json_Unmarshal TrimSpace Fields).
Local Abbreviation resultOf := (configResult ReadFile ParseConfig TrimSpace Fields).
Local Abbreviation resourcesOf := (configResources ReadFile ParseConfig TrimSpace Fields).
Local Abbreviation dataSourcesOf :=
  (configDataSources ReadFile ParseConfig TrimSpace Fields).
Local Abbreviation backendOf := (configBackend ReadFile ParseConfig TrimSpace Fields).
Local Abbreviation scanOf := (stateScan ReadFile).
Local Abbreviation errorOf := (entryError ReadFile).

Lemma parseFile_error (filePath : string) :
  match ReadFile filePath with
  | Err io => parseFile filePath = Err io
  | Ok _ => exists fileResult, parseFile filePath = Ok fileResult
  end.
Proof.
  unfold parseTerraformFile. destruct (ReadFile filePath) as [content|io]; [|reflexivity].
  destruct (ParseConfig content); eauto.
Qed.

(** One visit, in terms of what the entry gives. *)
Lemma visit_spec (result : ParseResult) (e : WalkEntry) :
  match errorOf e with
  | Some err => visitEntry result e = (result, Some err)
  | None =>
      visitEntry result e
      = ({| Resources := Resources result ++ resourcesOf e;
            Backend := laterWins (firstWins (Backend result) (backendOf e)) (scanOf e);
            DataSources := DataSources result ++ dataSourcesOf e |}, None)
  end.
Proof.
  unfold entryError, visit, configResources, configDataSources, configBackend,
    configResult, stateScan.
  destruct (walk_err e); [reflexivity|].
  destruct (strings.HasSuffix (info_Name e) ".tf").
  - pose proof (parseFile_error (path e)) as H.
    destruct (ReadFile (path e)) as [content|io] eqn:Er.
    + destruct H as (fileResult & ->).
      destruct (isStateFileName (info_Name e)).
      * unfold extractBackendFromState. rewrite Er.
        destruct (strings.Contains content "s3" || strings.Contains content "backend");
          destruct (Backend fileResult), (Backend result); reflexivity.
      * destruct (Backend fileResult), (Backend result); reflexivity.
    + now rewrite H.
  - destruct (isStateFileName (info_Name e)).
    + destruct (extractBackendFromState ReadFile (path e)) as [[b|]|err];
        destruct result as [rs [b0|] ds]; simpl; now rewrite ?app_nil_r.
    + destruct result as [rs [b0|] ds]; simpl; now rewrite ?app_nil_r.
Qed.

Lemma walk_success (visited : list WalkEntry) (result : ParseResult) :
  Forall (fun e => errorOf e = None) visited ->
  walk visited result
  = ({| Resources := Resources result ++ flat_map resourcesOf visited;
        Backend := fold_left (fun current e =>
                                laterWins (firstWins current (backendOf e)) (scanOf e))
                     visited (Backend result);
        DataSources := DataSources result ++ flat_map dataSourcesOf visited |}, None).
Proof.
  revert result; induction visited as [|e rest IH]; intros result H; simpl.
  - rewrite !app_nil_r. now destruct result.
  - inversion H as [|? ? He Hrest]; subst.
    pose proof (visit_spec result e) as Hv. rewrite He in Hv. rewrite Hv.
    rewrite (IH _ Hrest). simpl. now rewrite <- !app_assoc.
Qed.

Lemma walk_first_error (visited : list WalkEntry) (result : ParseResult) :
  (Forall (fun e => errorOf e = None) visited)
  \/ (exists before e after err,
         visited = before ++ e :: after
         /\ Forall (fun e => errorOf e = None) before
         /\ errorOf e = Some err
         /\ walk visited result = (fst (walk before result), Some err)).
Proof.
  revert result; induction visited as [|e rest IH]; intros result; [left; constructor|].
  destruct (errorOf e) as [err|] eqn:He.
  - right. exists [], e, rest, err. repeat split; [constructor | assumption|].
    simpl. pose proof (visit_spec result e) as Hv. rewrite He in Hv. now rewrite Hv.
  - pose proof (visit_spec result e) as Hv. rewrite He in Hv.
    destruct (IH (fst (visitEntry result e))) as [Hall|(before & x & after & err & -> & Hb & Hx & Hw)].
    + left. now constructor.
    + right. exists (e :: before), x, after, err.
      repeat split; [now constructor | assumption|].
      simpl. rewrite Hv in *. simpl in *. exact Hw.
Qed.

Lemma walk_ok_iff (visited : list WalkEntry) (result : ParseResult) :
  snd (walk visited result) = None <-> Forall (fun e => errorOf e = None) visited.
Proof.
  split.
  - intros Hok.
    destruct (walk_first_error visited result)
      as [Hall|(before & e & after & err & _ & _ & _ & Hw)]; [exact Hall|].
    rewrite Hw in Hok. discriminate.
  - intros Hall. now rewrite (walk_success _ Hall).
Qed.


(** X6. A walk that ends with an error stopped at the first visited entry
    that has an error of its own; the error of the walk is the error of
    that entry, and the result is the one the entries before it gave. A
    file that does not parse, and a state file that cannot be read, are
    never among the errors. *)
Theorem walk_stops_at_first_error (visited : list WalkEntry) (result : ParseResult)
    (err : error) :
  snd (walk visited result) = Some err ->
  exists before e after,
    visited = before ++ e :: after
    /\ Forall (fun e => errorOf e = None) before
    /\ errorOf e = Some err
    /\ walk before result = (fst (walk visited result), None)
    /\ (walk_err e = Some err
        \/ exists io, strings.HasSuffix (info_Name e) ".tf" = true
                      /\ ReadFile (path e) = Err io
                      /\ err = ErrParsingFile (path e) io).
Proof.
  intros Herr.
  destruct (walk_first_error visited result)
    as [Hall|(before & e & after & err' & -> & Hb & He & Hw)].
  - rewrite (walk_success _ Hall) in Herr. discriminate.
  - rewrite Hw in Herr. simpl in Herr. inversion Herr; subst err'.
    exists before, e, after. repeat split; try assumption.
    + rewrite Hw. simpl. rewrite (walk_success _ Hb). reflexivity.
    + unfold entryError in He. destruct (walk_err e) as [w|]; [left; congruence|].
      right. destruct (strings.HasSuffix (info_Name e) ".tf"); [|discriminate].
      destruct (ReadFile (path e)) as [c|io]; [discriminate|].
      exists io. repeat split. congruence.
Qed.

Lemma firstWins_fold_some (A : Type) (l : list (option A)) (b : A) :
  fold_left firstWins l (Some b) = Some b.
Proof. induction l as [|o r IH]; simpl; [reflexivity | exact IH]. Qed.

Lemma walk_backend_without_scan (visited : list WalkEntry) (current : option BackendConfig) :
  Forall (fun e => scanOf e = None) visited ->
  fold_left (fun current e => laterWins (firstWins current (backendOf e)) (scanOf e))
    visited current
  = fold_left firstWins (map backendOf visited) current.
Proof.
  revert current; induction visited as [|e rest IH]; intros current H; simpl;
    [reflexivity|].
  inversion H as [|? ? He Hrest]; subst. rewrite He. simpl. now apply IH.
Qed.

(** X7. When no visited entry is a state file that the scan recognises, the
    backend of a walk that ends without error is the backend of the first
    configuration file, in the order of the walk, whose result has one; and
    there is no backend when no configuration file has one. *)
Theorem first_configuration_backend (visited : list WalkEntry) :
  snd (walk visited emptyResult) = None ->
  Forall (fun e => scanOf e = None) visited ->
  (forall before e after b,
      visited = before ++ e :: after ->
      Forall (fun x => backendOf x = None) before ->
      backendOf e = Some b ->
      Backend (fst (walk visited emptyResult)) = Some b)
  /\ (Forall (fun x => backendOf x = None) visited ->
      Backend (fst (walk visited emptyResult)) = None).
Proof.
  intros Hok Hscan. apply (proj1 (walk_ok_iff visited emptyResult)) in Hok.
  rewrite (walk_success _ Hok). simpl. rewrite (walk_backend_without_scan _ Hscan).
  assert (Hnone : forall l, Forall (fun x => backendOf x = None) l ->
                            fold_left firstWins (map backendOf l) None = None).
  { induction l as [|x l IH]; intros H; simpl; [reflexivity|].
    inversion H as [|? ? Hx Hl]; subst. rewrite Hx. now apply IH. }
  split.
  - intros before e after b -> Hbefore He.
    rewrite map_app, fold_left_app, (Hnone _ Hbefore). simpl. rewrite He.
    apply firstWins_fold_some.
  - exact (Hnone visited).
Qed.

End WalkFacts.


Lemma walk_stops_at_first_error_witness :
  exists before e after,
    [file "a.tf"; file "locked.tf"; file "b.tf"] = before ++ e :: after
    /\ Forall (fun e => entryError demoReadFile e = None) before
    /\ entryError demoReadFile e
       = Some (ErrParsingFile "locked.tf" (OSError "permission denied"))
    /\ demoWalk before emptyResult
       = (fst (demoWalk [file "a.tf"; file "locked.tf"; file "b.tf"] emptyResult), None)
    /\ (walk_err e = Some (ErrParsingFile "locked.tf" (OSError "permission denied"))
        \/ exists io, strings.HasSuffix (info_Name e) ".tf" = true
                      /\ demoReadFile (path e) = Err io
                      /\ ErrParsingFile "locked.tf" (OSError "permission denied")
                         = ErrParsingFile (path e) io).
Proof.
  apply (@walk_stops_at_first_error demoReadFile demoParseConfig
           strings.TrimSpaceASCII strings.FieldsASCII
           [file "a.tf"; file "locked.tf"; file "b.tf"] emptyResult).
  reflexivity.
Defined.

Lemma first_configuration_backend_witness :
  Backend (fst (demoWalk [file "broken.tf"; file "b.tf"; file "a.tf"] emptyResult))
  = Some blockBackendB.
Proof.
  apply (proj1 (@first_configuration_backend demoReadFile demoParseConfig
                  strings.TrimSpaceASCII strings.FieldsASCII
                  [file "broken.tf"; file "b.tf"; file "a.tf"]
                  eq_refl ltac:(repeat constructor))
           [file "broken.tf"] (file "b.tf") [file "a.tf"] blockBackendB);
    [reflexivity | repeat constructor | reflexivity].
Defined.

(** ** What every run gives *)

Section RunFacts.

Variable ReadFile : string -> Result string.
Variable ParseConfig : string -> option (list Block).
Variable json_Unmarshal : string -> Result PermissionMap.
Variable TrimSpace : string -> string.
Variable Fields : string -> list string.

Local Abbreviation parseFile := (parseTerraformFile ReadFile ParseConfig TrimSpace Fields).
Local Abbreviation visitEntry := (visit ReadFile ParseConfig TrimSpace Fields).
Local Abbreviation walk := (Walk ReadFile ParseConfig TrimSpace Fields).
Local Abbreviation run :=
  (parseTerraformFiles ReadFile ParseConfig json_Unmarshal TrimSpace Fields).

Lemma extractResourceFromBlock_extracted (block : Block) (r : Resource) :
  extractResourceFromBlock block = Some r -> extractedResource r.
Proof.
  unfold extractResourceFromBlock.
  destruct (Labels block) as [|fullType [|name more]]; try discriminate.
  intros H. inversion H; subst. split; [reflexivity|]. simpl.
  destruct (strings.HasPrefix fullType "aws_"); [reflexivity|].
  destruct (strings.Contains fullType "_"); [apply before_no_separator | reflexivity].
Qed.

Lemma extractBlocks_extracted (blocks : list Block) : extractedResult (extractBlocks blocks).
Proof.
  unfold extractBlocks.
  destruct (fold_addBlock_contents blocks emptyResult) as (HR & HD & _).
  split; [rewrite HR | rewrite HD]; apply Forall_forall; intros r Hr;
    apply in_flat_map in Hr; destruct Hr as (b & _ & Hr).
  - unfold blockResources in Hr.
    destruct (Block_Type b =? "resource")%string; [|destruct Hr].
    destruct (extractResourceFromBlock b) as [r'|] eqn:E; [|destruct Hr].
    destruct Hr as [<-|[]]. exact (extractResourceFromBlock_extracted _ E).
  - unfold blockDataSources, extractDataSourceFromBlock in Hr.
    destruct (Block_Type b =? "data")%string; [|destruct Hr].
    destruct (Labels b) as [|t [|n more]]; [destruct Hr | destruct Hr |].
    destruct Hr as [<-|[]]. simpl.
    repeat split. now destruct (strings.HasPrefix t "aws_").
Qed.

Lemma scanDeclaration_extracted (st : ScanState) (blockKind trimmed : string)
    (add : ParseResult -> Resource -> ParseResult) :
  (forall result r, extractedResult result ->
                    extractedResource r -> extractedDataSource r ->
                    extractedResult (add result r)) ->
  extractedResult (scan_result st) ->
  extractedResult (scan_result (scanDeclaration Fields st blockKind trimmed add)).
Proof.
  intros Hadd Hst. unfold scanDeclaration.
  destruct (Fields trimmed) as [|p0 [|p1 rest]]; simpl; try assumption.
  apply Hadd; [assumption| |]; repeat split; simpl;
    now destruct (strings.HasPrefix (strings.Trim p1 quote) "aws_").
Qed.

Lemma scanLine_extracted (st : ScanState) (line : string) :
  extractedResult (scan_result st) ->
  extractedResult (scan_result (scanLine TrimSpace Fields st line)).
Proof.
  intros Hst. unfold scanLine.
  set (trimmed := TrimSpace line).
  destruct (strings.HasPrefix trimmed "#" || strings.HasPrefix trimmed "//"
            || (trimmed =? EmptyString)%string); [assumption|].
  set (st1 := if strings.HasPrefix trimmed ("resource " ++ quote)%string
              then scanDeclaration Fields st "resource" trimmed addResource
              else if strings.HasPrefix trimmed ("data " ++ quote)%string
                   then scanDeclaration Fields st "data" trimmed addDataSource
                   else st).
  assert (H1 : extractedResult (scan_result st1)).
  { subst st1.
    destruct (strings.HasPrefix trimmed ("resource " ++ quote)%string).
    - apply scanDeclaration_extracted; [|assumption].
      intros result r [HR HD] Hr _. split; simpl; [|assumption].
      apply Forall_app. split; [assumption | now constructor].
    - destruct (strings.HasPrefix trimmed ("data " ++ quote)%string); [|assumption].
      apply scanDeclaration_extracted; [|assumption].
      intros result r [HR HD] _ Hd. split; simpl; [assumption|].
      apply Forall_app. split; [assumption | now constructor]. }
  clearbody st1.
  destruct (strings.Contains trimmed ("backend " ++ quote)%string
            && (currentBlock st1 =? "terraform")%string);
    [destruct (Fields trimmed) as [|p0 [|p1 rest]]|];
    destruct (strings.HasPrefix trimmed "terraform");
    destruct (trimmed =? "}")%string; simpl; assumption.
Qed.

Lemma parseFile_extracted (filePath : string) (fileResult : ParseResult) :
  parseFile filePath = Ok fileResult -> extractedResult fileResult.
Proof.
  unfold parseTerraformFile. destruct (ReadFile filePath) as [content|]; [|discriminate].
  destruct (ParseConfig content) as [blocks|]; intros H; inversion H; subst.
  - apply extractBlocks_extracted.
  - unfold extractWithSimpleParsing.
    generalize (strings.Split content newline_char).
    assert (H0 : extractedResult
                   (scan_result {| scan_result := emptyResult;
                                   currentBlock := EmptyString;
                                   currentName := EmptyString |}))
      by (split; constructor).
    revert H0.
    generalize {| scan_result := emptyResult; currentBlock := EmptyString;
                  currentName := EmptyString |}.
    intros st Hst lines. revert st Hst.
    induction lines as [|line rest IH]; intros st Hst; simpl; [assumption|].
    apply IH. now apply scanLine_extracted.
Qed.

Lemma walk_extracted (visited : list WalkEntry) (result : ParseResult) :
  extractedResult result -> extractedResult (fst (walk visited result)).
Proof.
  revert result; induction visited as [|e rest IH]; intros result Hres; simpl;
    [assumption|].
  assert (Hv : extractedResult (fst (visitEntry result e))).
  { unfold visit. destruct (walk_err e); [assumption|].
    destruct (strings.HasSuffix (info_Name e) ".tf").
    - destruct (parseFile (path e)) as [fileResult|err] eqn:Ef; [|assumption].
      destruct (parseFile_extracted _ Ef) as [HR HD]. destruct Hres as [HR0 HD0].
      destruct (isStateFileName (info_Name e));
        [destruct (extractBackendFromState ReadFile (path e)) as [[b|]|err]|];
        (split; simpl; apply Forall_app; split; assumption).
    - destruct (isStateFileName (info_Name e));
        [destruct (extractBackendFromState ReadFile (path e)) as [[b|]|err]|];
        assumption. }
  destruct (visitEntry result e) as [r1 [err|]]; [exact Hv | now apply IH].
Qed.

(** X8. Whatever the directory holds, and also when the run stops on an
    error, the result of a run has only resources whose provider has no
    underscore, and only data sources with provider "aws" and without
    attributes; for both, the second type field repeats the first. So the
    synthesizer's test on the provider never sets a data source of a run
    aside: a data source with a non-empty type contributes the read-only
    actions of its type. *)
Theorem run_gives_extracted_result (permissionsDB : option PermissionMap)
    (visited : list WalkEntry) :
  match snd (run permissionsDB visited) with
  | (Some result, _) =>
      Forall extractedResource (Resources result)
      /\ Forall (fun d =>
                   extractedDataSource d
                   /\ forall db,
                        dataSourceActions db d
                        = if (Resource_Type d =? EmptyString)%string then []
                          else filter isReadOnly
                                 (getRequiredPermissions db
                                    (strings.TrimPrefix (Resource_Type d) "data.")))
           (DataSources result)
  | (None, err) => err <> None
  end.
Proof.
  unfold parseTerraformFiles.
  destruct (match permissionsDB with
            | Some _ => (permissionsDB, None)
            | None => loadPermissionsDB ReadFile json_Unmarshal permissionsDB
            end) as [db [err|]]; simpl; [discriminate|].
  assert (H : extractedResult (fst (walk visited emptyResult)))
    by (apply walk_extracted; split; constructor).
  destruct (walk visited emptyResult) as [result werr]. simpl in *.
  destruct H as [HR HD]. split; [exact HR|].
  eapply Forall_impl; [|exact HD]. intros d Hd. split; [exact Hd|].
  destruct Hd as (_ & Hp & _). intros db'. unfold dataSourceActions. rewrite Hp. simpl.
  now destruct (Resource_Type d =? EmptyString)%string.
Qed.


End RunFacts.


(** ** The line scanner *)

Lemma Split_app (x y : string) (c : ascii) :
  strings.Split (x ++ String c y) c = strings.Split x c ++ strings.Split y c.
Proof.
  induction x as [|a x IH]; simpl.
  - now rewrite Ascii.eqb_refl.
  - destruct (Ascii.eqb a c); [now rewrite IH|].
    rewrite IH. destruct (strings.Split x c) as [|h r] eqn:E; [|reflexivity].
    now apply Split_not_nil in E.
Qed.

Section ScannerFacts.

Variable TrimSpace : string -> string.
Variable Fields : string -> list string.

Local Abbreviation scan := (scanLine TrimSpace Fields).
Local Abbreviation scanner := (extractWithSimpleParsing TrimSpace Fields).

Lemma scanner_fold (content : string) :
  scanner content
  = scan_result (fold_left scan (strings.Split content newline_char) initialScan).
Proof. reflexivity. Qed.

(** X10. The line scanner does not see comments and blank lines: a line
    whose trimmed text is empty or starts with "#" or "//", put between two
    lines of a file, leaves the result of the file as it is. *)
Theorem scanner_ignores_comments (before comment after : string) :
  strings.Count comment newline_char = 0 ->
  skippedLine (TrimSpace comment) = true ->
  scanner (before ++ nl ++ comment ++ nl ++ after) = scanner (before ++ nl ++ after).
Proof.
  intros Hline Hskip. rewrite !scanner_fold.
  change (before ++ nl ++ comment ++ nl ++ after)%string
    with (before ++ String newline_char (comment ++ String newline_char after))%string.
  change (before ++ nl ++ after)%string
    with (before ++ String newline_char after)%string.
  rewrite !Split_app, (Split_none _ _ Hline), !fold_left_app. simpl.
  assert (E : forall st, scan st comment = st).
  { intros st. unfold scanLine. unfold skippedLine in Hskip. now rewrite Hskip. }
  now rewrite E.
Qed.

(** X11. The line scanner reports a backend only after a line that starts,
    once trimmed, with "terraform": on a file without such a line it gives
    no backend, whatever backend lines the file has. *)
Theorem scanner_backend_needs_terraform_line (content : string) :
  Forall (fun line => strings.HasPrefix (TrimSpace line) "terraform" = false)
         (strings.Split content newline_char) ->
  Backend (scanner content) = None.
Proof.
  rewrite scanner_fold.
  assert (H0 : Backend (scan_result initialScan) = None
               /\ currentBlock initialScan <> "terraform"%string)
    by (split; [reflexivity | discriminate]).
  revert H0. generalize initialScan. generalize (strings.Split content newline_char).
  induction l as [|line rest IH]; intros st [Hb Hc] Hall; simpl; [assumption|].
  inversion Hall as [|? ? Hline Hrest]; subst.
  apply IH; [|assumption]. clear IH Hall Hrest.
  unfold scanLine. set (trimmed := TrimSpace line) in *.
  destruct (strings.HasPrefix trimmed "#" || strings.HasPrefix trimmed "//"
            || (trimmed =? EmptyString)%string); [now split|].
  set (st1 := if strings.HasPrefix trimmed ("resource " ++ quote)%string
              then scanDeclaration Fields st "resource" trimmed addResource
              else if strings.HasPrefix trimmed ("data " ++ quote)%string
                   then scanDeclaration Fields st "data" trimmed addDataSource
                   else st).
  assert (H1 : Backend (scan_result st1) = None
               /\ currentBlock st1 <> "terraform"%string).
  { subst st1. unfold scanDeclaration.
    destruct (strings.HasPrefix trimmed ("resource " ++ quote)%string);
      [|destruct (strings.HasPrefix trimmed ("data " ++ quote)%string)];
      try (destruct (Fields trimmed) as [|p0 [|p1 more]]); simpl;
      (split; [assumption | discriminate || assumption]). }
  clearbody st1. destruct H1 as [Hb1 Hc1].
  apply String.eqb_neq in Hc1. rewrite Hc1, andb_false_r, Hline.
  apply String.eqb_neq in Hc1.
  destruct (trimmed =? "}")%string; simpl; split;
    try assumption; discriminate.
Qed.

End ScannerFacts.

Lemma scanner_ignores_comments_witness :
  extractWithSimpleParsing strings.TrimSpaceASCII strings.FieldsASCII
    (contentBroken ++ nl ++ "  # resource of the old project" ++ nl ++ contentB)
  = extractWithSimpleParsing strings.TrimSpaceASCII strings.FieldsASCII
      (contentBroken ++ nl ++ contentB).
Proof.
  apply (@scanner_ignores_comments strings.TrimSpaceASCII strings.FieldsASCII);
    reflexivity.
Defined.

Lemma scanner_backend_needs_terraform_line_witness :
  Backend (extractWithSimpleParsing strings.TrimSpaceASCII strings.FieldsASCII
             ("backend " ++ quoted "s3" ++ " {" ++ nl ++ "}")%string) = None.
Proof.
  apply (@scanner_backend_needs_terraform_line strings.TrimSpaceASCII strings.FieldsASCII).
  repeat constructor.
Defined.

(** ** The set of actions of a policy *)

(** X12. The collected set has no duplicate, and it holds exactly: the
    actions of the permissions database for the type of a resource with
    provider "aws" and a non-empty type; the read-only ones among the
    actions for the type, without a leading "data.", of such a data source;
    and the eight backend actions when the flag is set or a backend was
    detected. A type that is not in the database adds nothing. *)
Theorem collected_actions_are_the_union (db : option PermissionMap)
    (result : ParseResult) (includeStateBackend : bool) (a : string) :
  NoDup (collectActions db result includeStateBackend)
  /\ (In a (collectActions db result includeStateBackend)
      <-> (exists r, In r (Resources result)
                     /\ Provider r = "aws" /\ Resource_Type r <> EmptyString
                     /\ In a (getRequiredPermissions db (Resource_Type r)))
          \/ (exists d, In d (DataSources result)
                        /\ Provider d = "aws" /\ Resource_Type d <> EmptyString
                        /\ In a (getRequiredPermissions db
                                   (strings.TrimPrefix (Resource_Type d) "data."))
                        /\ isReadOnly a = true)
          \/ ((includeStateBackend = true \/ Backend result <> None)
              /\ In a backendActions)).
Proof.
  split; [apply collectActions_NoDup|].
  rewrite collectActions_In.
  assert (Hguard : forall r : Resource,
             (Provider r =? "aws")%string
             && negb (Resource_Type r =? EmptyString)%string = true
             <-> Provider r = "aws" /\ Resource_Type r <> EmptyString).
  { intros r. rewrite andb_true_iff, negb_true_iff, String.eqb_eq, String.eqb_neq.
    tauto. }
  assert (HR : forall r, In a (resourceActions db r)
                         <-> Provider r = "aws" /\ Resource_Type r <> EmptyString
                             /\ In a (getRequiredPermissions db (Resource_Type r))).
  { intros r. unfold resourceActions. rewrite <- and_assoc, <- Hguard.
    destruct ((Provider r =? "aws")%string
              && negb (Resource_Type r =? EmptyString)%string); simpl;
      intuition discriminate. }
  assert (HD : forall d, In a (dataSourceActions db d)
                         <-> Provider d = "aws" /\ Resource_Type d <> EmptyString
                             /\ In a (getRequiredPermissions db
                                        (strings.TrimPrefix (Resource_Type d) "data."))
                             /\ isReadOnly a = true).
  { intros d. unfold dataSourceActions. rewrite <- and_assoc, <- Hguard.
    destruct ((Provider d =? "aws")%string
              && negb (Resource_Type d =? EmptyString)%string); simpl.
    - rewrite filter_In. tauto.
    - intuition discriminate. }
  assert (HB : backendRequested result includeStateBackend = true
               <-> includeStateBackend = true \/ Backend result <> None).
  { unfold backendRequested. destruct includeStateBackend, (Backend result); simpl;
      split; intros H; try tauto; try discriminate;
      try (right; discriminate); destruct H as [H|H]; congruence. }
  rewrite HB. split.
  - intros [(r & Hr & Ha)|[(d & Hd & Ha)|H]].
    + left. exists r. split; [exact Hr | now apply HR].
    + right; left. exists d. split; [exact Hd | now apply HD].
    + right; right. exact H.
  - intros [(r & Hr & Ha)|[(d & Hd & Ha)|H]].
    + left. exists r. split; [exact Hr | now apply HR].
    + right; left. exists d. split; [exact Hd | now apply HD].
    + right; right. exact H.
Qed.

(** X13. The list of actions that goes into the grouping is a strictly
    ascending list of the collected set, whatever order the [range] over
    the set takes; and it is the same list for two results that have the
    same resources and data sources in another order and the same
    backend. *)
Theorem action_list_is_the_sorted_set (db : option PermissionMap) (ro : RangeOrder)
    (result : ParseResult) (includeStateBackend : bool) :
  visits_each_once ro ->
  StronglySorted slt (sortedActions db ro result includeStateBackend)
  /\ (forall a, In a (sortedActions db ro result includeStateBackend)
                <-> In a (collectActions db result includeStateBackend))
  /\ (forall ro' result',
         visits_each_once ro' ->
         Permutation (Resources result) (Resources result') ->
         Permutation (DataSources result) (DataSources result') ->
         Backend result = Backend result' ->
         sortedActions db ro result includeStateBackend
         = sortedActions db ro' result' includeStateBackend).
Proof.
  intros Hro. split; [now apply sortedActions_sorted|]. split.
  - intros a. now apply sortedActions_In.
  - intros ro' result' Hro' HR HD HB. now apply sortedActions_order_independent.
Qed.

Lemma action_list_is_the_sorted_set_witness :
  sortedActions (Some readmeDB) reverseOrder readmeResult false
  = sortedActions (Some readmeDB) insertionOrder
      {| Resources := rev (Resources readmeResult); Backend := None; DataSources := [] |}
      false.
Proof.
  apply (proj2 (proj2 (@action_list_is_the_sorted_set (Some readmeDB) reverseOrder
                         readmeResult false reverseOrder_visits_each_once))).
  - exact insertionOrder_visits_each_once.
  - apply Permutation_rev.
  - reflexivity.
  - reflexivity.
Defined.

(** ** The grouping of the default mode, as a whole *)

Lemma collectPrefixes_some (actions : list string) (m m' : ServiceMap) :
  collectPrefixes actions m = Some m' -> Forall wellFormed actions.
Proof.
  revert m; induction actions as [|a r IH]; intros m H; [constructor|].
  simpl in H. destruct (splitAction a) as [|x [|y [|z t]]] eqn:E; try discriminate.
  constructor; [apply wellFormed_split; eauto | eapply IH; eassumption].
Qed.

Lemma appendTo_count (m : ServiceMap) (k v : string) :
  List.length (flat_map snd (appendTo m k v)) = S (List.length (flat_map snd m)).
Proof.
  induction m as [|[k0 vs] r IH]; simpl; [reflexivity|].
  destruct (k0 =? k)%string; cbn [flat_map snd]; rewrite !length_app.
  - cbn [List.length]. now rewrite Nat.add_1_r.
  - now rewrite IH, Nat.add_succ_r.
Qed.

Lemma collectPrefixes_count (actions : list string) (m m' : ServiceMap) :
  collectPrefixes actions m = Some m' ->
  List.length (flat_map snd m') = List.length (flat_map snd m) + List.length actions.
Proof.
  revert m; induction actions as [|a r IH]; intros m H; simpl in *.
  - inversion H. lia.
  - destruct (splitAction a) as [|x [|y [|z t]]]; try discriminate.
    rewrite (IH _ H), appendTo_count. lia.
Qed.

Lemma emitService_length (m : ServiceMap) :
  List.length (flat_map emitService m) <= List.length (flat_map snd m).
Proof.
  induction m as [|[k vs] r IH]; cbn [flat_map snd]; [simpl; lia|].
  rewrite !length_app.
  assert (L : List.length (emitService (k, vs)) <= List.length vs).
  { unfold emitService. destruct (5 <? List.length vs)%nat eqn:E.
    - apply Nat.ltb_lt in E. simpl. lia.
    - now rewrite length_map. }
  lia.
Qed.

Lemma hasService_wildcard (service k : string) :
  colonFree k -> hasService service (k ++ ":*") = (k =? service)%string.
Proof.
  intros Hk. exact (hasService_join service Hk (eq_refl : colonFree "*")).
Qed.

Lemma grouped_entry_service (ro : RangeOrder) (actions : list string) (x : string) :
  visits_each_once ro -> Forall wellFormed actions ->
  In x (groupActionsByService ro actions) ->
  exists service, hasService service x = true.
Proof.
  intros [_ Hro] Hwf Hx. unfold groupActionsByService in Hx.
  assert (Hempty : cleanMap []) by (split; constructor).
  destruct (collectPrefixes_wellFormed Hwf Hempty) as (m & Hcol & Hclean & _).
  rewrite Hcol in Hx. apply in_flat_map in Hx. destruct Hx as ([k vs] & Hin & Hx).
  apply (Permutation_in _ (Hro m)) in Hin.
  destruct Hclean as [_ Hall]. rewrite Forall_forall in Hall.
  destruct (Hall _ Hin) as [Hk Hvs]. simpl in Hk, Hvs.
  exists k. unfold emitService in Hx.
  destruct (5 <? List.length vs)%nat.
  - destruct Hx as [<-|[]].
    rewrite hasService_wildcard by assumption. apply String.eqb_refl.
  - apply in_map_iff in Hx. destruct Hx as (v & <- & Hv).
    rewrite Forall_forall in Hvs. rewrite hasService_join; auto using String.eqb_refl.
Qed.

Lemma groupActionsByService_filter (ro : RangeOrder) (actions : list string)
    (service : string) :
  visits_each_once ro -> Forall wellFormed actions ->
  let mine := filter (hasService service) actions in
  filter (hasService service) (groupActionsByService ro actions)
  = if (5 <? List.length mine)%nat then [(service ++ ":*")%string] else mine.
Proof.
  intros Hro Hwf mine.
  rewrite (groupActionsByService_entries service Hro Hwf). fold mine.
  unfold emitService. rewrite length_map.
  destruct (5 <? List.length mine)%nat; [reflexivity|].
  apply rebuild_actions. intros b Hb. now apply filter_In in Hb.
Qed.

Lemma groupActionsByService_grants (ro : RangeOrder) (actions : list string) (a : string) :
  visits_each_once ro -> In a actions -> grants (groupActionsByService ro actions) a.
Proof.
  intros Hro Ha.
  destruct (collectPrefixes actions []) as [m|] eqn:Hcol;
    [|left; unfold groupActionsByService; now rewrite Hcol].
  pose proof (collectPrefixes_some _ _ Hcol) as Hwf.
  pose proof Hwf as Hwf'. rewrite Forall_forall in Hwf'.
  destruct (proj1 (wellFormed_split a) (Hwf' a Ha)) as (service & verb & E).
  assert (Hs : hasService service a = true)
    by (unfold hasService; rewrite E; apply String.eqb_refl).
  pose proof (@groupActionsByService_filter ro actions service Hro Hwf) as Hf.
  cbv zeta in Hf.
  destruct (5 <? List.length (filter (hasService service) actions))%nat.
  - right. exists service. split; [exact Hs|].
    eapply (proj1 (filter_In (hasService service) _ _)). rewrite Hf. now left.
  - left. eapply (proj1 (filter_In (hasService service) _ _)). rewrite Hf.
    apply filter_In. auto.
Qed.

(** X14. The grouping of the default mode loses no permission and invents
    none, whatever order the [range] takes: every action of the list it is
    given is granted by the list it returns (listed, or covered by the
    wildcard of its service); every entry it returns is an action it was
    given, or the wildcard of a service with more than 5 actions in the
    list; and the list it returns is not longer than the list it was
    given. *)
Theorem grouping_keeps_every_permission (ro : RangeOrder) (actions : list string) :
  visits_each_once ro ->
  (forall a, In a actions -> grants (groupActionsByService ro actions) a)
  /\ (forall x, In x (groupActionsByService ro actions) ->
                In x actions
                \/ exists service,
                     x = (service ++ ":*")%string
                     /\ 5 < List.length (filter (hasService service) actions))
  /\ List.length (groupActionsByService ro actions) <= List.length actions.
Proof.
  intros Hro. split; [intros a Ha; now apply groupActionsByService_grants|].
  destruct (collectPrefixes actions []) as [m|] eqn:Hcol.
  - pose proof (collectPrefixes_some _ _ Hcol) as Hwf. split.
    + intros x Hx.
      destruct (@grouped_entry_service ro actions x Hro Hwf Hx) as (service & Hs).
      assert (Hf : In x (filter (hasService service) (groupActionsByService ro actions)))
        by (apply filter_In; auto).
      rewrite (@groupActionsByService_filter ro actions service Hro Hwf) in Hf.
      destruct (5 <? List.length (filter (hasService service) actions))%nat eqn:E.
      * right. exists service. apply Nat.ltb_lt in E. destruct Hf as [<-|[]]. auto.
      * left. now apply filter_In in Hf.
    + unfold groupActionsByService. rewrite Hcol.
      destruct Hro as [_ Hro].
      rewrite (Permutation_length (Permutation_flat_map emitService (Hro m))).
      pose proof (emitService_length m) as L.
      rewrite (collectPrefixes_count _ _ Hcol) in L. simpl in L. exact L.
  - unfold groupActionsByService. rewrite Hcol.
    split; [intros x Hx; now left | lia].
Qed.

Lemma grouping_keeps_every_permission_witness :
  grants (groupActionsByService reverseOrder sixOfS3FiveOfLambda) "s3:GetObject"
  /\ List.length (groupActionsByService reverseOrder sixOfS3FiveOfLambda) <= 11.
Proof.
  destruct (@grouping_keeps_every_permission reverseOrder sixOfS3FiveOfLambda
              reverseOrder_visits_each_once) as (Hgrants & _ & Hlen).
  split; [apply Hgrants; simpl; tauto | exact Hlen].
Defined.

(** X15. The single statement of the default mode grants every collected
    action: it lists the action, or lists the wildcard of its service. In
    particular, when the flag is set or a backend was detected (the flag is
    not needed then), it grants the eight backend actions. *)
Theorem default_policy_grants_every_action (db : option PermissionMap) (ro : RangeOrder)
    (result : ParseResult) (includeStateBackend : bool) :
  visits_each_once ro ->
  exists entries,
    policyStatements db ro result includeStateBackend false = [singleStatement entries]
    /\ (forall a, In a (collectActions db result includeStateBackend) -> grants entries a)
    /\ (includeStateBackend = true \/ Backend result <> None ->
        forall a, In a backendActions -> grants entries a).
Proof.
  intros Hro.
  exists (groupActionsByService ro (sortedActions db ro result includeStateBackend)).
  split; [reflexivity|].
  assert (Hall : forall a, In a (collectActions db result includeStateBackend) ->
                           grants (groupActionsByService ro
                                     (sortedActions db ro result includeStateBackend)) a).
  { intros a Ha.
    apply groupActionsByService_grants; [exact Hro|].
    now apply sortedActions_In. }
  split; [exact Hall|].
  intros Hreq a Ha. apply Hall.
  apply collectActions_In. right; right. split; [|exact Ha].
  unfold backendRequested. destruct Hreq as [->|Hb]; [reflexivity|].
  destruct (Backend result); [apply orb_true_r | congruence].
Qed.

Lemma default_policy_grants_every_action_witness :
  exists entries,
    policyStatements (Some readmeDB) reverseOrder resultA false false
    = [singleStatement entries]
    /\ grants entries "dynamodb:PutItem".
Proof.
  destruct (@default_policy_grants_every_action (Some readmeDB) reverseOrder resultA false
              reverseOrder_visits_each_once) as (entries & Hst & _ & Hbackend).
  exists entries. split; [exact Hst|].
  apply Hbackend; [right; discriminate | simpl; tauto].
Defined.

(** ** The statements of the least-privilege mode *)

Lemma lookup_Some_In {V : Type} (m : list (string * V)) (k : string) (v : V) :
  lookup m k = Some v -> In (k, v) m.
Proof.
  induction m as [|[k0 v0] r IH]; simpl; [discriminate|].
  destruct (String.eqb_spec k0 k) as [->|Hne]; intros H.
  - inversion H. now left.
  - right. now apply IH.
Qed.

Lemma lookup_In_NoDup {V : Type} (m : list (string * V)) (k : string) (v : V) :
  NoDup (map fst m) -> In (k, v) m -> lookup m k = Some v.
Proof.
  induction m as [|[k0 v0] r IH]; simpl; intros Hnd Hin; [destruct Hin|].
  inversion Hnd as [|? ? Hnin Hr]; subst.
  destruct Hin as [E|Hin].
  - inversion E; subst. now rewrite String.eqb_refl.
  - destruct (String.eqb_spec k0 k) as [->|Hne]; [|now apply IH].
    exfalso. apply Hnin. change k with (fst (k, v)). now apply in_map.
Qed.

Lemma fold_groupStep_getList (actions : list string) (m : ServiceMap) (service : string) :
  getList (fold_left groupStep actions m) service
  = getList m service ++ filter (hasService service) actions.
Proof.
  revert m; induction actions as [|a r IH]; intros m; simpl;
    [now rewrite app_nil_r|].
  rewrite IH. unfold groupStep, hasService.
  destruct (splitAction a) as [|x [|y [|z t]]]; try reflexivity.
  rewrite appendTo_getList.
  destruct (x =? service)%string; [now rewrite <- app_assoc | reflexivity].
Qed.

Lemma grouped_entries (actionList : list string) (service : string) (vs : list string) :
  In (service, vs) (groupActionsByServiceWithActions actionList)
  <-> vs = filter (hasService service) actionList /\ vs <> [].
Proof.
  pose proof (groupActionsByServiceWithActions_groupedMap actionList) as [Hnd Hall].
  pose proof (fold_groupStep_getList actionList [] service) as Hget.
  fold (groupActionsByServiceWithActions actionList) in Hget. simpl in Hget.
  unfold getList in Hget. split.
  - intros Hin. rewrite (lookup_In_NoDup _ _ _ Hnd Hin) in Hget.
    split; [exact Hget|]. rewrite Forall_forall in Hall. exact (proj1 (Hall _ Hin)).
  - intros [-> Hne].
    destruct (lookup (groupActionsByServiceWithActions actionList) service) as [vs|] eqn:E.
    + rewrite <- Hget. now apply lookup_Some_In.
    + congruence.
Qed.

Lemma lessStatement_before (x y : IAMStatement) :
  Action x <> [] -> Action y <> [] ->
  lessStatement x y = true -> statementBefore x y.
Proof.
  unfold lessStatement, statementBefore, firstAction.
  destruct (Action x); [contradiction|]. destruct (Action y); [contradiction|].
  simpl. auto.
Qed.

Lemma lessStatement_after (x y : IAMStatement) :
  Action x <> [] -> Action y <> [] -> firstAction x <> firstAction y ->
  lessStatement x y = false -> statementBefore y x.
Proof.
  unfold lessStatement, statementBefore, firstAction.
  destruct (Action x); [contradiction|]. destruct (Action y); [contradiction|].
  simpl. intros _ _ Hne H. now apply ltb_false_slt.
Qed.

Lemma sort_Slice_sorted (l : list IAMStatement) :
  NoDup (map firstAction l) ->
  Forall (fun st => Action st <> []) l ->
  StronglySorted statementBefore (sort_Slice l).
Proof.
  intros Hfirst Hne.
  apply (@sortBy_sorted IAMStatement statementBefore lessStatement
           (fun st => Action st <> [] /\ In st l)).
  - intros x y z. apply slt_trans.
  - intros x y [Hx _] [Hy _] _. now apply lessStatement_before.
  - intros x y [Hx Hxl] [Hy Hyl] Hxy. apply lessStatement_after; try assumption.
    intros E. apply Hxy. eapply NoDup_map_injective; eassumption.
  - eapply NoDup_map_inv; eassumption.
  - rewrite Forall_forall in *. auto.
Qed.

Lemma leastPrivilegeStatements_In (ro : RangeOrder) (actionList : list string)
    (st : IAMStatement) :
  (forall m, Permutation (range_services ro m) m) ->
  In st (leastPrivilegeStatements ro actionList)
  <-> exists service,
        filter (hasService service) actionList <> []
        /\ st = statementFor actionList service.
Proof.
  intros Hro. unfold leastPrivilegeStatements.
  set (grouped := groupActionsByServiceWithActions actionList). split.
  - intros Hst. apply (Permutation_in _ (sort_Slice_Permutation _)) in Hst.
    apply in_map_iff in Hst. destruct Hst as ([k vs] & <- & Hin).
    apply (Permutation_in _ (Hro grouped)) in Hin.
    apply grouped_entries in Hin. destruct Hin as [-> Hne].
    exists k. split; [exact Hne | reflexivity].
  - intros (service & Hne & ->).
    apply (Permutation_in _ (Permutation_sym (sort_Slice_Permutation _))).
    apply in_map_iff. exists (service, filter (hasService service) actionList).
    split; [reflexivity|].
    apply (Permutation_in _ (Permutation_sym (Hro grouped))).
    apply grouped_entries. auto.
Qed.

(** X16. The statements of the least-privilege mode, whatever order the
    [range] takes: there is exactly one statement for every service that
    has an action in the list (an action with exactly one colon); it allows
    the actions of the service, all of them and in the order of the list,
    on the resource of the service; no statement is empty; and the
    statements are in strictly ascending order of their first action. *)
Theorem least_privilege_statements_by_service (ro : RangeOrder)
    (actionList : list string) :
  visits_each_once ro ->
  let statements := leastPrivilegeStatements ro actionList in
  (forall st, In st statements
              <-> exists service,
                    filter (hasService service) actionList <> []
                    /\ st = statementFor actionList service)
  /\ StronglySorted statementBefore statements
  /\ NoDup statements
  /\ (forall a service, In a actionList -> hasService service a = true ->
                        In (statementFor actionList service) statements).
Proof.
  intros [_ Hro] statements. subst statements. unfold leastPrivilegeStatements.
  set (grouped := groupActionsByServiceWithActions actionList).
  pose proof (groupActionsByServiceWithActions_groupedMap actionList) as Hg.
  fold grouped in Hg.
  assert (Hmem : forall st,
             In st (sort_Slice (map serviceStatement (range_services ro grouped)))
             <-> exists service,
                   filter (hasService service) actionList <> []
                   /\ st = statementFor actionList service).
  { intros st. now apply leastPrivilegeStatements_In. }
  assert (Hfirst : NoDup (map firstAction
                            (map serviceStatement (range_services ro grouped)))).
  { eapply Permutation_NoDup; [|apply (groupedMap_first_actions Hg)].
    apply Permutation_map, Permutation_map. symmetry. apply Hro. }
  assert (Hne : Forall (fun st => Action st <> [])
                       (map serviceStatement (range_services ro grouped))).
  { apply Forall_forall. intros st Hst. apply in_map_iff in Hst.
    destruct Hst as ([k vs] & <- & Hin). apply (Permutation_in _ (Hro grouped)) in Hin.
    apply grouped_entries in Hin. exact (proj2 Hin). }
  split; [exact Hmem|]. split; [now apply sort_Slice_sorted|]. split.
  - eapply Permutation_NoDup; [symmetry; apply sort_Slice_Permutation|].
    eapply NoDup_map_inv; exact Hfirst.
  - intros a service Ha Hs. apply Hmem. exists service. split; [|reflexivity].
    intros E. assert (Hin : In a (filter (hasService service) actionList))
      by (apply filter_In; auto).
    rewrite E in Hin. destruct Hin.
Qed.

Lemma least_privilege_statements_by_service_witness :
  In (statementFor ec2ThenS3 "s3") (leastPrivilegeStatements reverseOrder ec2ThenS3).
Proof.
  apply (proj2 (proj2 (proj2 (@least_privilege_statements_by_service reverseOrder
                                ec2ThenS3 reverseOrder_visits_each_once)))
           "s3:ListBucket" "s3");
    [simpl; tauto | reflexivity].
Defined.

(** X17. In least-privilege mode the output does not depend on the orders
    the [range] loops take, nor on the order of the resources and of the
    data sources in the result: two runs on results with the same resources
    and data sources and the same backend, with the same flags and
    encoders, return the same. *)
Theorem least_privilege_policy_is_canonical (db : option PermissionMap)
    (json_MarshalIndent yaml_Marshal : IAMPolicy -> Result string)
    (ro ro' : RangeOrder) (result result' : ParseResult)
    (includeStateBackend : bool) (format : OutputFormat) :
  visits_each_once ro -> visits_each_once ro' ->
  Permutation (Resources result) (Resources result') ->
  Permutation (DataSources result) (DataSources result') ->
  Backend result = Backend result' ->
  generateIAMPolicy db json_MarshalIndent yaml_Marshal ro result
    includeStateBackend format true
  = generateIAMPolicy db json_MarshalIndent yaml_Marshal ro' result'
      includeStateBackend format true.
Proof.
  intros Hro Hro' HR HD HB. unfold generateIAMPolicy.
  assert (E : policyStatements db ro result includeStateBackend true
              = policyStatements db ro' result' includeStateBackend true).
  { unfold policyStatements. cbn [negb]. cbv zeta.
    rewrite (@sortedActions_order_independent db ro ro' result result'
               includeStateBackend Hro Hro' HR HD HB).
    now apply leastPrivilegeStatements_order_independent. }
  now rewrite E.
Qed.

Lemma least_privilege_policy_is_canonical_witness :
  generateIAMPolicy (Some readmeDB) (fun _ => Ok EmptyString) (fun _ => Ok EmptyString)
    insertionOrder readmeResult false FormatTerraform true
  = generateIAMPolicy (Some readmeDB) (fun _ => Ok EmptyString) (fun _ => Ok EmptyString)
      reverseOrder
      {| Resources := rev (Resources readmeResult); Backend := None; DataSources := [] |}
      false FormatTerraform true.
Proof.
  apply least_privilege_policy_is_canonical;
    [ exact insertionOrder_visits_each_once | exact reverseOrder_visits_each_once
    | apply Permutation_rev | reflexivity | reflexivity ].
Defined.

(** ** The resource of a service, and the ways a synthesis fails *)

Lemma arnMap_entries :
  Forall (fun entry : string * string =>
            strings.HasPrefix (snd entry) ("arn:aws:" ++ fst entry ++ ":") = true)
         arnMap.
Proof. apply Forall_forall. apply forallb_forall. vm_compute. reflexivity. Qed.

Lemma arnMap_NoDup : NoDup (map fst arnMap).
Proof.
  apply (NoDup_count_occ' string_dec). intros x Hx.
  repeat (destruct Hx as [<-|Hx]; [vm_compute; reflexivity|]). destruct Hx.
Qed.

(** X18. The resource of a service is "*" when the service is not in the
    table; for a service of the table it is an ARN of that service: it
    starts with "arn:aws:", the service, and a colon. *)
Theorem getResourceARNForService_form (service : string) :
  (~ In service (map fst arnMap) -> getResourceARNForService service = "*"%string)
  /\ (In service (map fst arnMap) ->
      strings.HasPrefix (getResourceARNForService service) ("arn:aws:" ++ service ++ ":")
      = true).
Proof.
  split.
  - intros H. unfold getResourceARNForService. now rewrite (lookup_not_key _ _ H).
  - intros H. unfold getResourceARNForService.
    apply in_map_iff in H. destruct H as ([k arn] & Hk & Hin). simpl in Hk. subst k.
    rewrite (lookup_In_NoDup _ _ _ arnMap_NoDup Hin).
    pose proof arnMap_entries as Hall. rewrite Forall_forall in Hall.
    exact (Hall _ Hin).
Qed.

Lemma getResourceARNForService_form_witness :
  getResourceARNForService "organizations" = "*"%string
  /\ strings.HasPrefix (getResourceARNForService "ecr") "arn:aws:ecr:" = true.
Proof.
  split.
  - apply (proj1 (getResourceARNForService_form "organizations")).
    intros H. repeat (destruct H as [H|H]; [discriminate|]). exact H.
  - apply (proj2 (getResourceARNForService_form "ecr")).
    apply in_map_iff. exists ("ecr", "arn:aws:ecr:*:*:repository/*"). split; [reflexivity|].
    simpl. tauto.
Defined.

(** ** A policy for nothing *)

(** X19. When no action was collected (no resource and no data source of
    the result has actions in the database, the flag is not set and no
    backend was detected), the default mode still gives one statement, with
    an empty list of actions on the resource "*"; the least-privilege mode
    gives no statement at all. *)
Theorem nothing_collected (db : option PermissionMap) (ro : RangeOrder)
    (result : ParseResult) (includeStateBackend : bool) :
  visits_each_once ro ->
  collectActions db result includeStateBackend = [] ->
  policyStatements db ro result includeStateBackend false = [singleStatement []]
  /\ policyStatements db ro result includeStateBackend true = [].
Proof.
  intros [Ha Hs] Hnone.
  assert (Hsorted : sortedActions db ro result includeStateBackend = []).
  { unfold sortedActions. rewrite Hnone.
    now rewrite (Permutation_nil (Permutation_sym (Ha []))). }
  unfold policyStatements. rewrite Hsorted. cbn [negb]. split.
  - unfold groupActionsByService. cbn [collectPrefixes].
    now rewrite (Permutation_nil (Permutation_sym (Hs []))).
  - unfold leastPrivilegeStatements, groupActionsByServiceWithActions. cbn [fold_left].
    now rewrite (Permutation_nil (Permutation_sym (Hs []))).
Qed.

Lemma nothing_collected_witness :
  policyStatements (Some readmeDB) reverseOrder emptyResult false false
  = [singleStatement []]
  /\ policyStatements (Some readmeDB) reverseOrder emptyResult false true = [].
Proof.
  apply (@nothing_collected (Some readmeDB) reverseOrder emptyResult false
           reverseOrder_visits_each_once).
  reflexivity.
Defined.

(** X20. The ways a synthesis fails. In the Terraform format it never
    fails. In the JSON and YAML formats it fails exactly when the encoder
    does, with the error of the encoder wrapped. For any other format it
    fails with the unsupported-format error; the command checks the format
    first, so a format that passes its check never gives this error. The
    policy handed to an encoder has the version "2012-10-17". *)
Theorem synthesis_fails_only_in_encoding (db : option PermissionMap)
    (json_MarshalIndent yaml_Marshal : IAMPolicy -> Result string)
    (ro : RangeOrder) (result : ParseResult)
    (includeStateBackend : bool) (format : OutputFormat) (leastPrivilege : bool) :
  let statements := policyStatements db ro result includeStateBackend leastPrivilege in
  let policy := {| Version := "2012-10-17"; Statement := statements |} in
  let output := generateIAMPolicy db json_MarshalIndent yaml_Marshal ro result
                  includeStateBackend format leastPrivilege in
  (format = FormatTerraform -> output = Ok (generateTerraformOutput statements))
  /\ (format = FormatJSON ->
      output = match json_MarshalIndent policy with
               | Ok text => Ok text
               | Err cause => Err (ErrMarshalJSON cause)
               end)
  /\ (format = FormatYAML ->
      output = match yaml_Marshal policy with
               | Ok text => Ok text
               | Err cause => Err (ErrMarshalYAML cause)
               end)
  /\ (validFormats format = false -> output = Err (ErrUnsupportedFormat format))
  /\ (validFormats format = true ->
      forall err, output = Err err ->
                  exists cause, err = ErrMarshalJSON cause \/ err = ErrMarshalYAML cause).
Proof.
  intros statements policy output. subst output. unfold generateIAMPolicy.
  fold statements. fold policy.
  unfold validFormats, FormatJSON, FormatYAML, FormatTerraform.
  split; [intros ->; reflexivity|].
  split; [intros ->; reflexivity|].
  split; [intros ->; reflexivity|].
  destruct (format =? "json")%string.
  { split; [discriminate|]. intros _ err H.
    destruct (json_MarshalIndent policy); inversion H; eauto. }
  destruct (format =? "yaml")%string.
  { split; [discriminate|]. intros _ err H.
    destruct (yaml_Marshal policy); inversion H; eauto. }
  destruct (format =? "terraform")%string.
  { split; [discriminate|]. intros _ err H. discriminate H. }
  split; [reflexivity|discriminate].
Qed.

Lemma synthesis_fails_only_in_encoding_witness :
  generateIAMPolicy (Some readmeDB) (fun _ => Err (OSError "unsupported value"))
    (fun _ => Ok EmptyString) insertionOrder readmeResult false "xml" false
  = Err (ErrUnsupportedFormat "xml")
  /\ generateIAMPolicy (Some readmeDB) (fun _ => Err (OSError "unsupported value"))
       (fun _ => Ok EmptyString) insertionOrder readmeResult false FormatJSON false
     = Err (ErrMarshalJSON (OSError "unsupported value")).
Proof.
  split.
  - apply (proj1 (proj2 (proj2 (proj2
             (@synthesis_fails_only_in_encoding (Some readmeDB)
                (fun _ => Err (OSError "unsupported value")) (fun _ => Ok EmptyString)
                insertionOrder readmeResult false "xml" false))))).
    reflexivity.
  - apply (proj1 (proj2
             (@synthesis_fails_only_in_encoding (Some readmeDB)
                (fun _ => Err (OSError "unsupported value")) (fun _ => Ok EmptyString)
                insertionOrder readmeResult false FormatJSON false))).
    reflexivity.
Defined.

(** ** The command *)

Section CommandFacts.

Variable ReadFile : string -> Result string.
Variable WriteFile : string -> string -> option error.
Variable Walked : string -> list WalkEntry.
Variable ParseConfig : string -> option (list Block).
Variable json_Unmarshal : string -> Result PermissionMap.
Variable TrimSpace : string -> string.
Variable Fields : string -> list string.
Variable json_MarshalIndent : IAMPolicy -> Result string.
Variable yaml_Marshal : IAMPolicy -> Result string.
Variable ro : RangeOrder.
Variable rangeKeys : list string -> list string.

Local Abbreviation command :=
  (runScanner ReadFile WriteFile Walked ParseConfig json_Unmarshal TrimSpace Fields
     json_MarshalIndent yaml_Marshal ro rangeKeys).
Local Abbreviation parse :=
  (parseTerraformFiles ReadFile ParseConfig json_Unmarshal TrimSpace Fields).
Local Abbreviation generate := (generateIAMPolicy).





Local Ltac other_line H := exfalso; unfold backendHint in H; simpl in H; discriminate H.

Lemma hint_in_summary (flags : Flags) (result : ParseResult) (policy : string) :
  In backendHint (summary TrimSpace rangeKeys flags result policy) ->
  includeStateBackendFlag flags = false /\ Backend result <> None.
Proof.
  unfold summary, backendHint. intros H.
  apply in_app_or in H. destruct H as [H|H].
  { simpl in H. destruct H as [H|[H|[H|[]]]]; discriminate H. }
  apply in_app_or in H. destruct H as [H|H].
  - destruct (Backend result) as [backend|]; [|destruct H].
    destruct H as [H|H]; [simpl in H; discriminate H|].
    destruct (includeStateBackendFlag flags); [destruct H|].
    split; [reflexivity|discriminate].
  - destruct (leastPrivilegeFlag flags); [|destruct H].
    destruct H as [H|[]]. simpl in H. discriminate H.
Qed.

(** X22. The summary prints the hint to use --include-state-backend only
    in a run without this flag that detected a backend; in such a run the
    eight backend actions were collected for the policy all the same, as
    the synthesis adds them whenever a backend was detected. *)
Theorem hint_comes_with_backend_actions (flags : Flags)
    (permissionsDB : option PermissionMap) :
  In backendHint (events (command flags permissionsDB)) ->
  includeStateBackendFlag flags = false
  /\ exists loadedDB result,
       parse permissionsDB (Walked (pathFlag flags)) = (loadedDB, (Some result, None))
       /\ Backend result <> None
       /\ forall action, In action backendActions ->
                         In action (collectActions loadedDB result
                                      (includeStateBackendFlag flags)).
Proof.
  unfold runScanner.
  destruct (pathFlag flags =? EmptyString)%string.
  { intros [H|[]]. other_line H. }
  destruct (validFormats (formatFlag flags)); simpl negb; cbv iota.
  2:{ intros [H|[]]. other_line H. }
  destruct (parse permissionsDB (Walked (pathFlag flags))) as [loadedDB [[result|] [err|]]].
  1,3: intros [H|[]]; other_line H.
  2:{ intros []. }
  set (warning := if _ : bool then _ else _).
  assert (Hw : ~ In backendHint warning).
  { subst warning. destruct (_ && _); [|intros []].
    intros [H|[]]. other_line H. }
  assert (Hsum : forall policy,
             In backendHint (summary TrimSpace rangeKeys flags result policy) ->
             includeStateBackendFlag flags = false
             /\ exists loadedDB0 result0,
                  (loadedDB, (Some result, @None error)) = (loadedDB0, (Some result0, None))
                  /\ Backend result0 <> None
                  /\ forall action, In action backendActions ->
                                    In action (collectActions loadedDB0 result0
                                                 (includeStateBackendFlag flags))).
  { intros policy H. apply hint_in_summary in H. destruct H as [Hflag Hb].
    split; [exact Hflag|]. exists loadedDB, result.
    split; [reflexivity|]. split; [exact Hb|].
    intros action Ha. apply collectActions_In. right; right. split; [|exact Ha].
    unfold backendRequested. destruct (Backend result); [apply orb_true_r | congruence]. }
  destruct (generate loadedDB json_MarshalIndent yaml_Marshal ro result
              (includeStateBackendFlag flags) (formatFlag flags)
              (leastPrivilegeFlag flags)) as [policy|err].
  2:{ cbn [events]. intros H. apply in_app_or in H. destruct H as [H|[H|[]]]; [now elim Hw|].
      other_line H. }
  destruct (outputFlag flags =? EmptyString)%string; simpl negb; cbv iota.
  - cbn [events]. intros H. apply in_app_or in H. destruct H as [H|H]; [now elim Hw|].
    apply in_app_or in H. destruct H as [[H|[]]|H]; [discriminate H|].
    now apply (Hsum policy).
  - destruct (WriteFile (outputFlag flags) policy) as [err|].
    + cbn [events]. intros H. apply in_app_or in H. destruct H as [H|[H|[]]]; [now elim Hw|].
      other_line H.
    + cbn [events]. intros H. apply in_app_or in H. destruct H as [H|H]; [now elim Hw|].
      apply in_app_or in H. destruct H as [[H|[H|[]]]|H]; [discriminate H|discriminate H|].
      now apply (Hsum policy).
Qed.

End CommandFacts.


Lemma hint_comes_with_backend_actions_witness :
  In backendHint (events (demoCommand terraformToStdout))
  /\ exists loadedDB result,
       parseTerraformFiles demoReadFile demoParseConfig demoUnmarshal
         strings.TrimSpaceASCII strings.FieldsASCII (Some readmeDB) [file "a.tf"]
       = (loadedDB, (Some result, None))
       /\ Backend result <> None
       /\ forall action, In action backendActions ->
                         In action (collectActions loadedDB result false).
Proof.
  assert (H : In backendHint (events (demoCommand terraformToStdout))).
  { vm_compute. tauto. }
  split; [exact H|].
  exact (proj2 (@hint_comes_with_backend_actions demoReadFile
             (fun _ _ => None) (fun _ => [file "a.tf"]) demoParseConfig demoUnmarshal
             strings.TrimSpaceASCII strings.FieldsASCII
             (fun _ => Ok "{}"%string) (fun _ => Ok "{}"%string)
             insertionOrder (fun services => services) terraformToStdout
             (Some readmeDB) H)).
Defined.

(** ** The services of the summary *)

Lemma Split_before (line : string) (c : ascii) :
  strings.Count line c <> 0 ->
  exists second rest, strings.Split line c = strings.before line c :: second :: rest.
Proof.
  intros H. destruct (before_split line c H) as (rest & E).
  assert (Es : strings.Split line c
               = strings.Split (strings.before line c ++ String c rest) c)
    by (now rewrite <- E).
  rewrite Es, Split_app.
  rewrite (Split_none _ _ (before_no_separator line c)).
  destruct (strings.Split rest c) as [|second pieces] eqn:Er.
  - now apply Split_not_nil in Er.
  - now exists second, pieces.
Qed.

Lemma servicesStep_spec (TrimSpace : string -> string) (services : list string)
    (line : string) :
  servicesStep TrimSpace services line
  = if namesService line then setAdd services (serviceOfLine TrimSpace line)
    else services.
Proof.
  unfold servicesStep, namesService, serviceOfLine.
  destruct (strings.Contains line ":") eqn:Hc; [|reflexivity].
  destruct (strings.Contains line "arn:"); [reflexivity|]. simpl.
  apply (Contains_byte line colon_char) in Hc.
  destruct (Split_before line colon_char Hc) as (second & rest & ->).
  reflexivity.
Qed.

Lemma fold_servicesStep_In (TrimSpace : string -> string) (lines services : list string)
    (s : string) :
  In s (fold_left (servicesStep TrimSpace) lines services)
  <-> In s services
      \/ exists line, In line lines /\ namesService line = true
                      /\ s = serviceOfLine TrimSpace line.
Proof.
  revert services; induction lines as [|line lines IH]; intros services; simpl.
  - split; [tauto | intros [H|(line & [] & _)]; exact H].
  - rewrite IH, servicesStep_spec. destruct (namesService line) eqn:Hn.
    + rewrite setAdd_In. split.
      * intros [[H| ->]|(l & Hl & Hc & E)]; [now left | |].
        -- right. exists line. auto.
        -- right. exists l. auto.
      * intros [H|(l & [<-|Hl] & Hc & E)]; [now left; left | |].
        -- left; right. exact E.
        -- right. exists l. auto.
    + split.
      * intros [H|(l & Hl & Hc & E)]; [now left|]. right. exists l. auto.
      * intros [H|(l & [<-|Hl] & Hc & E)]; [now left | congruence |].
        right. exists l. auto.
Qed.

Lemma fold_servicesStep_NoDup (TrimSpace : string -> string) (lines services : list string) :
  NoDup services -> NoDup (fold_left (servicesStep TrimSpace) lines services).
Proof.
  revert services; induction lines as [|line lines IH]; intros services H; simpl;
    [exact H|].
  apply IH. rewrite servicesStep_spec.
  destruct (namesService line); [now apply setAdd_NoDup | exact H].
Qed.

Lemma extractServicesFromPolicy_In (TrimSpace : string -> string)
    (rangeKeys : list string -> list string) (policy s : string) :
  (forall keys, Permutation (rangeKeys keys) keys) ->
  In s (extractServicesFromPolicy TrimSpace rangeKeys policy)
  <-> exists line, In line (strings.Split policy newline_char)
                   /\ namesService line = true
                   /\ s = serviceOfLine TrimSpace line.
Proof.
  intros Hperm. unfold extractServicesFromPolicy.
  set (found := fold_left (servicesStep TrimSpace) (strings.Split policy newline_char) []).
  assert (Hin : In s (sort_Strings (rangeKeys found)) <-> In s found).
  { split; intros H.
    - apply (Permutation_in _ (Hperm found)).
      now apply (Permutation_in _ (sort_Strings_Permutation _)).
    - apply (Permutation_in _ (Permutation_sym (sort_Strings_Permutation _))).
      now apply (Permutation_in _ (Permutation_sym (Hperm found))). }
  rewrite Hin. subst found. rewrite fold_servicesStep_In.
  split; [intros [[]|H]; exact H | intros H; now right].
Qed.

(** X23. The services the summary lists. Every line of the policy text
    with a colon and without "arn:" gives one name, the text before its
    first colon trimmed of white space and then of quotes, brackets and
    commas; a line with a colon always has the two pieces the code asks
    for, so none is skipped for that. The list holds exactly these names,
    each once, in strictly ascending order, whatever the order of the
    iteration over the set. *)
Theorem summary_services_are_canonical (TrimSpace : string -> string)
    (rangeKeys : list string -> list string) (policy : string) :
  (forall keys, Permutation (rangeKeys keys) keys) ->
  let services := extractServicesFromPolicy TrimSpace rangeKeys policy in
  (forall s, In s services
             <-> exists line, In line (strings.Split policy newline_char)
                              /\ namesService line = true
                              /\ s = serviceOfLine TrimSpace line)
  /\ StronglySorted slt services
  /\ services = extractServicesFromPolicy TrimSpace (fun keys => keys) policy.
Proof.
  intros Hperm services. subst services.
  split; [intros s; now apply extractServicesFromPolicy_In|].
  unfold extractServicesFromPolicy.
  set (found := fold_left (servicesStep TrimSpace) (strings.Split policy newline_char) []).
  assert (Hnd : NoDup found) by (apply fold_servicesStep_NoDup; constructor).
  assert (Hnd' : NoDup (rangeKeys found)).
  { apply (Permutation_NoDup (Permutation_sym (Hperm found)) Hnd). }
  split; [now apply sort_Strings_sorted|].
  apply sort_Strings_unique.
  - now apply sort_Strings_sorted.
  - now apply sort_Strings_sorted.
  - intros s. split; intros H.
    + apply (Permutation_in _ (Permutation_sym (sort_Strings_Permutation _))).
      apply (Permutation_in _ (Hperm found)).
      now apply (Permutation_in _ (sort_Strings_Permutation _)).
    + apply (Permutation_in _ (Permutation_sym (sort_Strings_Permutation _))).
      apply (Permutation_in _ (Permutation_sym (Hperm found))).
      now apply (Permutation_in _ (sort_Strings_Permutation _)).
Qed.

Lemma summary_services_are_canonical_witness :
  StronglySorted slt
    (extractServicesFromPolicy strings.TrimSpaceASCII (@rev string)
       ("  s3:GetObject," ++ nl ++ "  arn:aws:s3:::*" ++ nl ++ "  ec2:RunInstances")).
Proof.
  apply (proj1 (proj2 (@summary_services_are_canonical strings.TrimSpaceASCII (@rev string)
           ("  s3:GetObject," ++ nl ++ "  arn:aws:s3:::*" ++ nl ++ "  ec2:RunInstances")
           (fun keys => Permutation_sym (Permutation_rev keys))))).
Defined.

(** ** From the statements to the Terraform text and back *)

Lemma append_assoc (a b c : string) : ((a ++ b) ++ c = a ++ (b ++ c))%string.
Proof. induction a as [|x a IH]; simpl; [reflexivity | now rewrite IH]. Qed.

Lemma append_nil_r (a : string) : (a ++ EmptyString)%string = a.
Proof. induction a as [|x a IH]; simpl; [reflexivity | now rewrite IH]. Qed.

Lemma Count_app (a b : string) (c : ascii) :
  strings.Count (a ++ b) c = strings.Count a c + strings.Count b c.
Proof. induction a as [|x a IH]; simpl; [reflexivity | rewrite IH; lia]. Qed.

Lemma Split_lines (line rest : string) :
  strings.Count line newline_char = 0 ->
  strings.Split (line ++ nl ++ rest)%string newline_char
  = line :: strings.Split rest newline_char.
Proof.
  intros H. change (line ++ nl ++ rest)%string with (line ++ String newline_char rest)%string.
  now rewrite Split_app, (Split_none _ _ H).
Qed.

Lemma concat_cons (x : string) (l : list string) :
  String.concat EmptyString (x :: l) = (x ++ String.concat EmptyString l)%string.
Proof. destruct l; simpl; [now rewrite append_nil_r | reflexivity]. Qed.

Lemma actionLine_nl (action rest : string) :
  (("      " ++ quoted action ++ "," ++ nl) ++ rest
   = actionLine action ++ nl ++ rest)%string.
Proof.
  unfold actionLine, quoted. simpl. rewrite !append_assoc. reflexivity.
Qed.

Lemma unlines_app (l1 l2 : list string) (rest : string) :
  unlines (l1 ++ l2) rest = unlines l1 (unlines l2 rest).
Proof. apply fold_right_app. Qed.

Lemma Split_unlines (lines : list string) (rest : string) :
  Forall (fun line => strings.Count line newline_char = 0) lines ->
  strings.Split (unlines lines rest) newline_char
  = lines ++ strings.Split rest newline_char.
Proof.
  induction 1 as [|line r Hl Hr IH]; [reflexivity|].
  cbn [unlines fold_right]. fold (unlines r rest).
  now rewrite Split_lines, IH.
Qed.

Lemma action_lines_unlines (actions : list string) (rest : string) :
  (String.concat EmptyString
     (map (fun action => "      " ++ quoted action ++ "," ++ nl)%string actions)
   ++ rest)%string
  = unlines (map actionLine actions) rest.
Proof.
  induction actions as [|a r IH]; [reflexivity|].
  cbn [map]. rewrite concat_cons, append_assoc, actionLine_nl, IH. reflexivity.
Qed.

Lemma statementText_unlines (statement : IAMStatement) (rest : string) :
  Action statement <> [] ->
  (statementText statement ++ nl ++ rest)%string
  = unlines (statementLines statement) rest.
Proof.
  intros Hne. unfold statementText, statementLines.
  destruct (Action statement) as [|a v] eqn:E; [contradiction|].
  rewrite !unlines_app, <- action_lines_unlines.
  cbn [unlines fold_right]. unfold resourceLine.
  rewrite !append_assoc. reflexivity.
Qed.

Lemma statementsText_unlines (statements : list IAMStatement) (rest : string) :
  Forall (fun st => Action st <> []) statements ->
  (statementsText statements ++ nl ++ rest)%string
  = unlines (documentLines statements) rest.
Proof.
  induction 1 as [|st r Hst Hr IH]; [reflexivity|].
  cbn [statementsText]. destruct r as [|st' r'].
  - cbn [statementsText documentLines flat_map].
    rewrite app_nil_r, !append_assoc. cbn [append].
    now apply statementText_unlines.
  - change (documentLines (st :: st' :: r'))
      with (statementLines st ++ documentLines (st' :: r')).
    rewrite unlines_app, <- IH, <- (@statementText_unlines st _ Hst), !append_assoc.
    reflexivity.
Qed.

Lemma generateTerraformOutput_unlines (statements : list IAMStatement) :
  Forall (fun st => Action st <> []) statements ->
  generateTerraformOutput statements = unlines (outputLines statements) EmptyString.
Proof.
  intros H. unfold generateTerraformOutput, outputLines.
  rewrite !unlines_app, <- (@statementsText_unlines statements _ H).
  cbn [unlines fold_right]. rewrite !append_assoc. reflexivity.
Qed.

Lemma Split_generateTerraformOutput (statements : list IAMStatement) :
  Forall printable statements ->
  strings.Split (generateTerraformOutput statements) newline_char
  = outputLines statements ++ [EmptyString].
Proof.
  intros H.
  assert (Hne : Forall (fun st => Action st <> []) statements).
  { eapply Forall_impl; [|exact H]. intros st Hst. exact (proj1 Hst). }
  rewrite (generateTerraformOutput_unlines Hne), Split_unlines; [reflexivity|].
  unfold outputLines. apply Forall_app. split; [repeat constructor|].
  apply Forall_app. split; [|repeat constructor].
  unfold documentLines. destruct statements as [|st0 r0]; [repeat constructor|].
  apply Forall_flat_map. eapply Forall_impl; [|exact H].
  intros st (_ & He & Ha & Hr). unfold statementLines.
  apply Forall_app. split.
  { repeat constructor. unfold quoted. rewrite !Count_app, He. reflexivity. }
  apply Forall_app. split.
  - apply Forall_map. eapply Forall_impl; [|exact Ha].
    intros a Hc. unfold actionLine, quoted. rewrite !Count_app, Hc. reflexivity.
  - repeat constructor. unfold resourceLine, quoted. rewrite !Count_app, Hr. reflexivity.
Qed.

(** *** Reading an action line *)

Lemma prefix_before_foreign (sub x : string) (d : ascii) (rest : string) :
  strings.inCutset d sub = false ->
  String.prefix sub (x ++ String d rest) = String.prefix sub x.
Proof.
  revert sub; induction x as [|c t IH]; intros sub Hd.
  - destruct sub as [|a s']; [reflexivity|]. simpl in *.
    apply orb_false_iff in Hd. destruct Hd as [Hda _].
    destruct (ascii_dec a d) as [->|Hne]; [|reflexivity].
    now rewrite Ascii.eqb_refl in Hda.
  - destruct sub as [|a s']; [reflexivity|]. simpl in *.
    apply orb_false_iff in Hd. destruct Hd as [_ Hd].
    destruct (ascii_dec a c); [now apply IH | reflexivity].
Qed.

Lemma Contains_before_foreign (sub x : string) (d : ascii) (rest : string) :
  strings.inCutset d sub = false ->
  strings.Contains (x ++ String d rest) sub
  = strings.Contains x sub || strings.Contains (String d rest) sub.
Proof.
  intros Hd. induction x as [|c t IH].
  - destruct sub as [|a s']; [reflexivity|]. reflexivity.
  - change (String c t ++ String d rest)%string with (String c (t ++ String d rest)).
    rewrite !(Contains_cons c), IH.
    change (String c (t ++ String d rest)) with (String c t ++ String d rest)%string.
    rewrite (@prefix_before_foreign sub (String c t) d rest Hd). now rewrite orb_assoc.
Qed.

Lemma before_app (x y : string) (c : ascii) :
  strings.Count x c = 0 -> strings.before (x ++ String c y) c = x.
Proof.
  induction x as [|a x IH]; simpl; intros H.
  - now rewrite Ascii.eqb_refl.
  - destruct (Ascii.eqb a c); [discriminate|]. now rewrite IH.
Qed.

Lemma isServiceChar_plain (c : ascii) :
  isServiceChar c = true ->
  strings.isSpace c = false
  /\ strings.inCutset c (quote ++ "[],") = false
  /\ Ascii.eqb c colon_char = false
  /\ Ascii.eqb c newline_char = false
  /\ isASCII c = true.
Proof.
  destruct c as [[] [] [] [] [] [] [] []]; vm_compute; intros H;
    try discriminate H; repeat split.
Qed.

Lemma dropSpaceRight_id (s : string) :
  allChars (fun c => negb (strings.isSpace c)) s = true -> strings.dropSpaceRight s = s.
Proof.
  induction s as [|c t IH]; [reflexivity|]. cbn [allChars strings.dropSpaceRight].
  intros H. apply andb_true_iff in H. destruct H as [Hc Ht].
  rewrite (IH Ht). destruct t; [|reflexivity].
  now destruct (strings.isSpace c).
Qed.

Lemma TrimRight_id (s cutset : string) :
  allChars (fun c => negb (strings.inCutset c cutset)) s = true ->
  strings.TrimRight s cutset = s.
Proof.
  induction s as [|c t IH]; [reflexivity|]. cbn [allChars strings.TrimRight].
  intros H. apply andb_true_iff in H. destruct H as [Hc Ht].
  rewrite (IH Ht). destruct t; [|reflexivity].
  now destruct (strings.inCutset c cutset).
Qed.

Lemma TrimLeft_id (s cutset : string) :
  allChars (fun c => negb (strings.inCutset c cutset)) s = true ->
  strings.TrimLeft s cutset = s.
Proof.
  destruct s as [|c t]; [reflexivity|]. cbn [allChars strings.TrimLeft].
  intros H. apply andb_true_iff in H. destruct H as [Hc Ht].
  now destruct (strings.inCutset c cutset).
Qed.

Lemma allChars_impl (p q : ascii -> bool) (s : string) :
  (forall c, p c = true -> q c = true) -> allChars p s = true -> allChars q s = true.
Proof.
  intros Hpq. induction s as [|c t IH]; [reflexivity|]. cbn [allChars].
  intros H. apply andb_true_iff in H. destruct H as [Hc Ht].
  now rewrite (Hpq _ Hc), IH.
Qed.

Lemma allChars_Count (p : ascii -> bool) (s : string) (c : ascii) :
  (forall d, p d = true -> Ascii.eqb d c = false) ->
  allChars p s = true -> strings.Count s c = 0.
Proof.
  intros Hp. induction s as [|d t IH]; [reflexivity|]. cbn [allChars strings.Count].
  intros H. apply andb_true_iff in H. destruct H as [Hd Ht].
  now rewrite (Hp _ Hd), IH.
Qed.

Lemma actionLine_form (action : string) :
  actionLine action
  = (("      " ++ quote) ++ action ++ String quote_char ",")%string.
Proof. unfold actionLine, quoted, quote. simpl. now rewrite append_assoc. Qed.

Lemma actionLine_read (TrimSpace : string -> string) (service verb : string) :
  (forall s, allChars isASCII s = true -> TrimSpace s = strings.TrimSpaceASCII s) ->
  allChars isServiceChar service = true ->
  strings.Contains (service ++ ":" ++ verb) "arn:" = false ->
  namesService (actionLine (service ++ ":" ++ verb)) = true
  /\ serviceOfLine TrimSpace (actionLine (service ++ ":" ++ verb)) = service.
Proof.
  intros HTS Hs Harn.
  assert (Hcolon : strings.Count service colon_char = 0).
  { apply (allChars_Count isServiceChar); [|exact Hs].
    intros d Hd. apply (isServiceChar_plain d Hd). }
  split.
  - unfold namesService. apply andb_true_iff. split.
    + apply (Contains_byte _ colon_char). unfold actionLine, quoted.
      rewrite !Count_app. simpl. lia.
    + rewrite actionLine_form.
      change (("      " ++ quote) ++ (service ++ ":" ++ verb) ++ String quote_char ",")%string
        with (String " " (String " " (String " " (String " " (String " " (String " "
               (String quote_char
                  ((service ++ ":" ++ verb) ++ String quote_char ","))))))))%string.
      rewrite !Contains_cons. cbn [String.prefix]. simpl orb.
      rewrite Contains_before_foreign by reflexivity.
      change (":" ++ verb)%string with (String ":" verb) in Harn.
      rewrite Harn. reflexivity.
  - unfold serviceOfLine. rewrite actionLine_form.
    assert (E : ((("      " ++ quote) ++ (service ++ ":" ++ verb) ++ String quote_char ",")
                 = (("      " ++ quote) ++ service)
                   ++ String colon_char (verb ++ String quote_char ","))%string).
    { rewrite !append_assoc. reflexivity. }
    rewrite E, before_app by (rewrite Count_app, Hcolon; reflexivity).
    rewrite HTS.
    2:{ change (allChars isASCII (String " " (String " " (String " " (String " "
                  (String " " (String " " (String quote_char service))))))) = true).
        cbn [allChars]. simpl andb.
        apply (allChars_impl isServiceChar); [|exact Hs].
        intros c Hc. apply (isServiceChar_plain c Hc). }
    change (strings.TrimSpaceASCII (("      " ++ quote) ++ service))
      with (strings.dropSpaceRight (String quote_char service)).
    rewrite dropSpaceRight_id.
    2:{ cbn [allChars]. simpl andb.
        apply (allChars_impl isServiceChar); [|exact Hs].
        intros c Hc. now rewrite (proj1 (isServiceChar_plain c Hc)). }
    change (strings.Trim (String quote_char service) (quote ++ "[],"))
      with (strings.TrimRight (strings.TrimLeft service (quote ++ "[],")) (quote ++ "[],")).
    assert (Hcut : allChars (fun c => negb (strings.inCutset c (quote ++ "[],"))) service
                   = true).
    { apply (allChars_impl isServiceChar); [|exact Hs].
      intros c Hc. now rewrite (proj1 (proj2 (isServiceChar_plain c Hc))). }
    now rewrite (TrimLeft_id _ _ Hcut), (TrimRight_id _ _ Hcut).
Qed.

(** *** The other lines *)

Lemma arnMap_lines :
  forallb (fun entry : string * string =>
             (strings.Count (snd entry) newline_char =? 0)%nat
             && negb (namesService (resourceLine (snd entry)))) arnMap = true.
Proof. vm_compute. reflexivity. Qed.

Lemma resource_line (service : string) :
  strings.Count (getResourceARNForService service) newline_char = 0
  /\ namesService (resourceLine (getResourceARNForService service)) = false.
Proof.
  unfold getResourceARNForService.
  destruct (lookup arnMap service) as [arn|] eqn:E; [|split; reflexivity].
  apply lookup_Some_In in E.
  pose proof (proj1 (forallb_forall _ _) arnMap_lines _ E) as H. simpl in H.
  apply andb_true_iff in H. destruct H as [Hc Hn].
  split; [now apply Nat.eqb_eq | now apply negb_true_iff].
Qed.

Lemma named_lines (statements : list IAMStatement) (line : string) :
  Forall (fun st => Effect st = "Allow"%string
                    /\ namesService (resourceLine (Statement_Resource st)) = false)
         statements ->
  In line (outputLines statements ++ [EmptyString]) ->
  namesService line = true ->
  exists st a, In st statements /\ In a (Action st) /\ line = actionLine a.
Proof.
  intros Hshape Hin Hn. unfold outputLines in Hin.
  rewrite !in_app_iff in Hin.
  destruct Hin as [[Hin|[Hin|Hin]]|Hin].
  - destruct Hin as [<-|[]]. discriminate Hn.
  - assert (Hdoc : In line (flat_map statementLines statements)).
    { destruct statements; [|exact Hin]. destruct Hin as [<-|[]]. discriminate Hn. }
    apply in_flat_map in Hdoc. destruct Hdoc as (st & Hst & Hl).
    rewrite Forall_forall in Hshape. destruct (Hshape _ Hst) as [He Hr].
    unfold statementLines in Hl. rewrite !in_app_iff in Hl.
    destruct Hl as [Hl|[Hl|Hl]].
    + rewrite He in Hl. destruct Hl as [<-|[<-|[<-|[]]]]; discriminate Hn.
    + apply in_map_iff in Hl. destruct Hl as (a & <- & Ha). now exists st, a.
    + destruct Hl as [<-|[<-|[<-|[]]]]; [discriminate Hn | congruence | discriminate Hn].
  - repeat (destruct Hin as [<-|Hin]; [discriminate Hn|]). destruct Hin.
  - destruct Hin as [<-|[]]. discriminate Hn.
Qed.

Lemma action_line_in_output (statements : list IAMStatement) (st : IAMStatement)
    (a : string) :
  In st statements -> In a (Action st) ->
  In (actionLine a) (outputLines statements ++ [EmptyString]).
Proof.
  intros Hst Ha. unfold outputLines. rewrite !in_app_iff. left; right; left.
  unfold documentLines. destruct statements as [|st0 r]; [destruct Hst|].
  apply in_flat_map. exists st. split; [exact Hst|].
  unfold statementLines. rewrite !in_app_iff. right; left. now apply in_map.
Qed.

Lemma summarisable_inv (s a : string) :
  summarisable a = true -> hasService s a = true ->
  a = (s ++ ":" ++ verbOf a)%string
  /\ allChars isServiceChar s = true
  /\ strings.Contains (s ++ ":" ++ verbOf a) "arn:" = false
  /\ strings.Count a newline_char = 0.
Proof.
  unfold summarisable. intros H Hs.
  apply andb_true_iff in H. destruct H as [H Hnl].
  apply andb_true_iff in H. destruct H as [Hchars Harn].
  apply Nat.eqb_eq in Hnl. apply negb_true_iff in Harn.
  destruct (hasService_inv _ _ Hs) as (E & Hcs & Hcv).
  assert (Hb : strings.before a colon_char = s).
  { rewrite E. now apply before_app. }
  rewrite Hb in Hchars. rewrite <- E. auto.
Qed.

Lemma terraform_services (TrimSpace : string -> string)
    (rangeKeys : list string -> list string) (ro : RangeOrder)
    (actionList : list string) (s : string) :
  (forall t, allChars isASCII t = true -> TrimSpace t = strings.TrimSpaceASCII t) ->
  (forall keys, Permutation (rangeKeys keys) keys) ->
  (forall m, Permutation (range_services ro m) m) ->
  (forall a, In a actionList -> summarisable a = true) ->
  In s (extractServicesFromPolicy TrimSpace rangeKeys
          (generateTerraformOutput (leastPrivilegeStatements ro actionList)))
  <-> exists a, In a actionList /\ hasService s a = true.
Proof.
  intros HTS Hkeys Hro Hsum.
  set (statements := leastPrivilegeStatements ro actionList).
  assert (Hmem : forall st, In st statements ->
                            exists service,
                              filter (hasService service) actionList <> []
                              /\ st = statementFor actionList service).
  { intros st Hst. now apply (@leastPrivilegeStatements_In ro actionList st Hro). }
  assert (Hprint : Forall printable statements).
  { apply Forall_forall. intros st Hst. destruct (Hmem _ Hst) as (service & Hne & ->).
    split; [exact Hne|]. split; [reflexivity|]. split; [|apply resource_line].
    apply Forall_forall. intros a Ha. apply filter_In in Ha. destruct Ha as [Ha Hs].
    exact (proj2 (proj2 (proj2 (@summarisable_inv _ a (Hsum _ Ha) Hs)))). }
  assert (Hshape : Forall (fun st => Effect st = "Allow"%string
                             /\ namesService (resourceLine (Statement_Resource st)) = false)
                     statements).
  { apply Forall_forall. intros st Hst. destruct (Hmem _ Hst) as (service & Hne & ->).
    split; [reflexivity | apply resource_line]. }
  rewrite (@extractServicesFromPolicy_In TrimSpace rangeKeys _ s Hkeys).
  rewrite (@Split_generateTerraformOutput statements Hprint).
  split.
  - intros (line & Hin & Hn & ->).
    destruct (@named_lines statements line Hshape Hin Hn) as (st & a & Hst & Ha & ->).
    destruct (Hmem _ Hst) as (service & Hne & ->).
    apply filter_In in Ha. destruct Ha as [Ha Hs]. exists a. split; [exact Ha|].
    destruct (@summarisable_inv _ a (Hsum _ Ha) Hs) as (E & Hchars & Harn & _).
    rewrite E at 1.
    rewrite (proj2 (@actionLine_read TrimSpace service (verbOf a) HTS Hchars Harn)).
    exact Hs.
  - intros (a & Ha & Hs).
    destruct (@summarisable_inv _ a (Hsum _ Ha) Hs) as (E & Hchars & Harn & _).
    destruct (@actionLine_read TrimSpace s (verbOf a) HTS Hchars Harn) as [Hn Hread].
    rewrite <- E in Hn, Hread.
    exists (actionLine a). split; [|split; [exact Hn | now rewrite Hread]].
    apply (@action_line_in_output statements (statementFor actionList s) a).
    + apply (@leastPrivilegeStatements_In ro actionList _ Hro). exists s.
      split; [|reflexivity]. intros Enil.
      assert (Hin : In a (filter (hasService s) actionList)) by (apply filter_In; auto).
      rewrite Enil in Hin. destruct Hin.
    + apply filter_In. auto.
Qed.

(** X24. The services of the summary, read back from the Terraform text.
    In least-privilege mode with the Terraform format the synthesis
    succeeds, and the services the summary extracts from its text are
    exactly the services of the collected actions (the actions with exactly
    one colon, by the text before the colon). This holds when every
    collected action has a service prefix made of lower-case letters,
    digits and hyphens, does not contain "arn:" and has no line feed; the
    lines of the resources, which hold ARNs, give no name. [TrimSpace] is
    any function that trims ASCII text as [strings.TrimSpace] does. *)
Theorem terraform_summary_lists_the_services (db : option PermissionMap)
    (json_MarshalIndent yaml_Marshal : IAMPolicy -> Result string)
    (TrimSpace : string -> string) (rangeKeys : list string -> list string)
    (ro : RangeOrder) (result : ParseResult) (includeStateBackend : bool) :
  (forall t, allChars isASCII t = true -> TrimSpace t = strings.TrimSpaceASCII t) ->
  (forall keys, Permutation (rangeKeys keys) keys) ->
  visits_each_once ro ->
  (forall a, In a (collectActions db result includeStateBackend) ->
             summarisable a = true) ->
  exists policy,
    generateIAMPolicy db json_MarshalIndent yaml_Marshal ro result includeStateBackend
      FormatTerraform true = Ok policy
    /\ forall s, In s (extractServicesFromPolicy TrimSpace rangeKeys policy)
                 <-> exists a, In a (collectActions db result includeStateBackend)
                               /\ hasService s a = true.
Proof.
  intros HTS Hkeys Hro Hsum.
  exists (generateTerraformOutput
            (leastPrivilegeStatements ro (sortedActions db ro result includeStateBackend))).
  split; [reflexivity|]. intros s.
  rewrite (@terraform_services TrimSpace rangeKeys ro
             (sortedActions db ro result includeStateBackend) s HTS Hkeys (proj2 Hro)).
  - split; intros (a & Ha & Hs); exists a; (split; [|exact Hs]);
      now apply (@sortedActions_In db ro result includeStateBackend a Hro).
  - intros a Ha. apply Hsum.
    now apply (@sortedActions_In db ro result includeStateBackend a Hro).
Qed.

Lemma terraform_summary_lists_the_services_witness :
  exists policy,
    generateIAMPolicy (Some readmeDB) (fun _ => Ok EmptyString) (fun _ => Ok EmptyString)
      reverseOrder readmeResult true FormatTerraform true = Ok policy
    /\ forall s, In s (extractServicesFromPolicy strings.TrimSpaceASCII (@rev string) policy)
                 <-> exists a, In a (collectActions (Some readmeDB) readmeResult true)
                               /\ hasService s a = true.
Proof.
  apply (@terraform_summary_lists_the_services (Some readmeDB)
           (fun _ => Ok EmptyString) (fun _ => Ok EmptyString)
           strings.TrimSpaceASCII (@rev string) reverseOrder readmeResult true).
  - intros t _. reflexivity.
  - intros keys. apply Permutation_sym, Permutation_rev.
  - exact reverseOrder_visits_each_once.
  - intros a Ha. vm_compute in Ha.
    repeat (destruct Ha as [<-|Ha]; [vm_compute; reflexivity|]). destruct Ha.
Defined.
